(** * Subscription ledger: the data manager of SPOTIFY-SUBS

    A shallow embedding of [src/data_manager.py].  The [DataManager] keeps one
    JSON file per year in a data directory and every ledger operation is a
    load, a change of the loaded dictionary and a save.  The embedding follows
    that shape: the directory and the clock form a [world], the methods are
    computations in a state-and-exception monad over it, and the dictionaries
    the methods build and read are records whose keys may be absent.

    What is taken from Python rather than from the repository:
    - a text is kept in parsed form, as the value [json.loads] returns for it
      or as not being JSON; [json.dumps] followed by [json.loads] is the
      identity on the values met here;
    - a file is either such a text or bytes that do not decode as UTF-8;
    - the data directory exists and is writable, so that the [except] clause of
      [save_data] is never entered;
    - strings are read as ASCII text: [int] knows the ASCII digits and skips,
      around a literal, the white space it skips in an ASCII string (tab to
      carriage return, and the space);
    - amounts are binary64 floats, computed with the primitive floats. *)

From Stdlib Require Import ZArith Ascii String List Floats DecimalString DecimalZ DecimalPos.
From stdpp Require Import gmap strings list sorting.

Local Open Scope string_scope.
Local Open Scope Z_scope.
Local Open Scope list_scope.

(** ** Python strings and integers *)

Module PyStr.

(** [str(n)] for an [int]: decimal digits, a leading minus sign for negative
    numbers, no leading zeros. *)
Definition str (n : Z) : string := NilZero.string_of_int (Z.to_int n).

Definition is_digit (c : ascii) : bool :=
  let n := nat_of_ascii c in (48 <=? n)%nat && (n <=? 57)%nat.

(** The characters [int] skips before and after the literal of an ASCII
    string: tab, line feed, vertical tab, form feed, carriage return and the
    space.  The separators [0x1c]-[0x1f] are not among them: [int] raises
    [ValueError] on a string that holds one. *)
Definition is_space (c : ascii) : bool :=
  let n := nat_of_ascii c in
  ((9 <=? n)%nat && (n <=? 13)%nat) || (n =? 32)%nat.

Fixpoint lstrip (s : string) : string :=
  match s with
  | String c r => if is_space c then lstrip r else s
  | EmptyString => EmptyString
  end.

Fixpoint rev (s : string) : string :=
  match s with
  | EmptyString => EmptyString
  | String c r => rev r +:+ String c EmptyString
  end.

Definition strip (s : string) : string := rev (lstrip (rev (lstrip s))).

(** The digit part of an integer literal: digits with single underscores
    between them.  Returns the digits with the underscores taken out. *)
Fixpoint digit_groups (s : string) (after_digit : bool) : option string :=
  match s with
  | EmptyString => if after_digit then Some EmptyString else None
  | String c r =>
      if is_digit c then String c <$> digit_groups r true
      else if Ascii.eqb c "_" then
        (if after_digit then digit_groups r false else None)
      else None
  end.

Definition nat_literal (s : string) : option Z :=
  ds ← digit_groups s false;
  Z.of_uint <$> NilEmpty.uint_of_string ds.

(** [int(s)] for a string [s], base 10: [None] stands for [ValueError]. *)
Definition int (s : string) : option Z :=
  match strip s with
  | String "+" r => nat_literal r
  | String "-" r => Z.opp <$> nat_literal r
  | t => nat_literal t
  end.

Definition startswith (s p : string) : bool := String.prefix p s.

Definition endswith (s p : string) : bool :=
  (String.length p <=? String.length s)%nat &&
  String.eqb (substring (String.length s - String.length p) (String.length p) s) p.

(** [s.replace(old, "")] for a non-empty [old]: every occurrence of [old],
    found from left to right without overlap, is removed.  [skip] counts the
    characters of the current occurrence still to be dropped. *)
Fixpoint remove_from (old s : string) (skip : nat) : string :=
  match s with
  | EmptyString => EmptyString
  | String c r =>
      match skip with
      | S k => remove_from old r k
      | O =>
          if String.prefix old s then remove_from old r (String.length old - 1)
          else String c (remove_from old r 0)
      end
  end.

Definition remove (s old : string) : string := remove_from old s 0.

(** [sub in s] for two strings. *)
Definition contains (s sub : string) : bool :=
  match String.index 0 sub s with Some _ => true | None => false end.

(** [sep.join(l)] *)
Definition join (sep : string) (l : list string) : string := String.concat sep l.

End PyStr.

(** ** The data model

    A year's data is the dictionary [load_data] builds: the keys below, each
    of which may be absent (the code reads several of them with [.get] and a
    fall-back, and creates ["payment_history"] when it is missing).  Values
    have the types the code gives them. *)

Record HistoryEntry := {
  timestamp : option string;
  member : option string;
  month : option string;
  action : option string;
  old_status : option bool;
  new_status : option bool
}.

Record Settings := {
  total_price : option float;
  max_slots : option Z
}.

Record YearRecord := {
  year : option Z;
  members : option (list string);
  payments : option (gmap string (gmap string bool));
  payment_history : option (list HistoryEntry);
  settings : option Settings;
  created_at : option string;
  updated_at : option string
}.

(** JSON values that are not objects.  An array is kept with its elements,
    which is all that [in] looks at. *)
#[warnings="-register-all"] Inductive json :=
| JNull
| JBool (b : bool)
| JInt (n : Z)
| JFloat (f : float)
| JStr (s : string)
| JList (l : list json).

(** What [json.load] can hand back for a year file, and what a backup can
    hold under a year key: a dictionary, or some other JSON value. *)
Inductive year_data :=
| YDict (r : YearRecord)
| YOther (v : json).

(** The backup bundle of [create_full_backup]; the dictionary under ["years"]
    keeps its insertion order, which [restore_from_backup] follows. *)
Inductive years_value :=
| YearsDict (entries : list (string * year_data))
| YearsOther (v : json).

Record Bundle := {
  backup_timestamp : option string;
  years : option years_value
}.

Inductive backup_doc :=
| BDict (b : Bundle)
| BOther (v : json).

(** A text is kept as what [json.loads] makes of it: not JSON at all, or the
    serialisation of a value.  [json.dumps] builds the latter. *)
Inductive text (A : Type) :=
| Garbled
| Dumped (v : A).
Arguments Garbled {A}.
Arguments Dumped {A} v.

(** A file of the data directory: bytes that are not UTF-8, or a text. *)
Inductive file :=
| Binary
| Utf8 (t : text year_data).

(** The data directory (file name to content) and the clock: [clock n] is
    the [n]-th value [datetime.now().isoformat()] returns, [tick] counts the
    readings made so far. *)
Record world := {
  files : gmap string file;
  clock : nat → string;
  tick : nat
}.

Definition set_files (f : gmap string file → gmap string file) (w : world) : world :=
  {| files := f (files w); clock := clock w; tick := tick w |}.

Definition set_members (v : option (list string)) (r : YearRecord) : YearRecord :=
  {| year := year r; members := v; payments := payments r;
     payment_history := payment_history r; settings := settings r;
     created_at := created_at r; updated_at := updated_at r |}.

Definition set_payments (v : option (gmap string (gmap string bool))) (r : YearRecord)
  : YearRecord :=
  {| year := year r; members := members r; payments := v;
     payment_history := payment_history r; settings := settings r;
     created_at := created_at r; updated_at := updated_at r |}.

Definition set_payment_history (v : option (list HistoryEntry)) (r : YearRecord)
  : YearRecord :=
  {| year := year r; members := members r; payments := payments r;
     payment_history := v; settings := settings r;
     created_at := created_at r; updated_at := updated_at r |}.

Definition set_settings (v : option Settings) (r : YearRecord) : YearRecord :=
  {| year := year r; members := members r; payments := payments r;
     payment_history := payment_history r; settings := v;
     created_at := created_at r; updated_at := updated_at r |}.

Definition set_updated_at (v : option string) (r : YearRecord) : YearRecord :=
  {| year := year r; members := members r; payments := payments r;
     payment_history := payment_history r; settings := settings r;
     created_at := created_at r; updated_at := v |}.

(** ** Exceptions and the monad of the methods *)

Inductive exn :=
| Exception
| KeyError
| TypeError
| AttributeError
| ValueError
| JSONDecodeError
| UnicodeDecodeError
| FileNotFoundError
| ZeroDivisionError.

#[global] Instance exn_eq_dec : EqDecision exn.
Proof. solve_decision. Defined.

(** [isinstance e c]: [JSONDecodeError] and [UnicodeDecodeError] derive from
    [ValueError], everything from [Exception]. *)
Definition isinstance (e c : exn) : bool :=
  match c with
  | Exception => true
  | ValueError =>
      bool_decide (e = ValueError ∨ e = JSONDecodeError ∨ e = UnicodeDecodeError)
  | _ => bool_decide (e = c)
  end.

Inductive outcome (A : Type) :=
| Returns (a : A) (w : world)
| Raises (e : exn) (w : world).
Arguments Returns {A} a w.
Arguments Raises {A} e w.

Definition M (A : Type) : Type := world → outcome A.

Definition ret {A} (a : A) : M A := λ w, Returns a w.

Definition raise {A} (e : exn) : M A := λ w, Raises e w.

Definition bind {A B} (m : M A) (k : A → M B) : M B :=
  λ w, match m w with
       | Returns a w' => k a w'
       | Raises e w' => Raises e w'
       end.

Declare Scope py_scope.
Delimit Scope py_scope with py.
Notation "x <- m ;; k" := (bind m (λ x, k))
  (at level 100, m at next level, right associativity) : py_scope.
Notation "m ;; k" := (bind m (λ _, k))
  (at level 100, right associativity) : py_scope.
Local Open Scope py_scope.

(** [try: m except (c1, ...) : h1 except ...]: the first clause with a class
    of the exception handles it. *)
Fixpoint handle {A} (clauses : list (list exn * (exn → M A))) (e : exn) : M A :=
  match clauses with
  | [] => raise e
  | (classes, h) :: rest =>
      if existsb (isinstance e) classes then h e else handle rest e
  end.

Definition try_except {A} (m : M A) (clauses : list (list exn * (exn → M A))) : M A :=
  λ w, match m w with
       | Returns a w' => Returns a w'
       | Raises e w' => handle clauses e w'
       end.

(** [for x in l: acc = body acc x] *)
Fixpoint for_each {A B} (l : list B) (body : A → B → M A) (acc : A) : M A :=
  match l with
  | [] => ret acc
  | x :: l' => acc' <- body acc x ;; for_each l' body acc'
  end.

(** [datetime.now().isoformat()] *)
Definition now : M string :=
  λ w, Returns (clock w (tick w))
               {| files := files w; clock := clock w; tick := S (tick w) |}.

(** ** Files and JSON *)

Definition json_dumps {A} (v : A) : text A := Dumped v.

Definition json_loads {A} (t : text A) : M A :=
  match t with
  | Dumped v => ret v
  | Garbled => raise JSONDecodeError
  end.

(** [os.path.exists(path)] *)
Definition path_exists (path : string) : M bool :=
  λ w, Returns (bool_decide (is_Some (files w !! path))) w.

(** [with open(path, 'r', encoding='utf-8') as f: json.load(f)] *)
Definition read_json (path : string) : M year_data :=
  λ w, match files w !! path with
       | None => Raises FileNotFoundError w
       | Some Binary => Raises UnicodeDecodeError w
       | Some (Utf8 t) => json_loads t w
       end.

(** [with open(path, 'w', encoding='utf-8') as f: json.dump(data, f, ...)];
    the directory is taken to be writable, so this does not raise. *)
Definition write_json (path : string) (data : year_data) : M unit :=
  λ w, Returns tt (set_files (<[path := Utf8 (json_dumps data)]>) w).

(** [os.listdir(data_dir)]; the order is the file system's. *)
Definition listdir : M (list string) :=
  λ w, Returns (elements (dom (files w))) w.

(** ** Dictionary access on loaded data *)

(** [data[key]] *)
Definition subscript {A} (field : YearRecord → option A) (data : year_data) : M A :=
  match data with
  | YDict r => match field r with Some v => ret v | None => raise KeyError end
  | YOther _ => raise TypeError
  end.

(** [data.get(key, default)] *)
Definition dict_get {A} (field : YearRecord → option A) (dflt : A) (data : year_data)
  : M A :=
  match data with
  | YDict r => ret (default dflt (field r))
  | YOther _ => raise AttributeError
  end.

(** [data[key] = v] *)
Definition setitem (set : YearRecord → YearRecord) (data : year_data) : M year_data :=
  match data with
  | YDict r => ret (YDict (set r))
  | YOther _ => raise TypeError
  end.

(** [d[k] = v] on a dictionary that keeps insertion order *)
Fixpoint odict_set {V} (k : string) (v : V) (d : list (string * V)) : list (string * V) :=
  match d with
  | [] => [(k, v)]
  | (k', v') :: d' =>
      if String.eqb k' k then (k, v) :: d' else (k', v') :: odict_set k v d'
  end.

(** [key in data] *)
Definition is_str (key : string) (v : json) : bool :=
  match v with JStr s => String.eqb s key | _ => false end.

Definition json_contains (key : string) (v : json) : M bool :=
  match v with
  | JList l => ret (existsb (is_str key) l)
  | JStr s => ret (PyStr.contains s key)
  | _ => raise TypeError
  end.

Definition has_key {A} (key : string) (field : YearRecord → option A) (data : year_data)
  : M bool :=
  match data with
  | YDict r => ret (bool_decide (is_Some (field r)))
  | YOther v => json_contains key v
  end.

(** [l.remove(x)] once [x in l] is known: the first occurrence goes. *)
Fixpoint remove_first (x : string) (l : list string) : list string :=
  match l with
  | [] => []
  | y :: l' => if String.eqb y x then l' else y :: remove_first x l'
  end.

(** ** The record store *)

Definition get_data_file_path (year : Z) : string :=
  "subscription_data_" +:+ PyStr.str year +:+ ".json".

Definition default_settings : Settings :=
  {| total_price := Some 100%float; max_slots := Some 10 |}.

Definition load_data (year : Z) : M year_data :=
  let file_path := get_data_file_path year in
  present <- path_exists file_path ;;
  loaded <- (if (present : bool)
             then try_except (v <- read_json file_path ;; ret (Some v))
                    [([JSONDecodeError; FileNotFoundError], λ _, ret None)]
             else ret None) ;;
  match loaded with
  | Some v => ret v
  | None =>
      created <- now ;;
      updated <- now ;;
      ret (YDict {| year := Some year;
                    members := Some [];
                    payments := Some ∅;
                    payment_history := Some [];
                    settings := Some default_settings;
                    created_at := Some created;
                    updated_at := Some updated |})
  end.

Definition save_data (year : Z) (data : year_data) : M unit :=
  let file_path := get_data_file_path year in
  stamp <- now ;;
  data <- setitem (set_updated_at (Some stamp)) data ;;
  try_except (write_json file_path data) [([Exception], λ _, ret tt)].

(** [int(year_str)] *)
Definition py_int (s : string) : M Z :=
  match PyStr.int s with
  | Some n => ret n
  | None => raise ValueError
  end.

Definition insert_sorted (n : Z) : list Z → list Z :=
  fix go (l : list Z) : list Z :=
    match l with
    | [] => [n]
    | m :: l' => if (n <=? m)%Z then n :: l else m :: go l'
    end.

(** [sorted(years)] for integers *)
Definition sorted_ints (l : list Z) : list Z := foldr insert_sorted [] l.

Definition get_available_years : M (list Z) :=
  names <- listdir ;;
  years <- for_each names
    (λ years filename,
       if PyStr.startswith filename "subscription_data_" && PyStr.endswith filename ".json"
       then
         try_except
           (let year_str := PyStr.remove (PyStr.remove filename "subscription_data_") ".json" in
            year <- py_int year_str ;;
            ret (years ++ [year]))
           [([ValueError], λ _, ret years)]
       else ret years)
    [] ;;
  ret (sorted_ints years).

(** [save_data] assigns ["updated_at"] into the dictionary it is given, which
    is the caller's: this is [save_data] returning that dictionary as the
    caller sees it afterwards. *)
Definition save_data_in_place (year : Z) (data : year_data) : M year_data :=
  let file_path := get_data_file_path year in
  stamp <- now ;;
  data <- setitem (set_updated_at (Some stamp)) data ;;
  try_except (write_json file_path data) [([Exception], λ _, ret tt)] ;;
  ret data.

Definition create_year_data (year : Z) : M year_data :=
  data <- load_data year ;;
  data <- save_data_in_place year data ;;
  ret data.

(** ** Ledger operations *)

Definition copy_members_from_year (source_year target_year : Z) : M unit :=
  source_data <- load_data source_year ;;
  target_data <- load_data target_year ;;
  copied <- dict_get members [] source_data ;;
  target_data <- setitem (set_members (Some copied)) target_data ;;
  target_data <- setitem (set_payments (Some ∅)) target_data ;;
  ms <- subscript members target_data ;;
  let emptied := foldl (λ ps name, <[name := ∅]> ps) (∅ : gmap string (gmap string bool)) ms in
  target_data <- setitem (set_payments (Some emptied)) target_data ;;
  save_data target_year target_data.

Definition add_member (year : Z) (member_name : string) : M unit :=
  data <- load_data year ;;
  ms <- subscript members data ;;
  if bool_decide (member_name ∈ ms) then ret tt
  else
    data <- setitem (set_members (Some (ms ++ [member_name]))) data ;;
    ps <- subscript payments data ;;
    data <- setitem (set_payments (Some (<[member_name := ∅]> ps))) data ;;
    save_data year data.

Definition remove_member (year : Z) (member_name : string) : M unit :=
  data <- load_data year ;;
  ms <- subscript members data ;;
  if bool_decide (member_name ∈ ms) then
    data <- setitem (set_members (Some (remove_first member_name ms))) data ;;
    ps <- subscript payments data ;;
    data <- (if bool_decide (member_name ∈ dom ps)
             then setitem (set_payments (Some (delete member_name ps))) data
             else ret data) ;;
    save_data year data
  else ret tt.

Definition action_of (paid : bool) : string :=
  if paid then "marked_paid" else "marked_unpaid".

Definition update_payment (year : Z) (member_name month : string) (paid : bool) : M unit :=
  data <- load_data year ;;
  ps <- subscript payments data ;;
  let ps := if bool_decide (member_name ∈ dom ps) then ps else <[member_name := ∅]> ps in
  let member_payments := default ∅ (ps !! member_name) in
  let old_status := default false (member_payments !! month) in
  data <- (if bool_decide (old_status ≠ paid) then
             present <- has_key "payment_history" payment_history data ;;
             data <- (if (present : bool) then ret data
                      else setitem (set_payment_history (Some [])) data) ;;
             stamp <- now ;;
             let history_entry :=
               {| timestamp := Some stamp;
                  member := Some member_name;
                  month := Some month;
                  action := Some (action_of paid);
                  old_status := Some old_status;
                  new_status := Some paid |} in
             history <- subscript payment_history data ;;
             setitem (set_payment_history (Some (history ++ [history_entry]))) data
           else ret data) ;;
  data <- setitem
            (set_payments (Some (<[member_name := <[month := paid]> member_payments]> ps)))
            data ;;
  save_data year data.

Definition update_settings (year : Z) (price : float) (slots : Z) : M unit :=
  data <- load_data year ;;
  s <- subscript settings data ;;
  let s := {| total_price := Some price; max_slots := max_slots s |} in
  let s := {| total_price := total_price s; max_slots := Some slots |} in
  data <- setitem (set_settings (Some s)) data ;;
  save_data year data.

Definition get_member_payments (year : Z) (member_name : string) : M (gmap string bool) :=
  data <- load_data year ;;
  ps <- dict_get payments ∅ data ;;
  ret (default ∅ (ps !! member_name)).

Definition bulk_update_payments (year : Z) (member_name : string) (months : list string)
    (paid : bool) : M unit :=
  data <- load_data year ;;
  ps <- subscript payments data ;;
  let ps := if bool_decide (member_name ∈ dom ps) then ps else <[member_name := ∅]> ps in
  let ps := foldl (λ ps month,
                     <[member_name := <[month := paid]> (default ∅ (ps !! member_name))]> ps)
                  ps months in
  data <- setitem (set_payments (Some ps)) data ;;
  save_data year data.

(** [bool(x)] for an optional string and an optional integer: [None], the
    empty string and zero are false. *)
Definition truthy_str (s : option string) : bool :=
  match s with Some s => negb (String.eqb s "") | None => false end.

Definition truthy_int (n : option Z) : bool :=
  match n with Some n => negb (n =? 0) | None => false end.

(** [l[:n]]: a negative [n] counts from the end. *)
Definition slice_to {A} (n : Z) (l : list A) : list A :=
  if (0 <=? n)%Z then take (Z.to_nat n) l
  else take (length l - Z.to_nat (- n)) l.

Definition sort_key (h : HistoryEntry) : string := default "" (timestamp h).

(** [sorted(history, key=..., reverse=True)]: descending keys, entries with
    equal keys in their original order. *)
Definition insert_desc (h : HistoryEntry) : list HistoryEntry → list HistoryEntry :=
  fix go (l : list HistoryEntry) : list HistoryEntry :=
    match l with
    | [] => [h]
    | h' :: l' =>
        if String.ltb (sort_key h) (sort_key h') then h' :: go l' else h :: l
    end.

Definition sorted_desc (l : list HistoryEntry) : list HistoryEntry :=
  foldr insert_desc [] l.

Definition member_is (name : option string) (h : HistoryEntry) : bool :=
  bool_decide (member h = name).

Definition get_payment_history (year : Z) (member_name : option string) (limit : option Z)
  : M (list HistoryEntry) :=
  data <- load_data year ;;
  history <- dict_get payment_history [] data ;;
  let history :=
    if truthy_str member_name then List.filter (member_is member_name) history
    else history in
  let history := sorted_desc history in
  let history := if truthy_int limit then slice_to (default 0 limit) history else history in
  ret history.

(** ** Summary *)

Inductive num :=
| NInt (n : Z)
| NFloat (f : float).

Record Summary := {
  total_members : num;
  total_possible_amount : num;
  total_paid_amount : num;
  total_outstanding_amount : num;
  overall_payment_rate : num
}.

(** The conversion Python applies to an [int] met by a [float]; exact up to
    [2^53] and rounded to nearest beyond, for the non-negative integers below
    [2^63] that occur here. *)
Definition float_of_int (n : Z) : float := PrimFloat.of_uint63 (Uint63.of_Z n).

Definition to_float (x : num) : float :=
  match x with NInt n => float_of_int n | NFloat f => f end.

(** [x / y] on floats *)
Definition truediv (x y : float) : M float :=
  if PrimFloat.eqb y 0%float then raise ZeroDivisionError else ret (x / y)%float.

Definition month_codes : list string :=
  ["Jan"; "Feb"; "Mar"; "Apr"; "May"; "Jun"; "Jul"; "Aug"; "Sep"; "Oct"; "Nov"; "Dec"].

(** [sum(1 for month in months if member_payments.get(month, False))] *)
Definition months_paid (member_payments : gmap string bool) : Z :=
  Z.of_nat (length (List.filter (λ m, default false (member_payments !! m)) month_codes)).

Definition get_payment_summary (year : Z) : M Summary :=
  data <- load_data year ;;
  ms <- dict_get members [] data ;;
  ps <- dict_get payments ∅ data ;;
  s <- dict_get settings default_settings data ;;
  match ms with
  | [] =>
      ret {| total_members := NInt 0;
             total_possible_amount := NInt 0;
             total_paid_amount := NInt 0;
             total_outstanding_amount := NInt 0;
             overall_payment_rate := NInt 0 |}
  | _ =>
      let count := Z.of_nat (length ms) in
      price <- (match total_price s with Some p => ret p | None => raise KeyError end) ;;
      price_per_slot <- truediv price (float_of_int count) ;;
      let total_possible := (float_of_int (count * 12) * price_per_slot)%float in
      let total_paid :=
        foldl (λ paid name,
                 let member_payments := default ∅ (ps !! name) in
                 NFloat (to_float paid
                         + float_of_int (months_paid member_payments) * price_per_slot)%float)
              (NInt 0) ms in
      rate <- (if PrimFloat.ltb 0%float total_possible
               then q <- truediv (to_float total_paid) total_possible ;;
                    ret (NFloat (q * 100)%float)
               else ret (NInt 0)) ;;
      ret {| total_members := NInt count;
             total_possible_amount := NFloat total_possible;
             total_paid_amount := total_paid;
             total_outstanding_amount := NFloat (total_possible - to_float total_paid)%float;
             overall_payment_rate := rate |}
  end.

(** ** Backup and restore *)

Definition create_full_backup : M (text backup_doc) :=
  stamp <- now ;;
  available <- get_available_years ;;
  entries <- for_each available
    (λ entries year, data <- load_data year ;; ret (odict_set (PyStr.str year) data entries))
    [] ;;
  ret (json_dumps (BDict {| backup_timestamp := Some stamp;
                            years := Some (YearsDict entries) |})).

(** ["years" in backup_data] *)
Definition has_years (backup_data : backup_doc) : M bool :=
  match backup_data with
  | BDict b => ret (bool_decide (is_Some (years b)))
  | BOther v => json_contains "years" v
  end.

(** [backup_data["years"]] *)
Definition subscript_years (backup_data : backup_doc) : M years_value :=
  match backup_data with
  | BDict b => match years b with Some ys => ret ys | None => raise KeyError end
  | BOther _ => raise TypeError
  end.

(** [ys.items()] *)
Definition items (ys : years_value) : M (list (string * year_data)) :=
  match ys with
  | YearsDict entries => ret entries
  | YearsOther _ => raise AttributeError
  end.

Definition restored_message (restored_years : list Z) : string :=
  "Successfully restored " +:+ PyStr.str (Z.of_nat (length restored_years))
  +:+ " year(s): " +:+ PyStr.join ", " (PyStr.str <$> restored_years).

(** The body of the loop over the entries of the backup: the year key is
    coerced and the record saved; [ValueError] and [KeyError] skip the entry. *)
Definition restore_entry (restored_years : list Z) (entry : string * year_data)
  : M (list Z) :=
  try_except
    (year <- py_int entry.1 ;;
     save_data year entry.2 ;;
     ret (restored_years ++ [year]))
    [([ValueError; KeyError], λ _, ret restored_years)].

Section Restore.

(** [str(e)] for an exception raised by the interpreter. *)
Variable exn_text : exn → string.

Definition restore_from_backup (backup_json : text backup_doc) : M (bool * string) :=
  try_except
    (backup_data <- json_loads backup_json ;;
     present <- has_years backup_data ;;
     if negb present then ret (false, "Invalid backup format: missing 'years' key")
     else
       ys <- subscript_years backup_data ;;
       entries <- items ys ;;
       restored_years <- for_each entries restore_entry [] ;;
       match restored_years with
       | _ :: _ => ret (true, restored_message restored_years)
       | [] => ret (false, "No valid year data found in backup")
       end)
    [([JSONDecodeError], λ _, ret (false, "Invalid JSON format"));
     ([Exception], λ e, ret (false, "Error during restore: " +:+ exn_text e))].

End Restore.

(** ** Utilities ([src/utils.py]) *)

Module Utils.

Record MemberSummary := {
  months_paid : Z;
  months_unpaid : Z;
  amount_paid : float;
  amount_owed : float;
  payment_rate : num
}.

Definition calculate_member_summary (member_payments : gmap string bool)
    (price_per_slot : float) : MemberSummary :=
  let months := month_codes in
  let paid :=
    Z.of_nat (length (List.filter (λ m, default false (member_payments !! m)) months)) in
  let unpaid := 12 - paid in
  {| months_paid := paid;
     months_unpaid := unpaid;
     amount_paid := (float_of_int paid * price_per_slot)%float;
     amount_owed := (float_of_int unpaid * price_per_slot)%float;
     payment_rate :=
       if (0 <? paid)%Z
       then NFloat (float_of_int paid / float_of_int 12 * 100)%float
       else NInt 0 |}.

Definition month_numbers : gmap string Z :=
  list_to_map [("Jan", 1); ("Feb", 2); ("Mar", 3); ("Apr", 4);
               ("May", 5); ("Jun", 6); ("Jul", 7); ("Aug", 8);
               ("Sep", 9); ("Oct", 10); ("Nov", 11); ("Dec", 12)].

Definition get_month_number (month_name : string) : Z :=
  default 1 (month_numbers !! month_name).

Definition get_month_name (month_number : Z) : string :=
  if (1 <=? month_number)%Z && (month_number <=? 12)%Z
  then nth (Z.to_nat (month_number - 1)) month_codes "Jan"
  else "Jan".

(** [l.index(x)]: the first position of [x], [None] for [ValueError]. *)
Fixpoint list_index (x : string) (l : list string) : option nat :=
  match l with
  | [] => None
  | y :: l' => if String.eqb y x then Some 0%nat else S <$> list_index x l'
  end.

Definition calculate_bulk_payment_months (start_month : string) (num_months : Z)
  : list string :=
  let months := month_codes in
  let start_idx := match list_index start_month months with
                   | Some i => i
                   | None => 0%nat
                   end in
  (λ i, nth ((start_idx + i) mod 12) months "") <$> seq 0 (Z.to_nat num_months).

End Utils.

(** ** The bulk registration of the payments tab ([src/app.py])

    The handler of the "Register Bulk Payment" button, without its messages:
    [update_payment] for [bulk_months] months from [start_month] on, wrapping
    after December. *)
Definition register_bulk_payment (selected_year : Z) (bulk_member : string)
    (bulk_months : Z) (start_month : string) : M unit :=
  let months := month_codes in
  start_idx <- (match Utils.list_index start_month months with
                | Some i => ret i
                | None => raise ValueError
                end) ;;
  for_each (seq 0 (Z.to_nat bulk_months))
    (λ _ i,
       let month_idx := ((start_idx + i) mod 12)%nat in
       let month := nth month_idx months "" in
       update_payment selected_year bulk_member month true)
    tt.

(** * Vocabulary of the properties

    Observations on records and worlds, the pure counterparts of the loops,
    and the values of the examples, used to state the properties below. *)

(** ** Worlds and records *)

(** The world [n] clock readings later. *)
Definition advance (n : nat) (w : world) : world :=
  {| files := files w; clock := clock w; tick := n + tick w |}.

(** The dictionary [load_data] builds when there is nothing to read. *)
Definition default_record (year : Z) (created updated : string) : YearRecord :=
  {| year := Some year;
     members := Some [];
     payments := Some ∅;
     payment_history := Some [];
     settings := Some default_settings;
     created_at := Some created;
     updated_at := Some updated |}.

(** The world after a successful [save_data]. *)
Definition saved (year : Z) (r : YearRecord) (w : world) : world :=
  {| files := <[get_data_file_path year :=
                  Utf8 (Dumped (YDict (set_updated_at (Some (clock w (tick w))) r)))]>
                (files w);
     clock := clock w;
     tick := S (tick w) |}.

(** The structured fields of a record. *)
Definition fields (r : YearRecord)
  : option (list string) * option (gmap string (gmap string bool))
    * option (list HistoryEntry) * option Settings :=
  (members r, payments r, payment_history r, settings r).

(** A directory every file of which [load_data] can turn into a dictionary:
    each file is a text, and a text that is JSON holds an object. *)
Definition readable (fs : gmap string file) : Prop :=
  ∀ p f, fs !! p = Some f → f = Utf8 Garbled ∨ ∃ r, f = Utf8 (Dumped (YDict r)).

(** ** Flags and history *)

(** The flag stored for a member and a month, if any. *)
Definition stored_flag (r : YearRecord) (name mo : string) : option bool :=
  ps ← payments r; mp ← ps !! name; mp !! mo.

(** The history of a record; a record without the key has none. *)
Definition history_of (r : YearRecord) : list HistoryEntry :=
  default [] (payment_history r).

(** The history entry of a change from [old] to [paid]. *)
Definition change_entry (stamp name mo : string) (old paid : bool) : HistoryEntry :=
  {| timestamp := Some stamp;
     member := Some name;
     month := Some mo;
     action := Some (if paid then "marked_paid" else "marked_unpaid");
     old_status := Some old;
     new_status := Some paid |}.

(** The payments mapping after [payments[name][mo] = paid]. *)
Definition with_flag (name mo : string) (paid : bool) (ps : gmap string (gmap string bool))
  : gmap string (gmap string bool) :=
  <[name := <[mo := paid]> (default ∅ (ps !! name))]> ps.

(** The record [update_payment] saves: [stamp] is the clock reading taken
    when the flag changes. *)
Definition paid_record (name mo : string) (paid : bool) (stamp : string)
    (ps : gmap string (gmap string bool)) (r : YearRecord) : YearRecord :=
  let old := default false (default ∅ (ps !! name) !! mo) in
  let r' := if bool_decide (old ≠ paid)
            then set_payment_history
                   (Some (history_of r ++ [change_entry stamp name mo old paid])) r
            else r in
  set_payments (Some (with_flag name mo paid ps)) r'.

(** The payments mapping [bulk_update_payments] saves. *)
Definition bulk_flags (name : string) (months : list string) (paid : bool)
    (ps : gmap string (gmap string bool)) : gmap string (gmap string bool) :=
  foldl (λ ps mo, with_flag name mo paid ps)
        (if bool_decide (name ∈ dom ps) then ps else <[name := ∅]> ps) months.

(** The behaviour asked of the bulk path, in the specification's words:
    [update_payment] for each month, in order. *)
Definition bulk_by_update_payment (year : Z) (name : string) (months : list string)
    (paid : bool) : M unit :=
  for_each months (λ _ mo, update_payment year name mo paid) tt.

(** The number of history entries [update_payment] appends when it is called
    for each month in turn. *)
Fixpoint changes (name : string) (paid : bool) (months : list string)
    (ps : gmap string (gmap string bool)) : nat :=
  match months with
  | [] => 0
  | mo :: months' =>
      ((if bool_decide (default false (default ∅ (ps !! name) !! mo) ≠ paid) then 1 else 0)
       + changes name paid months' (with_flag name mo paid ps))%nat
  end.

(** One empty payments entry per copied member, as the loop of
    [copy_members_from_year] builds them. *)
Definition emptied (ms : list string) : gmap string (gmap string bool) :=
  foldl (λ ps name, <[name := ∅]> ps) ∅ ms.

(** The entries [get_payment_history] keeps before sorting. *)
Definition selected (name : option string) (history : list HistoryEntry)
  : list HistoryEntry :=
  if truthy_str name then List.filter (member_is name) history else history.

(** In the sorted history no entry is followed by one with a greater key. *)
Definition not_before (h h' : HistoryEntry) : Prop :=
  String.ltb (sort_key h) (sort_key h') = false.

(** A computation that leaves a readable directory readable, whether it
    returns or raises. *)
Definition keeps_readable {A} (m : M A) : Prop :=
  ∀ w, readable (files w) →
    match m w with
    | Returns _ w' => readable (files w')
    | Raises _ w' => readable (files w')
    end.

(** The entries of a history that carry a given timestamp, in order. *)
Definition with_key (k : string) (l : list HistoryEntry) : list HistoryEntry :=
  List.filter (λ h, String.eqb (sort_key h) k) l.

(** A computation that leaves the files of the directory as they are,
    whether it returns or raises. *)
Definition leaves_files {A} (m : M A) : Prop :=
  ∀ w, match m w with
       | Returns _ w' => files w' = files w
       | Raises _ w' => files w' = files w
       end.

(** What a computation returns or raises, without the world. *)
Definition result_of {A} (o : outcome A) : exn + A :=
  match o with
  | Returns a _ => inr a
  | Raises e _ => inl e
  end.

(** ** Entries of a backup *)

(** An entry the loop can deal with: its key is no year, or its value is a
    dictionary. *)
Definition entry_ok (e : string * year_data) : Prop :=
  PyStr.int e.1 = None ∨ ∃ r, e.2 = YDict r.

(** The years of the entries whose key is a year, in order. *)
Definition year_keys (entries : list (string * year_data)) : list Z :=
  omap (λ e, PyStr.int e.1) entries.

(** The directory after the loop has saved the entries. *)
Fixpoint restored_world (entries : list (string * year_data)) (w : world) : world :=
  match entries with
  | [] => w
  | (k, d) :: rest =>
      match PyStr.int k, d with
      | Some y, YDict r => restored_world rest (saved y r w)
      | _, _ => restored_world rest w
      end
  end.

(** The record of the last entry for a year. *)
Fixpoint last_record (y : Z) (entries : list (string * year_data)) : option YearRecord :=
  match entries with
  | [] => None
  | (k, d) :: rest =>
      match last_record y rest with
      | Some r => Some r
      | None =>
          match d with
          | YDict r => if bool_decide (PyStr.int k = Some y) then Some r else None
          | YOther _ => None
          end
      end
  end.

(** ** File names *)

(** The year [get_available_years] reads off a file name, if any. *)
Definition year_of_filename (filename : string) : option Z :=
  if PyStr.startswith filename "subscription_data_" && PyStr.endswith filename ".json"
  then PyStr.int (PyStr.remove (PyStr.remove filename "subscription_data_") ".json")
  else None.

(** Strings made of decimal digits only. *)
Fixpoint all_digits (s : string) : bool :=
  match s with
  | EmptyString => true
  | String c r => PyStr.is_digit c && all_digits r
  end.

(** Strings made of digits and minus signs, as [str] of an integer is. *)
Fixpoint plain (s : string) : bool :=
  match s with
  | EmptyString => true
  | String c r => (PyStr.is_digit c || Ascii.eqb c "-") && plain r
  end.

(** ** Example values *)

(** A clock whose [n]-th reading is ["t"] followed by [n]. *)
Definition example_clock (n : nat) : string := "t" +:+ PyStr.str (Z.of_nat n).

(** An empty data directory. *)
Definition empty_world : world :=
  {| files := ∅; clock := example_clock; tick := 0 |}.

(** A data directory whose file for 2024 holds bytes that are not UTF-8. *)
Definition undecodable_world : world :=
  {| files := {[get_data_file_path 2024 := Binary]}; clock := example_clock; tick := 0 |}.

(** A record of 2024 in which Alice is a member. *)
Definition alice_record : YearRecord :=
  {| year := Some 2024;
     members := Some ["Alice"];
     payments := Some {["Alice" := ∅]};
     payment_history := Some [];
     settings := Some default_settings;
     created_at := Some "t0";
     updated_at := Some "t2" |}.

(** The directory holding that record. *)
Definition alice_world : world :=
  {| files := {[get_data_file_path 2024 := Utf8 (Dumped (YDict alice_record))]};
     clock := example_clock;
     tick := 3 |}.

(** A record of 2024 in which Alice has paid January. *)
Definition alice_paid_record : YearRecord :=
  {| year := Some 2024;
     members := Some ["Alice"];
     payments := Some {["Alice" := {["Jan" := true]}]};
     payment_history := Some [change_entry "t3" "Alice" "Jan" false true];
     settings := Some default_settings;
     created_at := Some "t0";
     updated_at := Some "t4" |}.

(** The directory holding that record. *)
Definition alice_paid_world : world :=
  {| files := {[get_data_file_path 2024 := Utf8 (Dumped (YDict alice_paid_record))]};
     clock := example_clock;
     tick := 5 |}.

(** The scenario of the specification: Alice and Bob share 2024 at a total
    price of 100, and Alice has paid January to March. *)
Definition scenario_record : YearRecord :=
  {| year := Some 2024;
     members := Some ["Alice"; "Bob"];
     payments := Some {["Alice" := {["Jan" := true; "Feb" := true; "Mar" := true]};
                        "Bob" := ∅]};
     payment_history := Some [];
     settings := Some default_settings;
     created_at := Some "t0";
     updated_at := Some "t9" |}.

(** The directory holding that record. *)
Definition scenario_world : world :=
  {| files := {[get_data_file_path 2024 := Utf8 (Dumped (YDict scenario_record))]};
     clock := example_clock;
     tick := 10 |}.

(** A dictionary of 2024 that holds nothing but its stamp, as a restored
    backup can leave one. *)
Definition bare_record : YearRecord :=
  {| year := None;
     members := None;
     payments := None;
     payment_history := None;
     settings := None;
     created_at := None;
     updated_at := Some "t1" |}.

(** The directory holding that dictionary. *)
Definition bare_world : world :=
  {| files := {[get_data_file_path 2024 := Utf8 (Dumped (YDict bare_record))]};
     clock := example_clock;
     tick := 2 |}.

(** Alice's record with settings that lack the price, as a restored backup
    can leave them. *)
Definition unpriced_record : YearRecord :=
  set_settings (Some {| total_price := None; max_slots := Some 10 |}) alice_record.

(** The directory holding that record. *)
Definition unpriced_world : world :=
  {| files := {[get_data_file_path 2024 := Utf8 (Dumped (YDict unpriced_record))]};
     clock := example_clock;
     tick := 3 |}.

(** The scenario's record with flags stored for Mallory, who is no member,
    and for Alice under a key that is no month code. *)
Definition scenario_record_with_strays : YearRecord :=
  set_payments
    (Some {["Alice" := {["Jan" := true; "Feb" := true; "Mar" := true; "Smarch" := true]};
            "Bob" := ∅;
            "Mallory" := {["Jan" := true]}]})
    scenario_record.

(** The directory holding that record. *)
Definition scenario_world_with_strays : world :=
  {| files := {[get_data_file_path 2024
                  := Utf8 (Dumped (YDict scenario_record_with_strays))]};
     clock := example_clock;
     tick := 10 |}.

(** The text [str(e)] gives for the [TypeError] of an assignment into a
    list; other exceptions are given no text here. *)
Definition example_exn_text (e : exn) : string :=
  match e with
  | TypeError => "list indices must be integers or slices, not str"
  | _ => ""
  end.

(** A data directory whose file for 2023 holds a JSON array and whose file
    for 2024 holds the record in which Alice has paid January. *)
Definition array_world : world :=
  {| files := {[get_data_file_path 2023 := Utf8 (Dumped (YOther (JList [])));
                get_data_file_path 2024 := Utf8 (Dumped (YDict alice_paid_record))]};
     clock := example_clock;
     tick := 5 |}.

(** The text [str(e)] gives for the [TypeError] of a membership test on
    [None]. *)
Definition membership_exn_text (e : exn) : string :=
  match e with
  | TypeError => "argument of type 'NoneType' is not iterable"
  | _ => ""
  end.

(** A backup whose first year holds a record and whose second holds an
    array. *)
Definition broken_backup : text backup_doc :=
  Dumped (BDict {| backup_timestamp := Some "t9";
                   years := Some (YearsDict [("2023", YDict alice_record);
                                             ("2024", YOther (JList []))]) |}).

(** A backup with a key that is no year between two that are. *)
Definition mixed_entries : list (string * year_data) :=
  [("2023", YDict alice_record); ("latest", YOther JNull); ("2024", YDict alice_paid_record)].

(** * Properties *)

(** ** Sample values of the string functions *)

Example str_2024 : PyStr.str 2024 = "2024". Proof. reflexivity. Qed.
Example str_neg : PyStr.str (-5) = "-5". Proof. reflexivity. Qed.
Example str_zero : PyStr.str 0 = "0". Proof. reflexivity. Qed.
Example int_plain : PyStr.int "2024" = Some 2024. Proof. reflexivity. Qed.
Example int_spaces : PyStr.int (String "009" (String "010" " 2024 ")) = Some 2024.
Proof. reflexivity. Qed.
Example int_separator_before : PyStr.int (String "031" "2024") = None.
Proof. reflexivity. Qed.
Example int_separator_after : PyStr.int ("2024" +:+ String "028" "") = None.
Proof. reflexivity. Qed.
Example int_padded : PyStr.int " +2_024 " = Some 2024. Proof. reflexivity. Qed.
Example int_leading_zero : PyStr.int "-007" = Some (-7). Proof. reflexivity. Qed.
Example int_empty : PyStr.int "" = None. Proof. reflexivity. Qed.
Example int_word : PyStr.int "latest" = None. Proof. reflexivity. Qed.
Example int_double_underscore : PyStr.int "1__0" = None. Proof. reflexivity. Qed.
Example int_trailing_underscore : PyStr.int "10_" = None. Proof. reflexivity. Qed.
Example int_decimal_point : PyStr.int "2024.5" = None. Proof. reflexivity. Qed.
Example remove_twice :
  PyStr.remove "subscription_data_x.json.json" ".json" = "subscription_data_x".
Proof. reflexivity. Qed.
Example endswith_json : PyStr.endswith "subscription_data_2024.json" ".json" = true.
Proof. reflexivity. Qed.
Example endswith_short : PyStr.endswith "json" ".json" = false.
Proof. reflexivity. Qed.

(** ** Running the monad *)

Arguments get_data_file_path : simpl never.

Ltac step := cbv beta iota.

Lemma bind_returns {A B} (m : M A) (k : A → M B) w a w' :
  m w = Returns a w' → bind m k w = k a w'.
Proof. intros Hm. unfold bind. by rewrite Hm. Qed.

Lemma for_each_cons {A B} (x : B) (l : list B) (body : A → B → M A) acc w :
  for_each (x :: l) body acc w =
    match body acc x w with
    | Returns acc' w' => for_each l body acc' w'
    | Raises e w' => Raises e w'
    end.
Proof. reflexivity. Qed.

(** ** What [load_data] and [save_data] do to the world *)

Lemma load_data_missing year w :
  files w !! get_data_file_path year = None →
  load_data year w =
    Returns (YDict (default_record year (clock w (tick w)) (clock w (S (tick w)))))
            (advance 2 w).
Proof.
  intros Hnone. unfold load_data, bind, path_exists. step. rewrite Hnone.
  rewrite bool_decide_eq_false_2 by (intros [? ?]; discriminate).
  reflexivity.
Qed.

Lemma load_data_garbled year w :
  files w !! get_data_file_path year = Some (Utf8 Garbled) →
  load_data year w =
    Returns (YDict (default_record year (clock w (tick w)) (clock w (S (tick w)))))
            (advance 2 w).
Proof.
  intros Hfile. unfold load_data, bind, path_exists, try_except, read_json. step.
  rewrite !Hfile. rewrite bool_decide_eq_true_2 by eauto. step. rewrite Hfile.
  reflexivity.
Qed.

Lemma load_data_dumped year w v :
  files w !! get_data_file_path year = Some (Utf8 (Dumped v)) →
  load_data year w = Returns v w.
Proof.
  intros Hfile. unfold load_data, bind, path_exists, try_except, read_json. step.
  rewrite !Hfile. rewrite bool_decide_eq_true_2 by eauto. step. rewrite Hfile.
  reflexivity.
Qed.

Lemma load_data_binary year w :
  files w !! get_data_file_path year = Some Binary →
  load_data year w = Raises UnicodeDecodeError w.
Proof.
  intros Hfile. unfold load_data, bind, path_exists, try_except, read_json. step.
  rewrite !Hfile. rewrite bool_decide_eq_true_2 by eauto. step. rewrite Hfile.
  reflexivity.
Qed.

(** Every outcome of [load_data], by the state of the year's file. *)
Lemma load_data_cases year w :
  (∃ c u, load_data year w = Returns (YDict (default_record year c u)) (advance 2 w)
          ∧ (files w !! get_data_file_path year = None
             ∨ files w !! get_data_file_path year = Some (Utf8 Garbled)))
  ∨ (∃ v, load_data year w = Returns v w
          ∧ files w !! get_data_file_path year = Some (Utf8 (Dumped v)))
  ∨ (load_data year w = Raises UnicodeDecodeError w
     ∧ files w !! get_data_file_path year = Some Binary).
Proof.
  destruct (files w !! get_data_file_path year) as [[|[|v]]|] eqn:Hfile.
  - right; right. split; [by apply load_data_binary | done].
  - left. eexists _, _. split; [by apply load_data_garbled | by right].
  - right; left. exists v. split; [by apply load_data_dumped | done].
  - left. eexists _, _. split; [by apply load_data_missing | by left].
Qed.

Lemma save_data_dict year r w :
  save_data year (YDict r) w = Returns tt (saved year r w).
Proof. reflexivity. Qed.

Lemma save_data_other year v w :
  save_data year (YOther v) w = Raises TypeError (advance 1 w).
Proof. reflexivity. Qed.

Lemma load_data_saved year r w :
  load_data year (saved year r w) =
    Returns (YDict (set_updated_at (Some (clock w (tick w))) r)) (saved year r w).
Proof. apply load_data_dumped. simpl. by rewrite lookup_insert_eq. Qed.

(** ** Payment flags and history *)

Lemma ensure_member_lookup name (ps : gmap string (gmap string bool)) :
  default ∅ ((if bool_decide (name ∈ dom ps) then ps else <[name := ∅]> ps) !! name)
  = default ∅ (ps !! name).
Proof.
  case_bool_decide as Hin; [done |].
  rewrite lookup_insert_eq. apply not_elem_of_dom in Hin. by rewrite Hin.
Qed.

Lemma ensure_member_insert name (mp : gmap string bool) (ps : gmap string (gmap string bool)) :
  <[name := mp]> (if bool_decide (name ∈ dom ps) then ps else <[name := ∅]> ps)
  = <[name := mp]> ps.
Proof. case_bool_decide; [done | by rewrite insert_insert_eq]. Qed.

Lemma update_payment_run year name mo paid w r w1 ps :
  load_data year w = Returns (YDict r) w1 →
  payments r = Some ps →
  update_payment year name mo paid w =
    Returns tt
      (saved year (paid_record name mo paid (clock w1 (tick w1)) ps r)
         (if bool_decide (default false (default ∅ (ps !! name) !! mo) ≠ paid)
          then advance 1 w1 else w1)).
Proof.
  intros Hload Hps. unfold update_payment, bind. rewrite Hload. step.
  unfold subscript at 1. rewrite Hps. unfold ret at 1. step.
  rewrite ensure_member_lookup, ensure_member_insert.
  unfold paid_record. fold (with_flag name mo paid ps).
  case_bool_decide as Hchange.
  - unfold has_key, ret, history_of, change_entry, action_of. step.
    destruct (payment_history r) as [h|] eqn:Hh.
    + rewrite bool_decide_eq_true_2 by eauto. unfold now, setitem, ret. step.
      unfold subscript. rewrite Hh. reflexivity.
    + rewrite bool_decide_eq_false_2 by (intros [? ?]; discriminate).
      reflexivity.
  - reflexivity.
Qed.

Lemma with_flag_lookup name mo paid (ps : gmap string (gmap string bool)) :
  default false (default ∅ (with_flag name mo paid ps !! name) !! mo) = paid.
Proof. unfold with_flag. rewrite lookup_insert_eq. simpl. by rewrite lookup_insert_eq. Qed.

Lemma stored_flag_default r name mo ps :
  payments r = Some ps →
  default false (stored_flag r name mo) = default false (default ∅ (ps !! name) !! mo).
Proof.
  intros Hps. unfold stored_flag. rewrite Hps. simpl.
  destruct (ps !! name) as [mp|]; simpl; [done | by rewrite lookup_empty].
Qed.

Lemma paid_record_flag name mo paid stamp ps r :
  stored_flag (paid_record name mo paid stamp ps r) name mo = Some paid.
Proof.
  unfold stored_flag, paid_record, with_flag. simpl.
  rewrite lookup_insert_eq. simpl. by rewrite lookup_insert_eq.
Qed.

Lemma paid_record_history name mo paid stamp ps r :
  history_of (paid_record name mo paid stamp ps r) =
    if bool_decide (default false (default ∅ (ps !! name) !! mo) ≠ paid)
    then history_of r
         ++ [change_entry stamp name mo (default false (default ∅ (ps !! name) !! mo)) paid]
    else history_of r.
Proof. unfold paid_record. by case_bool_decide. Qed.

(** C4: [update_payment] reads the stored flag (false when unset), always
    writes the new flag, and appends a history entry exactly when the flag
    changes; the entry is marked_paid when [paid] is true and marked_unpaid
    otherwise and carries the old and the new flag.  A second call with the
    same member, month and value appends nothing, so the two calls append at
    most one entry. *)
Theorem update_payment_history_on_change year name mo paid w r w1 :
  load_data year w = Returns (YDict r) w1 →
  is_Some (payments r) →
  ∃ w2 r2,
    update_payment year name mo paid w = Returns tt w2
    ∧ load_data year w2 = Returns (YDict r2) w2
    ∧ stored_flag r2 name mo = Some paid
    ∧ (default false (stored_flag r name mo) = paid → history_of r2 = history_of r)
    ∧ (default false (stored_flag r name mo) ≠ paid →
       ∃ stamp,
         history_of r2 =
           history_of r
           ++ [change_entry stamp name mo (default false (stored_flag r name mo)) paid])
    ∧ ∃ w3 r3,
        update_payment year name mo paid w2 = Returns tt w3
        ∧ load_data year w3 = Returns (YDict r3) w3
        ∧ history_of r3 = history_of r2
        ∧ (length (history_of r3) ≤ S (length (history_of r)))%nat.
Proof.
  intros Hload [ps Hps].
  pose proof (update_payment_run year name mo paid w r w1 ps Hload Hps) as Hrun.
  rewrite (stored_flag_default r name mo ps Hps).
  set (old := default false (default ∅ (ps !! name) !! mo)) in *.
  set (r1 := paid_record name mo paid (clock w1 (tick w1)) ps r) in *.
  set (wa := if bool_decide (old ≠ paid) then advance 1 w1 else w1) in *.
  set (r2 := set_updated_at (Some (clock wa (tick wa))) r1).
  assert (Hhist2 : history_of r2 =
            if bool_decide (old ≠ paid)
            then history_of r ++ [change_entry (clock w1 (tick w1)) name mo old paid]
            else history_of r).
  { change (history_of r2) with (history_of r1). apply paid_record_history. }
  assert (Hload2 : load_data year (saved year r1 wa) = Returns (YDict r2) (saved year r1 wa))
    by apply load_data_saved.
  assert (Hps2 : payments r2 = Some (with_flag name mo paid ps)) by reflexivity.
  pose proof (update_payment_run year name mo paid _ _ _ _ Hload2 Hps2) as Hrun2.
  rewrite with_flag_lookup in Hrun2.
  rewrite bool_decide_eq_false_2 in Hrun2 by (intros Hne; by apply Hne).
  exists (saved year r1 wa), r2. repeat split.
  - exact Hrun.
  - exact Hload2.
  - change (stored_flag r2 name mo) with (stored_flag r1 name mo).
    apply paid_record_flag.
  - intros Hsame. rewrite Hhist2. by rewrite bool_decide_eq_false_2 by (intros Hne; by apply Hne).
  - intros Hdiff. exists (clock w1 (tick w1)). rewrite Hhist2.
    by rewrite bool_decide_eq_true_2.
  - eexists _, _. split; [exact Hrun2 |]. split; [apply load_data_saved |].
    assert (Hsame : history_of
              (set_updated_at
                 (Some (clock (saved year r1 wa) (tick (saved year r1 wa))))
                 (paid_record name mo paid
                    (clock (saved year r1 wa) (tick (saved year r1 wa)))
                    (with_flag name mo paid ps) r2)) = history_of r2).
    { unfold paid_record. rewrite with_flag_lookup.
      by rewrite bool_decide_eq_false_2 by (intros Hne; by apply Hne). }
    split; [exact Hsame |].
    rewrite Hsame, Hhist2. case_bool_decide; rewrite ?length_app; simpl; lia.
Qed.

Lemma update_payment_history_on_change_witness :
  ∃ w2 r2,
    update_payment 2024 "Alice" "Jan" true empty_world = Returns tt w2
    ∧ load_data 2024 w2 = Returns (YDict r2) w2
    ∧ stored_flag r2 "Alice" "Jan" = Some true.
Proof.
  destruct (update_payment_history_on_change 2024 "Alice" "Jan" true empty_world
              (default_record 2024 "t0" "t1") (advance 2 empty_world))
    as (w2 & r2 & Hrun & Hload & Hflag & _).
  - vm_compute. reflexivity.
  - simpl. eauto.
  - exists w2, r2. auto.
Defined.

(** ** Payments for names that are not members *)

Lemma bulk_update_payments_run year name months paid w r w1 ps :
  load_data year w = Returns (YDict r) w1 →
  payments r = Some ps →
  bulk_update_payments year name months paid w =
    Returns tt (saved year (set_payments (Some (bulk_flags name months paid ps)) r) w1).
Proof.
  intros Hload Hps. unfold bulk_update_payments, bind. rewrite Hload. step.
  unfold subscript. rewrite Hps. reflexivity.
Qed.

Lemma with_flag_dom name mo paid (ps : gmap string (gmap string bool)) :
  dom (with_flag name mo paid ps) = {[name]} ∪ dom ps.
Proof. unfold with_flag. by rewrite dom_insert_L. Qed.

Lemma foldl_with_flag_dom name months paid (ps : gmap string (gmap string bool)) :
  name ∈ dom ps →
  dom (foldl (λ ps mo, with_flag name mo paid ps) ps months) = dom ps.
Proof.
  revert ps. induction months as [|mo months IH]; intros ps Hin; simpl; [done |].
  rewrite IH by (rewrite with_flag_dom; apply elem_of_union_r, Hin).
  rewrite with_flag_dom.
  apply subseteq_union_1_L, singleton_subseteq_l, Hin.
Qed.

Lemma bulk_flags_dom name months paid (ps : gmap string (gmap string bool)) :
  dom (bulk_flags name months paid ps) = {[name]} ∪ dom ps.
Proof.
  unfold bulk_flags. case_bool_decide as Hin.
  - rewrite foldl_with_flag_dom by done.
    symmetry. apply subseteq_union_1_L, singleton_subseteq_l, Hin.
  - rewrite foldl_with_flag_dom; rewrite dom_insert_L; [done |].
    apply elem_of_union_l, elem_of_singleton_2. reflexivity.
Qed.

(** C10: [update_payment] and [bulk_update_payments] succeed whether or not
    the name is a member and leave a payments entry for it, so the payments
    mapping can hold keys that are not members; the members list is untouched
    and every member that had a payments entry still has one. *)
Theorem payments_for_non_members year name mo months paid w r w1 ms ps :
  load_data year w = Returns (YDict r) w1 →
  members r = Some ms →
  payments r = Some ps →
  (∀ m, m ∈ ms → m ∈ dom ps) →
  (∃ w2 r2 ps2,
     update_payment year name mo paid w = Returns tt w2
     ∧ load_data year w2 = Returns (YDict r2) w2
     ∧ members r2 = Some ms
     ∧ payments r2 = Some ps2
     ∧ name ∈ dom ps2
     ∧ (name ∉ ms → ∃ k, k ∈ dom ps2 ∧ k ∉ ms)
     ∧ (∀ m, m ∈ ms → m ∈ dom ps2))
  ∧ (∃ w2 r2 ps2,
       bulk_update_payments year name months paid w = Returns tt w2
       ∧ load_data year w2 = Returns (YDict r2) w2
       ∧ members r2 = Some ms
       ∧ payments r2 = Some ps2
       ∧ name ∈ dom ps2
       ∧ (name ∉ ms → ∃ k, k ∈ dom ps2 ∧ k ∉ ms)
       ∧ (∀ m, m ∈ ms → m ∈ dom ps2)).
Proof.
  intros Hload Hms Hps Hinv. split.
  - eexists _, _, (with_flag name mo paid ps).
    split; [by apply (update_payment_run _ _ _ _ _ _ _ _ Hload Hps) |].
    split; [apply load_data_saved |].
    split; [unfold paid_record; case_bool_decide; exact Hms |].
    split; [reflexivity |].
    rewrite with_flag_dom.
    split; [set_solver |].
    split; [intros Hout; exists name; set_solver | set_solver].
  - eexists _, _, (bulk_flags name months paid ps).
    split; [by apply (bulk_update_payments_run _ _ _ _ _ _ _ _ Hload Hps) |].
    split; [apply load_data_saved |].
    split; [exact Hms |].
    split; [reflexivity |].
    rewrite bulk_flags_dom.
    split; [set_solver |].
    split; [intros Hout; exists name; set_solver | set_solver].
Qed.

Lemma payments_for_non_members_witness :
  ∃ w2 r2 ps2,
    update_payment 2024 "Mallory" "Jan" true empty_world = Returns tt w2
    ∧ load_data 2024 w2 = Returns (YDict r2) w2
    ∧ members r2 = Some []
    ∧ payments r2 = Some ps2
    ∧ "Mallory" ∈ dom ps2.
Proof.
  destruct (payments_for_non_members 2024 "Mallory" "Jan" ["Feb"] true empty_world
              (default_record 2024 "t0" "t1") (advance 2 empty_world) [] ∅)
    as [(w2 & r2 & ps2 & Hrun & Hload & Hms & Hps & Hin & _) _].
  - vm_compute. reflexivity.
  - reflexivity.
  - reflexivity.
  - intros m Hm. by apply elem_of_nil in Hm.
  - exists w2, r2, ps2. auto.
Defined.

(** ** Year numbers and file names *)

Module PyStrFacts.
Import PyStr.

Lemma string_of_uint_digits d : all_digits (NilEmpty.string_of_uint d) = true.
Proof. induction d; simpl; auto. Qed.

Lemma string_of_uint_nonempty d : d ≠ Decimal.Nil → NilEmpty.string_of_uint d ≠ EmptyString.
Proof. destruct d; simpl; congruence. Qed.

Lemma digit_not_space c : is_digit c = true → is_space c = false.
Proof. destruct c as [[] [] [] [] [] [] [] []]; vm_compute; intros; congruence. Qed.

Lemma digit_not_sign c : is_digit c = true → c ≠ "+"%char ∧ c ≠ "-"%char.
Proof. intros Hc. split; intros ->; vm_compute in Hc; discriminate. Qed.

Lemma digit_not_underscore c : is_digit c = true → Ascii.eqb c "_" = false.
Proof. destruct c as [[] [] [] [] [] [] [] []]; vm_compute; intros; congruence. Qed.

Lemma app_nil (s : string) : EmptyString +:+ s = s.
Proof. reflexivity. Qed.

Lemma app_cons c (a b : string) : String c a +:+ b = String c (a +:+ b).
Proof. reflexivity. Qed.

Lemma app_empty_r (s : string) : s +:+ EmptyString = s.
Proof. induction s as [|c s IH]; [done |]. by rewrite app_cons, IH. Qed.

Lemma app_assoc (a b c : string) : (a +:+ b) +:+ c = a +:+ (b +:+ c).
Proof. induction a as [|x a IH]; [done |]. by rewrite !app_cons, IH. Qed.

Lemma rev_app (a b : string) : rev (a +:+ b) = rev b +:+ rev a.
Proof.
  induction a as [|c a IH]; simpl.
  - by rewrite app_empty_r.
  - by rewrite IH, app_assoc.
Qed.

Lemma rev_involutive (s : string) : rev (rev s) = s.
Proof.
  induction s as [|c s IH]; simpl; [done |].
  by rewrite rev_app, IH.
Qed.

Lemma all_digits_app (a b : string) :
  all_digits (a +:+ b) = all_digits a && all_digits b.
Proof.
  induction a as [|c a IH]; [done |].
  rewrite app_cons. simpl. by rewrite IH, andb_assoc.
Qed.

Lemma all_digits_rev (s : string) : all_digits (rev s) = all_digits s.
Proof.
  induction s as [|c s IH]; simpl; [done |].
  rewrite all_digits_app, IH. simpl. rewrite andb_true_r. apply andb_comm.
Qed.

Lemma rev_nonempty (s : string) : s ≠ EmptyString → rev s ≠ EmptyString.
Proof.
  destruct s as [|c s]; [done |]. intros _. simpl.
  destruct (rev s); [rewrite app_nil | rewrite app_cons]; congruence.
Qed.

Lemma lstrip_digits (s : string) : all_digits s = true → lstrip s = s.
Proof.
  destruct s as [|c s]; simpl; [done |].
  intros [Hc _]%andb_true_iff. by rewrite (digit_not_space c Hc).
Qed.

Lemma strip_digits (s : string) : all_digits s = true → strip s = s.
Proof.
  intros Hs. unfold strip. rewrite (lstrip_digits s Hs).
  rewrite lstrip_digits by (by rewrite all_digits_rev).
  apply rev_involutive.
Qed.

Lemma strip_negative (s : string) :
  all_digits s = true → s ≠ EmptyString → strip (String "-" s) = String "-" s.
Proof.
  intros Hs Hne. unfold strip.
  change (lstrip (String "-" s)) with (String "-" s).
  assert (Hrev : lstrip (rev (String "-" s)) = rev (String "-" s)).
  { simpl. pose proof (rev_nonempty s Hne) as Hr.
    pose proof (all_digits_rev s) as Hd. rewrite Hs in Hd.
    destruct (rev s) as [|c r]; [done |].
    simpl in Hd. apply andb_true_iff in Hd as [Hc _].
    rewrite app_cons. simpl. by rewrite (digit_not_space c Hc). }
  rewrite Hrev. apply rev_involutive.
Qed.

Lemma digit_groups_digits (s : string) (after_digit : bool) :
  all_digits s = true →
  s ≠ EmptyString ∨ after_digit = true →
  digit_groups s after_digit = Some s.
Proof.
  revert after_digit. induction s as [|c s IH]; intros b Hs Hb; simpl.
  - destruct Hb as [Hb | ->]; [done | reflexivity].
  - simpl in Hs. apply andb_true_iff in Hs as [Hc Hs].
    rewrite Hc. rewrite IH by auto. reflexivity.
Qed.

Lemma nat_literal_digits d :
  d ≠ Decimal.Nil → nat_literal (NilEmpty.string_of_uint d) = Some (Z.of_uint d).
Proof.
  intros Hd. unfold nat_literal.
  rewrite digit_groups_digits
    by (auto using string_of_uint_digits, string_of_uint_nonempty).
  simpl. by rewrite NilEmpty.usu.
Qed.

Lemma int_of_digits d :
  d ≠ Decimal.Nil → int (NilEmpty.string_of_uint d) = Some (Z.of_uint d).
Proof.
  intros Hd. unfold int. rewrite strip_digits by apply string_of_uint_digits.
  rewrite <- (nat_literal_digits d Hd).
  pose proof (string_of_uint_digits d) as Hs.
  destruct (NilEmpty.string_of_uint d) as [|c r] eqn:Hstr; [done |].
  simpl in Hs. apply andb_true_iff in Hs as [Hc _].
  destruct c as [[] [] [] [] [] [] [] []]; try reflexivity; vm_compute in Hc; congruence.
Qed.

Lemma int_of_negative d :
  d ≠ Decimal.Nil → int (String "-" (NilEmpty.string_of_uint d)) = Some (- Z.of_uint d).
Proof.
  intros Hd. unfold int.
  rewrite strip_negative
    by (auto using string_of_uint_digits, string_of_uint_nonempty).
  by rewrite nat_literal_digits.
Qed.

Lemma to_int_shape z :
  ∃ d, d ≠ Decimal.Nil ∧ (Z.to_int z = Decimal.Pos d ∨ Z.to_int z = Decimal.Neg d).
Proof.
  destruct z as [|p|p]; simpl.
  - exists (Decimal.D0 Decimal.Nil). split; [done | by left].
  - exists (Pos.to_uint p). split; [apply Unsigned.to_uint_nonnil | by left].
  - exists (Pos.to_uint p). split; [apply Unsigned.to_uint_nonnil | by right].
Qed.

(** [int(str(n)) == n] *)
Lemma int_str z : int (str z) = Some z.
Proof.
  unfold str. destruct (to_int_shape z) as (d & Hd & [Hz | Hz]).
  - rewrite Hz. replace (NilZero.string_of_int (Decimal.Pos d))
      with (NilEmpty.string_of_uint d) by (by destruct d).
    rewrite int_of_digits by done. f_equal.
    rewrite <- (DecimalZ.of_to z), Hz. reflexivity.
  - rewrite Hz. replace (NilZero.string_of_int (Decimal.Neg d))
      with (String "-" (NilEmpty.string_of_uint d)) by (by destruct d).
    rewrite int_of_negative by done. f_equal.
    rewrite <- (DecimalZ.of_to z), Hz. reflexivity.
Qed.

Lemma str_inj y z : str y = str z → y = z.
Proof.
  intros Heq. pose proof (int_str y) as Hy. rewrite Heq, int_str in Hy. congruence.
Qed.

End PyStrFacts.

Lemma append_inj_l (p a b : string) : p +:+ a = p +:+ b → a = b.
Proof. induction p as [|c p IH]; simpl; [done |]. intros [= H]. auto. Qed.

Lemma append_inj_r (a b s : string) : a +:+ s = b +:+ s → a = b.
Proof.
  intros Heq. apply (f_equal PyStr.rev) in Heq.
  rewrite !PyStrFacts.rev_app in Heq. apply append_inj_l in Heq.
  rewrite <- (PyStrFacts.rev_involutive a), <- (PyStrFacts.rev_involutive b).
  by rewrite Heq.
Qed.

(** Two years never share a file. *)
Lemma get_data_file_path_inj y z :
  get_data_file_path y = get_data_file_path z → y = z.
Proof.
  unfold get_data_file_path. intros Heq.
  apply append_inj_l, append_inj_r in Heq. by apply PyStrFacts.str_inj.
Qed.

(** ** The bulk path and the history *)

(** [bulk_update_payments] saves the history it loaded. *)
Lemma bulk_update_payments_history year name months paid w r w1 :
  load_data year w = Returns (YDict r) w1 →
  is_Some (payments r) →
  ∃ w2 r2,
    bulk_update_payments year name months paid w = Returns tt w2
    ∧ load_data year w2 = Returns (YDict r2) w2
    ∧ payment_history r2 = payment_history r.
Proof.
  intros Hload [ps Hps]. eexists _, _.
  split; [by apply (bulk_update_payments_run _ _ _ _ _ _ _ _ Hload Hps) |].
  split; [apply load_data_saved | reflexivity].
Qed.

(** The month-by-month path stores the flags one after the other and
    appends one history entry per change. *)
Lemma bulk_by_update_payment_run year name paid months :
  ∀ mo w r w1 ps,
    load_data year w = Returns (YDict r) w1 →
    payments r = Some ps →
    ∃ w2 r2,
      bulk_by_update_payment year name (mo :: months) paid w = Returns tt w2
      ∧ load_data year w2 = Returns (YDict r2) w2
      ∧ payments r2 = Some (foldl (λ ps mo, with_flag name mo paid ps) ps (mo :: months))
      ∧ length (history_of r2)
        = (length (history_of r) + changes name paid (mo :: months) ps)%nat.
Proof.
  induction months as [|mo' months IH]; intros mo w r w1 ps Hload Hps;
    pose proof (update_payment_run year name mo paid w r w1 ps Hload Hps) as Hrun;
    set (w' := saved year _ _) in Hrun;
    pose proof (load_data_saved year
                  (paid_record name mo paid (clock w1 (tick w1)) ps r)
                  (if bool_decide (default false (default ∅ (ps !! name) !! mo) ≠ paid)
                   then advance 1 w1 else w1)) as Hload';
    fold w' in Hload';
    set (r' := set_updated_at _ _) in Hload';
    assert (Hhist : length (history_of r')
                    = (length (history_of r)
                       + (if bool_decide (default false (default ∅ (ps !! name) !! mo) ≠ paid)
                          then 1 else 0))%nat)
      by (change (history_of r') with
            (history_of (paid_record name mo paid (clock w1 (tick w1)) ps r));
          rewrite paid_record_history; case_bool_decide;
          rewrite ?length_app; simpl; lia).
  - exists w', r'. unfold bulk_by_update_payment. rewrite for_each_cons, Hrun.
    split; [reflexivity |]. split; [exact Hload' |]. split; [reflexivity |].
    simpl changes. lia.
  - destruct (IH mo' w' r' w' (with_flag name mo paid ps) Hload' eq_refl)
      as (w2 & r2 & Hrun2 & Hload2 & Hps2 & Hlen2).
    exists w2, r2. unfold bulk_by_update_payment in *. rewrite for_each_cons, Hrun.
    split; [exact Hrun2 |]. split; [exact Hload2 |]. split; [exact Hps2 |].
    rewrite Hlen2, Hhist. simpl changes. lia.
Qed.

(** For at least one month, [bulk_update_payments] stores the flags the
    month-by-month path stores. *)
Lemma bulk_flags_month_by_month name paid mo months (ps : gmap string (gmap string bool)) :
  bulk_flags name (mo :: months) paid ps
  = foldl (λ ps mo, with_flag name mo paid ps) ps (mo :: months).
Proof.
  unfold bulk_flags. simpl. f_equal. unfold with_flag.
  by rewrite ensure_member_lookup, ensure_member_insert.
Qed.

(** C2, at year 2024 of an empty directory, for Bob and the months Nov, Dec,
    Jan: [bulk_update_payments] stores the same flags as [update_payment]
    month by month, but it appends no history entry where the month-by-month
    path appends three. *)
Theorem bulk_update_payments_appends_no_history :
  ∃ w_bulk r_bulk w_each r_each,
    bulk_update_payments 2024 "Bob" ["Nov"; "Dec"; "Jan"] true empty_world
      = Returns tt w_bulk
    ∧ load_data 2024 w_bulk = Returns (YDict r_bulk) w_bulk
    ∧ bulk_by_update_payment 2024 "Bob" ["Nov"; "Dec"; "Jan"] true empty_world
      = Returns tt w_each
    ∧ load_data 2024 w_each = Returns (YDict r_each) w_each
    ∧ payments r_bulk = payments r_each
    ∧ history_of r_bulk = []
    ∧ length (history_of r_each) = 3%nat.
Proof.
  eexists _, _, _, _.
  split; [vm_compute; reflexivity |].
  split; [vm_compute; reflexivity |].
  split; [vm_compute; reflexivity |].
  split; [vm_compute; reflexivity |].
  split; [vm_compute; reflexivity |].
  split; reflexivity.
Qed.

(** ** Unreadable year files *)

(** A missing file, or a text that is not JSON, gives the default record. *)
Lemma load_data_default year w :
  files w !! get_data_file_path year = None
  ∨ files w !! get_data_file_path year = Some (Utf8 Garbled) →
  ∃ r w1,
    load_data year w = Returns (YDict r) w1
    ∧ members r = Some []
    ∧ payments r = Some ∅
    ∧ payment_history r = Some []
    ∧ settings r = Some {| total_price := Some 100%float; max_slots := Some 10 |}.
Proof.
  intros [Hfile | Hfile]; eexists _, _;
    (split; [first [by apply load_data_missing | by apply load_data_garbled] |]);
    repeat split.
Qed.

(** C5, at a year file that is not valid UTF-8: [load_data] lets the
    [UnicodeDecodeError] of the read escape instead of returning the default
    record. *)
Theorem load_data_raises_on_undecodable_file :
  load_data 2024 undecodable_world = Raises UnicodeDecodeError undecodable_world.
Proof. apply load_data_binary. reflexivity. Qed.

(** ** Summary of a year without members *)

(** C6: for a year whose record has no members, [get_payment_summary]
    returns the aggregate with every figure zero; it returns normally, so no
    division by zero is raised on the way. *)
Theorem summary_without_members year w r w1 :
  load_data year w = Returns (YDict r) w1 →
  default [] (members r) = [] →
  get_payment_summary year w =
    Returns {| total_members := NInt 0;
               total_possible_amount := NInt 0;
               total_paid_amount := NInt 0;
               total_outstanding_amount := NInt 0;
               overall_payment_rate := NInt 0 |} w1.
Proof.
  intros Hload Hms.
  unfold get_payment_summary, bind. rewrite Hload. step.
  unfold dict_get, ret. step. rewrite Hms. reflexivity.
Qed.

Lemma summary_without_members_witness :
  get_payment_summary 2024 empty_world =
    Returns {| total_members := NInt 0;
               total_possible_amount := NInt 0;
               total_paid_amount := NInt 0;
               total_outstanding_amount := NInt 0;
               overall_payment_rate := NInt 0 |} (advance 2 empty_world).
Proof.
  apply (summary_without_members 2024 empty_world (default_record 2024 "t0" "t1")).
  - vm_compute. reflexivity.
  - reflexivity.
Defined.

(** The figures of the specification's scenario: price per slot 50, so 1200
    possible, 150 paid, 1050 outstanding, a rate of 12.5. *)
Example summary_scenario :
  get_payment_summary 2024 scenario_world =
    Returns {| total_members := NInt 2;
               total_possible_amount := NFloat 1200;
               total_paid_amount := NFloat 150;
               total_outstanding_amount := NFloat 1050;
               overall_payment_rate := NFloat 12.5 |} scenario_world.
Proof. vm_compute. reflexivity. Qed.

(** ** Adding and removing a member *)

Lemma add_member_run year name w r w1 ms ps :
  load_data year w = Returns (YDict r) w1 →
  members r = Some ms →
  payments r = Some ps →
  add_member year name w =
    if bool_decide (name ∈ ms) then Returns tt w1
    else Returns tt
           (saved year
              (set_payments (Some (<[name := ∅]> ps)) (set_members (Some (ms ++ [name])) r))
              w1).
Proof.
  intros Hload Hms Hps. unfold add_member, bind. rewrite Hload. step.
  unfold subscript at 1. rewrite Hms. unfold ret at 1. step.
  case_bool_decide; [reflexivity |].
  unfold setitem, ret. step. unfold subscript. simpl. rewrite Hps. reflexivity.
Qed.

Lemma remove_member_run year name w r w1 ms ps :
  load_data year w = Returns (YDict r) w1 →
  members r = Some ms →
  payments r = Some ps →
  remove_member year name w =
    if bool_decide (name ∈ ms) then
      Returns tt
        (saved year
           (set_payments (Some (delete name ps))
              (set_members (Some (remove_first name ms)) r))
           w1)
    else Returns tt w1.
Proof.
  intros Hload Hms Hps. unfold remove_member, bind. rewrite Hload. step.
  unfold subscript at 1. rewrite Hms. unfold ret at 1. step.
  case_bool_decide; [| reflexivity].
  unfold setitem, ret. step. unfold subscript. simpl. rewrite Hps.
  unfold ret. step.
  case_bool_decide as Hin; [reflexivity |].
  apply not_elem_of_dom in Hin. rewrite (delete_id ps name Hin).
  unfold save_data, bind, now, setitem, ret, try_except, write_json, saved. simpl.
  do 3 f_equal. unfold set_updated_at, set_payments, set_members. simpl.
  by rewrite Hps.
Qed.

Lemma remove_first_app_new name ms :
  name ∉ ms → remove_first name (ms ++ [name]) = ms.
Proof.
  induction ms as [|m ms IH]; intros Hout; simpl.
  - by rewrite String.eqb_refl.
  - apply not_elem_of_cons in Hout as [Hne Hout].
    destruct (String.eqb_spec m name) as [-> | _]; [done |].
    by rewrite IH.
Qed.

(** C7 fails for a name that is already a member: [add_member] does nothing
    and [remove_member] then removes the member that was there before. *)
Lemma add_then_remove_existing_member :
  ∃ w1 w2 r2,
    load_data 2024 alice_world = Returns (YDict alice_record) alice_world
    ∧ add_member 2024 "Alice" alice_world = Returns tt w1
    ∧ remove_member 2024 "Alice" w1 = Returns tt w2
    ∧ load_data 2024 w2 = Returns (YDict r2) w2
    ∧ members alice_record = Some ["Alice"]
    ∧ members r2 = Some []
    ∧ members r2 ≠ members alice_record.
Proof.
  eexists _, _, _.
  split; [vm_compute; reflexivity |].
  split; [vm_compute; reflexivity |].
  split; [vm_compute; reflexivity |].
  split; [vm_compute; reflexivity |].
  split; [reflexivity |].
  split; [reflexivity | discriminate].
Qed.

(** C7, amended: for a name that is not yet a member, [add_member] followed
    by [remove_member] brings the members list back to what it was, and
    neither call touches the payment history. *)
Theorem add_then_remove_member year name w r w1 ms :
  load_data year w = Returns (YDict r) w1 →
  members r = Some ms →
  is_Some (payments r) →
  name ∉ ms →
  ∃ w2 r2 w3 r3,
    add_member year name w = Returns tt w2
    ∧ load_data year w2 = Returns (YDict r2) w2
    ∧ members r2 = Some (ms ++ [name])
    ∧ payment_history r2 = payment_history r
    ∧ remove_member year name w2 = Returns tt w3
    ∧ load_data year w3 = Returns (YDict r3) w3
    ∧ members r3 = Some ms
    ∧ payment_history r3 = payment_history r.
Proof.
  intros Hload Hms [ps Hps] Hout.
  pose proof (add_member_run year name w r w1 ms ps Hload Hms Hps) as Hadd.
  rewrite bool_decide_eq_false_2 in Hadd by done.
  set (r1 := set_payments (Some (<[name := ∅]> ps)) (set_members (Some (ms ++ [name])) r)) in *.
  set (r2 := set_updated_at (Some (clock w1 (tick w1))) r1).
  assert (Hload2 : load_data year (saved year r1 w1) = Returns (YDict r2) (saved year r1 w1))
    by apply load_data_saved.
  pose proof (remove_member_run year name _ r2 _ (ms ++ [name]) (<[name := ∅]> ps)
                Hload2 eq_refl eq_refl) as Hrem.
  rewrite bool_decide_eq_true_2 in Hrem by (apply elem_of_app; right; apply list_elem_of_singleton; reflexivity).
  rewrite remove_first_app_new in Hrem by done.
  eexists _, r2, _, _.
  split; [exact Hadd |].
  split; [exact Hload2 |].
  split; [reflexivity |].
  split; [reflexivity |].
  split; [exact Hrem |].
  split; [apply load_data_saved |].
  split; reflexivity.
Qed.

Lemma add_then_remove_member_witness :
  ∃ w2 r2 w3 r3,
    add_member 2024 "Bob" alice_world = Returns tt w2
    ∧ load_data 2024 w2 = Returns (YDict r2) w2
    ∧ members r2 = Some ["Alice"; "Bob"]
    ∧ remove_member 2024 "Bob" w2 = Returns tt w3
    ∧ load_data 2024 w3 = Returns (YDict r3) w3
    ∧ members r3 = Some ["Alice"].
Proof.
  destruct (add_then_remove_member 2024 "Bob" alice_world alice_record alice_world ["Alice"])
    as (w2 & r2 & w3 & r3 & Hadd & Hl2 & Hm2 & _ & Hrem & Hl3 & Hm3 & _).
  - vm_compute. reflexivity.
  - reflexivity.
  - simpl. eauto.
  - intros Hin. apply list_elem_of_singleton in Hin. discriminate.
  - exists w2, r2, w3, r3. auto 10.
Defined.

(** ** Copying the members of another year *)

Lemma load_data_files year w data w1 :
  load_data year w = Returns data w1 → files w1 = files w.
Proof.
  intros Hload.
  destruct (load_data_cases year w)
    as [(c & u & Hl & _) | [(v & Hl & _) | [Hl _]]];
    rewrite Hl in Hload; by inversion Hload.
Qed.

Lemma foldl_emptied_lookup ms m (acc : gmap string (gmap string bool)) :
  foldl (λ ps name, <[name := ∅]> ps) acc ms !! m =
    if bool_decide (m ∈ ms) then Some ∅ else acc !! m.
Proof.
  revert acc. induction ms as [|x ms IH]; intros acc; simpl; [done |].
  rewrite IH. destruct (decide (m = x)) as [-> | Hne].
  - rewrite lookup_insert_eq.
    rewrite (bool_decide_eq_true_2 (x ∈ x :: ms)) by apply list_elem_of_here.
    by case_bool_decide.
  - rewrite lookup_insert_ne by done.
    case_bool_decide as Hin.
    + by rewrite bool_decide_eq_true_2 by (by apply list_elem_of_further).
    + rewrite bool_decide_eq_false_2; [done |].
      intros [? | ?]%elem_of_cons; done.
Qed.

Lemma emptied_lookup ms m :
  emptied ms !! m = if bool_decide (m ∈ ms) then Some ∅ else None.
Proof. unfold emptied. by rewrite foldl_emptied_lookup, lookup_empty. Qed.

Lemma copy_members_from_year_run source_year target_year w rs w1 rt w2 :
  load_data source_year w = Returns (YDict rs) w1 →
  load_data target_year w1 = Returns (YDict rt) w2 →
  copy_members_from_year source_year target_year w =
    Returns tt
      (saved target_year
         (set_payments (Some (emptied (default [] (members rs))))
            (set_members (Some (default [] (members rs))) rt))
         w2).
Proof.
  intros Hsrc Htgt. unfold copy_members_from_year, bind.
  rewrite Hsrc. step. rewrite Htgt. reflexivity.
Qed.

(** C8 fails when the source year is the target year: the year's record is
    then both, and its payments are reset. *)
Lemma copy_members_onto_same_year :
  ∃ w3 r3,
    load_data 2024 alice_paid_world = Returns (YDict alice_paid_record) alice_paid_world
    ∧ copy_members_from_year 2024 2024 alice_paid_world = Returns tt w3
    ∧ load_data 2024 w3 = Returns (YDict r3) w3
    ∧ stored_flag alice_paid_record "Alice" "Jan" = Some true
    ∧ stored_flag r3 "Alice" "Jan" = None
    ∧ files w3 !! get_data_file_path 2024 ≠ files alice_paid_world !! get_data_file_path 2024.
Proof.
  eexists _, _.
  split; [vm_compute; reflexivity |].
  split; [vm_compute; reflexivity |].
  split; [vm_compute; reflexivity |].
  split; [vm_compute; reflexivity |].
  split; [vm_compute; reflexivity |].
  vm_compute. discriminate.
Qed.

(** C8, amended: [copy_members_from_year] replaces the target's members by
    the source's, gives each copied member an empty payments entry and no
    other entry, and keeps the target's payment history and settings; when
    the two years differ, the source's file is left as it was. *)
Theorem copy_members_from_year_effect source_year target_year w rs w1 rt w2 :
  load_data source_year w = Returns (YDict rs) w1 →
  load_data target_year w1 = Returns (YDict rt) w2 →
  ∃ w3 r3 ps3,
    copy_members_from_year source_year target_year w = Returns tt w3
    ∧ load_data target_year w3 = Returns (YDict r3) w3
    ∧ members r3 = Some (default [] (members rs))
    ∧ payments r3 = Some ps3
    ∧ (∀ m, ps3 !! m = if bool_decide (m ∈ default [] (members rs)) then Some ∅ else None)
    ∧ payment_history r3 = payment_history rt
    ∧ settings r3 = settings rt
    ∧ (source_year ≠ target_year →
       files w3 !! get_data_file_path source_year = files w !! get_data_file_path source_year).
Proof.
  intros Hsrc Htgt.
  eexists _, _, (emptied (default [] (members rs))).
  split; [exact (copy_members_from_year_run _ _ _ _ _ _ _ Hsrc Htgt) |].
  split; [apply load_data_saved |].
  split; [reflexivity |].
  split; [reflexivity |].
  split; [apply emptied_lookup |].
  split; [reflexivity |].
  split; [reflexivity |].
  intros Hne. simpl.
  rewrite lookup_insert_ne by (intros Heq; apply Hne; symmetry; by apply get_data_file_path_inj).
  by rewrite (load_data_files _ _ _ _ Htgt), (load_data_files _ _ _ _ Hsrc).
Qed.

Lemma copy_members_from_year_effect_witness :
  ∃ w3 r3,
    copy_members_from_year 2024 2025 alice_paid_world = Returns tt w3
    ∧ load_data 2025 w3 = Returns (YDict r3) w3
    ∧ members r3 = Some ["Alice"]
    ∧ files w3 !! get_data_file_path 2024 = files alice_paid_world !! get_data_file_path 2024.
Proof.
  destruct (copy_members_from_year_effect 2024 2025 alice_paid_world
              alice_paid_record alice_paid_world
              (default_record 2025 "t5" "t6") (advance 2 alice_paid_world))
    as (w3 & r3 & ps3 & Hrun & Hload & Hms & _ & _ & _ & _ & Hsrc).
  - vm_compute. reflexivity.
  - vm_compute. reflexivity.
  - exists w3, r3. repeat split; [exact Hrun | exact Hload | exact Hms |].
    apply Hsrc. discriminate.
Defined.

(** ** Reading the history *)

Lemma insert_desc_perm h l : insert_desc h l ≡ₚ h :: l.
Proof.
  induction l as [|h' l IH]; simpl; [done |].
  destruct (String.ltb (sort_key h) (sort_key h')); [| done].
  rewrite IH. apply Permutation_swap.
Qed.

Lemma sorted_desc_perm l : sorted_desc l ≡ₚ l.
Proof.
  induction l as [|h l IH]; simpl; [done |].
  unfold sorted_desc in *. simpl. by rewrite insert_desc_perm, IH.
Qed.

Lemma ltb_asym (a b : string) : String.ltb a b = true → String.ltb b a = false.
Proof.
  unfold String.ltb. rewrite (String.compare_antisym a b).
  by destruct (String.compare b a).
Qed.

Lemma insert_desc_head h h0 l :
  not_before h0 h → HdRel not_before h0 l → HdRel not_before h0 (insert_desc h l).
Proof.
  intros Hh Hl. destruct l as [|h' l]; simpl; [by constructor |].
  destruct (String.ltb (sort_key h) (sort_key h')); constructor; [| done].
  by inversion Hl.
Qed.

Lemma insert_desc_sorted h l :
  Sorted not_before l → Sorted not_before (insert_desc h l).
Proof.
  induction 1 as [|h' l Hsorted IH Hhd]; simpl; [by repeat constructor |].
  destruct (String.ltb (sort_key h) (sort_key h')) eqn:Hlt.
  - constructor; [exact IH |].
    apply insert_desc_head; [| exact Hhd]. by apply ltb_asym.
  - constructor; [by constructor |]. by constructor.
Qed.

Lemma sorted_desc_sorted l : Sorted not_before (sorted_desc l).
Proof.
  induction l as [|h l IH]; [constructor |].
  unfold sorted_desc in *. simpl. by apply insert_desc_sorted.
Qed.

Lemma get_payment_history_run year name limit w r w1 :
  load_data year w = Returns (YDict r) w1 →
  get_payment_history year name limit w =
    Returns (if truthy_int limit
             then slice_to (default 0 limit) (sorted_desc (selected name (history_of r)))
             else sorted_desc (selected name (history_of r)))
            w1.
Proof.
  intros Hload. unfold get_payment_history, bind. rewrite Hload. reflexivity.
Qed.

Lemma selected_elem name history h :
  h ∈ selected name history ↔
  h ∈ history ∧ (truthy_str name = true → member h = name).
Proof.
  unfold selected. destruct (truthy_str name).
  - rewrite list_elem_of_In, List.filter_In, <- list_elem_of_In.
    unfold member_is. rewrite bool_decide_eq_true. intuition.
  - intuition discriminate.
Qed.

(** The filter is off for no name and for the empty name; otherwise it keeps
    the entries whose member is the name. *)
Lemma truthy_str_false name : truthy_str name = false ↔ name = None ∨ name = Some "".
Proof.
  destruct name as [s|]; simpl; [| by intuition].
  rewrite negb_false_iff, String.eqb_eq. split; [intros ->; by right |].
  by intros [? | [= ->]].
Qed.

Lemma selected_all name history :
  name = None ∨ name = Some "" → selected name history = history.
Proof. intros Hname%truthy_str_false. unfold selected. by rewrite Hname. Qed.

Lemma selected_member name history :
  name ≠ None → name ≠ Some "" →
  selected name history = filter (λ h, member h = name) history.
Proof.
  intros Hnone Hempty. unfold selected.
  destruct (truthy_str name) eqn:Hname;
    [| apply truthy_str_false in Hname as [? | ?]; done].
  induction history as [|h history IH]; [done |].
  rewrite filter_cons. cbn [List.filter]. rewrite IH. unfold member_is.
  case_bool_decide; [by rewrite decide_True | by rewrite decide_False].
Qed.

(** C9: with [limit = 0], [get_payment_history] returns what it returns
    without a limit, and that is the full history, filtered and sorted: the
    result is newest first; it holds exactly the stored entries the filter
    asks for, each as often as it is stored (all entries for no name and for
    the empty name, the member's entries otherwise).  For a non-empty history
    read without a filter it is not the empty list. *)
Theorem history_with_zero_limit year name w r w1 :
  load_data year w = Returns (YDict r) w1 →
  history_of r ≠ [] →
  ∃ l,
    get_payment_history year name (Some 0) w = Returns l w1
    ∧ get_payment_history year name None w = Returns l w1
    ∧ Sorted not_before l
    ∧ (∀ h, h ∈ l ↔
            h ∈ history_of r ∧ (name ≠ None → name ≠ Some "" → member h = name))
    ∧ (name = None ∨ name = Some "" → l ≡ₚ history_of r)
    ∧ (name ≠ None → name ≠ Some "" →
       l ≡ₚ filter (λ h, member h = name) (history_of r))
    ∧ (name = None ∨ name = Some "" → l ≠ []).
Proof.
  intros Hload Hne. exists (sorted_desc (selected name (history_of r))).
  split; [by rewrite (get_payment_history_run _ _ _ _ _ _ Hload) |].
  split; [by rewrite (get_payment_history_run _ _ _ _ _ _ Hload) |].
  split; [apply sorted_desc_sorted |].
  split; [| split; [| split]].
  - intros h. rewrite sorted_desc_perm, selected_elem.
    split; intros [Hin Hmem]; (split; [exact Hin |]).
    + intros Hnone Hempty. apply Hmem.
      destruct (truthy_str name) eqn:Hname; [done |].
      apply truthy_str_false in Hname as [? | ?]; done.
    + intros Hname. apply Hmem.
      * intros ->. discriminate Hname.
      * intros ->. discriminate Hname.
  - intros Hname. by rewrite sorted_desc_perm, selected_all.
  - intros Hnone Hempty. by rewrite sorted_desc_perm, selected_member.
  - intros Hname Hnil. rewrite selected_all in Hnil by done.
    pose proof (sorted_desc_perm (history_of r)) as Hperm.
    rewrite Hnil in Hperm. by apply Permutation_nil_l in Hperm.
Qed.

Lemma history_with_zero_limit_witness :
  ∃ l,
    get_payment_history 2024 (Some "Alice") (Some 0) alice_paid_world
    = Returns l alice_paid_world
    ∧ l = [change_entry "t3" "Alice" "Jan" false true].
Proof.
  destruct (history_with_zero_limit 2024 (Some "Alice") alice_paid_world alice_paid_record
              alice_paid_world)
    as (l & Hrun & _ & _ & _ & _ & Hperm & _).
  - vm_compute. reflexivity.
  - discriminate.
  - exists l. split; [exact Hrun |].
    specialize (Hperm ltac:(discriminate) ltac:(discriminate)).
    change (history_of alice_paid_record)
      with [change_entry "t3" "Alice" "Jan" false true] in Hperm.
    rewrite filter_cons_True, filter_nil in Hperm by reflexivity.
    by apply Permutation_singleton_r in Hperm.
Defined.

(** ** Restoring a backup *)

Lemma restore_entry_skipped acc k d w :
  PyStr.int k = None → restore_entry acc (k, d) w = Returns acc w.
Proof.
  intros Hk. unfold restore_entry, try_except, bind, py_int. simpl. by rewrite Hk.
Qed.

Lemma restore_entry_dict acc k y r w :
  PyStr.int k = Some y →
  restore_entry acc (k, YDict r) w = Returns (acc ++ [y]) (saved y r w).
Proof.
  intros Hk. unfold restore_entry, try_except, bind, py_int. simpl. by rewrite Hk.
Qed.

Lemma restore_entry_other acc k y v w :
  PyStr.int k = Some y →
  restore_entry acc (k, YOther v) w = Raises TypeError (advance 1 w).
Proof.
  intros Hk. unfold restore_entry, try_except, bind, py_int. simpl. by rewrite Hk.
Qed.

Lemma restore_loop entries acc w :
  Forall entry_ok entries →
  for_each entries restore_entry acc w =
    Returns (acc ++ year_keys entries) (restored_world entries w).
Proof.
  intros Hok. revert acc w.
  induction Hok as [|[k d] entries Hentry _ IH]; intros acc w.
  - simpl. by rewrite app_nil_r.
  - rewrite for_each_cons. unfold year_keys. cbn [omap list_omap fst snd restored_world].
    destruct (PyStr.int k) as [y|] eqn:Hk.
    + destruct Hentry as [Hnone | [r Hr]]; [simpl in Hnone; congruence |].
      simpl in Hr. subst d.
      pose proof (restore_entry_dict acc k y r w Hk) as Hstep.
      rewrite Hstep, IH. by rewrite <- app_assoc.
    + pose proof (restore_entry_skipped acc k d w Hk) as Hstep.
      by rewrite Hstep, IH.
Qed.

Lemma restored_world_file entries w y :
  match last_record y entries with
  | Some r =>
      ∃ stamp,
        files (restored_world entries w) !! get_data_file_path y
        = Some (Utf8 (Dumped (YDict (set_updated_at (Some stamp) r))))
  | None =>
      files (restored_world entries w) !! get_data_file_path y
      = files w !! get_data_file_path y
  end.
Proof.
  revert w. induction entries as [|[k d] entries IH]; intros w; simpl; [done |].
  destruct (PyStr.int k) as [y'|] eqn:Hk; [destruct d as [r|v] |].
  - specialize (IH (saved y' r w)).
    destruct (last_record y entries) as [r'|]; [exact IH |].
    case_bool_decide as Hy.
    + assert (y' = y) as -> by congruence.
      eexists. rewrite IH. simpl. by rewrite lookup_insert_eq.
    + rewrite IH. simpl. rewrite lookup_insert_ne; [done |].
      intros Heq%get_data_file_path_inj. congruence.
  - specialize (IH w). by destruct (last_record y entries).
  - specialize (IH w). destruct (last_record y entries) as [r'|]; [exact IH |].
    destruct d; [| done]. by rewrite bool_decide_eq_false_2 by congruence.
Qed.

Lemma restored_world_other_file entries w p :
  (∀ y, y ∈ year_keys entries → p ≠ get_data_file_path y) →
  files (restored_world entries w) !! p = files w !! p.
Proof.
  revert w. induction entries as [|[k d] entries IH]; intros w Hp; simpl; [done |].
  unfold year_keys in Hp. simpl in Hp.
  destruct (PyStr.int k) as [y'|] eqn:Hk; simpl in Hp.
  - assert (Hrest : ∀ y, y ∈ year_keys entries → p ≠ get_data_file_path y).
    { intros y Hy. apply Hp. by apply list_elem_of_further. }
    destruct d as [r|v]; rewrite IH by done; [| done].
    simpl. rewrite lookup_insert_ne; [done |].
    intros Heq. by apply (Hp y' (list_elem_of_here _ _)).
  - by rewrite IH.
Qed.

Lemma last_record_some y entries r :
  last_record y entries = Some r →
  ∃ k, (k, YDict r) ∈ entries ∧ PyStr.int k = Some y.
Proof.
  induction entries as [|[k d] entries IH]; simpl; [done |].
  destruct (last_record y entries) as [r'|].
  - intros [= ->]. destruct IH as (k' & Hin & Hk'); [done |].
    exists k'. split; [by apply list_elem_of_further | done].
  - destruct d as [r'|v]; [| done].
    case_bool_decide as Hk; [| done]. intros [= ->].
    exists k. split; [apply list_elem_of_here | done].
Qed.

Lemma last_record_none y entries k r :
  last_record y entries = None →
  (k, YDict r) ∈ entries → PyStr.int k ≠ Some y.
Proof.
  induction entries as [|[k' d] entries IH]; simpl; intros Hnone Hin.
  - by apply elem_of_nil in Hin.
  - destruct (last_record y entries) as [r'|]; [done |].
    apply elem_of_cons in Hin as [[= -> <-] | Hin]; [| by apply IH].
    by case_bool_decide.
Qed.

Lemma restore_from_backup_garbled exn_text w :
  restore_from_backup exn_text Garbled w = Returns (false, "Invalid JSON format") w.
Proof. reflexivity. Qed.

Lemma restore_from_backup_missing_years exn_text b w :
  years b = None →
  restore_from_backup exn_text (Dumped (BDict b)) w =
    Returns (false, "Invalid backup format: missing 'years' key") w.
Proof.
  intros Hys. unfold restore_from_backup, try_except, bind, json_loads, has_years, ret.
  step. rewrite Hys. reflexivity.
Qed.

Lemma restore_from_backup_entries exn_text b entries w :
  years b = Some (YearsDict entries) →
  Forall entry_ok entries →
  restore_from_backup exn_text (Dumped (BDict b)) w =
    Returns (if bool_decide (year_keys entries = [])
             then (false, "No valid year data found in backup")
             else (true, restored_message (year_keys entries)))
            (restored_world entries w).
Proof.
  intros Hys Hok.
  unfold restore_from_backup, try_except, bind, json_loads, has_years, subscript_years,
    items, ret.
  step. rewrite Hys. step.
  rewrite bool_decide_eq_true_2 by eauto. simpl.
  rewrite (restore_loop entries [] w Hok). simpl.
  destruct (year_keys entries); reflexivity.
Qed.

(** A year key over a value that is no dictionary stops the loop: the
    entries before it are saved, [save_data] reads the clock and raises. *)
Lemma restore_loop_aborts good k y v rest acc w :
  Forall entry_ok good →
  PyStr.int k = Some y →
  for_each (good ++ (k, YOther v) :: rest) restore_entry acc w
  = Raises TypeError (advance 1 (restored_world good w)).
Proof.
  intros Hok Hk. revert acc w.
  induction Hok as [|[k' d] good Hentry _ IH]; intros acc w.
  - simpl app. rewrite for_each_cons.
    by rewrite (restore_entry_other acc k y v w Hk).
  - rewrite <- app_comm_cons, for_each_cons. cbn [restored_world].
    destruct (PyStr.int k') as [y'|] eqn:Hk'.
    + destruct Hentry as [Hnone | [r Hr]]; [simpl in Hnone; congruence |].
      simpl in Hr. subst d.
      by rewrite (restore_entry_dict acc k' y' r w Hk'), IH.
    + by rewrite (restore_entry_skipped acc k' d w Hk'), IH.
Qed.

Lemma restore_from_backup_aborts exn_text b good k y v rest w :
  years b = Some (YearsDict (good ++ (k, YOther v) :: rest)) →
  Forall entry_ok good →
  PyStr.int k = Some y →
  restore_from_backup exn_text (Dumped (BDict b)) w =
    Returns (false, "Error during restore: " +:+ exn_text TypeError)
            (advance 1 (restored_world good w)).
Proof.
  intros Hys Hok Hk.
  unfold restore_from_backup, try_except, bind, json_loads, has_years, subscript_years,
    items, ret.
  step. rewrite Hys. step.
  rewrite bool_decide_eq_true_2 by eauto. simpl.
  by rewrite (restore_loop_aborts good k y v rest [] w Hok Hk).
Qed.

(** A parsed input that is no object is never restored from: the membership
    test raises or gives its answer, and a positive answer makes the
    subscript raise. *)
Lemma restore_from_backup_other exn_text v w :
  ∃ msg, restore_from_backup exn_text (Dumped (BOther v)) w = Returns (false, msg) w.
Proof.
  unfold restore_from_backup, try_except, bind, json_loads, has_years, subscript_years,
    json_contains, ret, raise.
  destruct v as [| | | | |]; step; simpl; try (eexists; reflexivity).
  - destruct (PyStr.contains _ _); simpl; eexists; reflexivity.
  - destruct (existsb _ _); simpl; eexists; reflexivity.
Qed.

(** Parsed inputs that are not objects: an array without the string
    ["years"] is reported like an object without the key; [null] makes the
    membership test raise, which the outer handler reports. *)
Example restore_from_array exn_text :
  restore_from_backup exn_text (Dumped (BOther (JList [JInt 1]))) empty_world
  = Returns (false, "Invalid backup format: missing 'years' key") empty_world.
Proof. reflexivity. Qed.

Example restore_from_null exn_text :
  restore_from_backup exn_text (Dumped (BOther JNull)) empty_world
  = Returns (false, "Error during restore: " +:+ exn_text TypeError) empty_world.
Proof. reflexivity. Qed.

(** A key with a separator character before the digits is no year: the
    entry is skipped, and nothing is restored. *)
Example restore_separator_key exn_text :
  restore_from_backup exn_text
    (Dumped (BDict {| backup_timestamp := None;
                      years := Some (YearsDict [(String "031" "2024", YDict alice_record)]) |}))
    empty_world
  = Returns (false, "No valid year data found in backup") empty_world.
Proof. reflexivity. Qed.

(** C3 fails in two places.  The parsed input [null] has no ["years"] key,
    yet the failure reported for it carries the text of the [TypeError] of
    the membership test, not the message about the missing key.  And success
    is not tied to a year having been restored: the record of 2023 is
    written, then the array under 2024 makes [save_data] raise a [TypeError]
    that only the outer handler catches, and the result is a failure. *)
Lemma restore_diverges_on_null_and_on_array :
  (∃ msg,
     restore_from_backup membership_exn_text (Dumped (BOther JNull)) empty_world
     = Returns (false, msg) empty_world
     ∧ msg = "Error during restore: argument of type 'NoneType' is not iterable"
     ∧ msg ≠ "Invalid backup format: missing 'years' key"
     ∧ PyStr.contains msg "years" = false)
  ∧ ∃ w',
      restore_from_backup example_exn_text broken_backup empty_world
      = Returns (false, "Error during restore: list indices must be integers or slices, not str")
                w'
      ∧ files empty_world !! get_data_file_path 2023 = None
      ∧ files w' !! get_data_file_path 2023
        = Some (Utf8 (Dumped (YDict (set_updated_at (Some "t0") alice_record)))).
Proof.
  split.
  - eexists. split; [vm_compute; reflexivity |].
    split; [reflexivity |]. split; [discriminate | vm_compute; reflexivity].
  - eexists. split; [vm_compute; reflexivity |].
    split; vm_compute; reflexivity.
Qed.

(** C3, amended.  [restore_from_backup] returns the failure "Invalid JSON
    format" for a text that is not JSON, and the failure naming the missing
    key, with the directory untouched, for an object without ["years"]; a
    parsed input that is no object gives a failure too and leaves the
    directory untouched.  For a ["years"] dictionary in which every entry
    with a year key holds a dictionary, entries whose key is no integer are
    skipped and all others are saved, in order: the result is a success
    exactly when at least one year was restored and its message gives their
    number and the years; each restored year's file holds the last record
    given for it, other files are untouched.  An entry with a year key over
    a value that is no dictionary aborts the restore, wherever it stands:
    the result is the failure that carries the text of the [TypeError], the
    years of the entries before it are saved as above, and no other file is
    written, those of the later entries included. *)
Theorem restore_from_backup_results exn_text w :
  restore_from_backup exn_text Garbled w = Returns (false, "Invalid JSON format") w
  ∧ (∀ b, years b = None →
       restore_from_backup exn_text (Dumped (BDict b)) w
       = Returns (false, "Invalid backup format: missing 'years' key") w)
  ∧ (∀ v, ∃ msg,
       restore_from_backup exn_text (Dumped (BOther v)) w = Returns (false, msg) w)
  ∧ (∀ b entries,
       years b = Some (YearsDict entries) →
       Forall entry_ok entries →
       ∃ ok msg w',
         restore_from_backup exn_text (Dumped (BDict b)) w = Returns (ok, msg) w'
         ∧ (ok = true ↔ year_keys entries ≠ [])
         ∧ (ok = true →
            msg = "Successfully restored "
                  +:+ PyStr.str (Z.of_nat (length (year_keys entries)))
                  +:+ " year(s): "
                  +:+ PyStr.join ", " (PyStr.str <$> year_keys entries))
         ∧ (∀ y r, last_record y entries = Some r →
              ∃ stamp,
                load_data y w' = Returns (YDict (set_updated_at (Some stamp) r)) w')
         ∧ (∀ p, (∀ y, y ∈ year_keys entries → p ≠ get_data_file_path y) →
              files w' !! p = files w !! p))
  ∧ (∀ b good k y v rest,
       years b = Some (YearsDict (good ++ (k, YOther v) :: rest)) →
       Forall entry_ok good →
       PyStr.int k = Some y →
       ∃ w',
         restore_from_backup exn_text (Dumped (BDict b)) w
         = Returns (false, "Error during restore: " +:+ exn_text TypeError) w'
         ∧ (∀ y' r, last_record y' good = Some r →
              ∃ stamp,
                load_data y' w' = Returns (YDict (set_updated_at (Some stamp) r)) w')
         ∧ (∀ p, (∀ y', y' ∈ year_keys good → p ≠ get_data_file_path y') →
              files w' !! p = files w !! p)).
Proof.
  split; [apply restore_from_backup_garbled |].
  split; [intros b; apply restore_from_backup_missing_years |].
  split; [intros v; apply restore_from_backup_other |].
  split.
  - intros b entries Hys Hok.
    pose proof (restore_from_backup_entries exn_text b entries w Hys Hok) as Hrun.
    case_bool_decide as Hkeys.
    + eexists _, _, _. split; [exact Hrun |].
      split; [split; [discriminate | done] |].
      split; [discriminate |].
      split; [| apply restored_world_other_file].
      intros y r Hlast. pose proof (restored_world_file entries w y) as Hfile.
      rewrite Hlast in Hfile. destruct Hfile as [stamp Hfile].
      exists stamp. by apply load_data_dumped.
    + eexists _, _, _. split; [exact Hrun |].
      split; [done |].
      split; [reflexivity |].
      split; [| apply restored_world_other_file].
      intros y r Hlast. pose proof (restored_world_file entries w y) as Hfile.
      rewrite Hlast in Hfile. destruct Hfile as [stamp Hfile].
      exists stamp. by apply load_data_dumped.
  - intros b good k y v rest Hys Hok Hk.
    eexists. split; [exact (restore_from_backup_aborts _ _ _ _ _ _ _ _ Hys Hok Hk) |].
    split.
    + intros y' r Hlast. pose proof (restored_world_file good w y') as Hfile.
      rewrite Hlast in Hfile. destruct Hfile as [stamp Hfile].
      exists stamp. by apply load_data_dumped.
    + intros p Hp. cbn [advance files]. by apply restored_world_other_file.
Qed.

Lemma restore_from_backup_results_witness :
  (∃ w',
     restore_from_backup example_exn_text
       (Dumped (BDict {| backup_timestamp := None;
                         years := Some (YearsDict mixed_entries) |}))
       empty_world
     = Returns (true, "Successfully restored 2 year(s): 2023, 2024") w')
  ∧ ∃ w' stamp,
      restore_from_backup example_exn_text broken_backup empty_world
      = Returns (false, "Error during restore: list indices must be integers or slices, not str")
                w'
      ∧ load_data 2023 w' = Returns (YDict (set_updated_at (Some stamp) alice_record)) w'
      ∧ files w' !! get_data_file_path 2024 = None.
Proof.
  destruct (restore_from_backup_results example_exn_text empty_world)
    as (_ & _ & _ & Hentries & Habort).
  split.
  - destruct (Hentries {| backup_timestamp := None;
                          years := Some (YearsDict mixed_entries) |}
                mixed_entries eq_refl)
      as (ok & msg & w' & Hrun & Hok & Hmsg & _).
    + apply List.Forall_cons; [right; eexists; reflexivity |].
      apply List.Forall_cons; [left; vm_compute; reflexivity |].
      apply List.Forall_cons; [right; eexists; reflexivity |].
      apply List.Forall_nil.
    + exists w'. rewrite Hrun.
      assert (ok = true) as -> by (apply Hok; vm_compute; discriminate).
      rewrite (Hmsg eq_refl). reflexivity.
  - destruct (Habort {| backup_timestamp := Some "t9";
                        years := Some (YearsDict [("2023", YDict alice_record);
                                                  ("2024", YOther (JList []))]) |}
                [("2023", YDict alice_record)] "2024" 2024 (JList []) [] eq_refl)
      as (w' & Hrun & Hsaved & Hframe).
    + apply List.Forall_cons; [right; eexists; reflexivity | apply List.Forall_nil].
    + reflexivity.
    + destruct (Hsaved 2023 alice_record eq_refl) as [stamp Hload].
      exists w', stamp. split; [exact Hrun |]. split; [exact Hload |].
      rewrite Hframe; [reflexivity |].
      intros y' Hy'. apply list_elem_of_singleton in Hy' as ->.
      intros Heq%get_data_file_path_inj. discriminate Heq.
Defined.

(** ** Listing the years of the directory *)

Lemma listing_loop names acc w :
  for_each names
    (λ years filename,
       if PyStr.startswith filename "subscription_data_" && PyStr.endswith filename ".json"
       then
         try_except
           (let year_str := PyStr.remove (PyStr.remove filename "subscription_data_") ".json" in
            year <- py_int year_str ;;
            ret (years ++ [year]))
           [([ValueError], λ _, ret years)]
       else ret years)
    acc w
  = Returns (acc ++ omap year_of_filename names) w.
Proof.
  revert acc. induction names as [|name names IH]; intros acc.
  - simpl. by rewrite app_nil_r.
  - rewrite for_each_cons. cbn [omap list_omap]. unfold year_of_filename at 1.
    destruct (PyStr.startswith name "subscription_data_" && PyStr.endswith name ".json").
    + unfold try_except, bind, py_int.
      destruct (PyStr.int _) as [y|]; simpl; rewrite IH; [| done].
      by rewrite <- app_assoc.
    + unfold ret. by rewrite IH.
Qed.

Lemma get_available_years_run w :
  get_available_years w =
    Returns (sorted_ints (omap year_of_filename (elements (dom (files w))))) w.
Proof.
  unfold get_available_years, bind, listdir. step. by rewrite listing_loop.
Qed.

Lemma insert_sorted_perm n l : insert_sorted n l ≡ₚ n :: l.
Proof.
  induction l as [|m l IH]; simpl; [done |].
  destruct (n <=? m)%Z; [done |].
  rewrite IH. apply Permutation_swap.
Qed.

Lemma sorted_ints_perm l : sorted_ints l ≡ₚ l.
Proof.
  induction l as [|n l IH]; [done |].
  unfold sorted_ints in *. simpl. by rewrite insert_sorted_perm, IH.
Qed.

Module FileNames.
Import PyStr PyStrFacts.

Lemma all_digits_plain s : all_digits s = true → plain s = true.
Proof.
  induction s as [|c s IH]; simpl; [done |].
  intros [Hc Hs]%andb_true_iff. by rewrite Hc, IH.
Qed.

Lemma str_plain n : plain (str n) = true.
Proof.
  unfold str. destruct (to_int_shape n) as (d & Hd & [Hn | Hn]); rewrite Hn.
  - replace (NilZero.string_of_int (Decimal.Pos d))
      with (NilEmpty.string_of_uint d) by (by destruct d).
    apply all_digits_plain, string_of_uint_digits.
  - replace (NilZero.string_of_int (Decimal.Neg d))
      with (String "-" (NilEmpty.string_of_uint d)) by (by destruct d).
    simpl. apply all_digits_plain, string_of_uint_digits.
Qed.

Lemma plain_char c :
  is_digit c || Ascii.eqb c "-" = true → c ≠ "s"%char ∧ c ≠ "."%char.
Proof. intros Hc. split; intros ->; vm_compute in Hc; discriminate. Qed.

Lemma remove_from_here old c r :
  remove_from old (String c r) 0 =
    if String.prefix old (String c r)
    then remove_from old r (String.length old - 1)
    else String c (remove_from old r 0).
Proof. reflexivity. Qed.

Lemma prefix_other_head a old c r :
  a ≠ c → String.prefix (String a old) (String c r) = false.
Proof. intros Hne. simpl. by destruct (ascii_dec a c). Qed.

Lemma remove_prefix_from_plain s :
  plain s = true →
  remove_from "subscription_data_" (s +:+ ".json") 0 = s +:+ ".json".
Proof.
  induction s as [|c s IH]; [reflexivity |].
  intros Hp. simpl in Hp. apply andb_true_iff in Hp as [Hc Hs].
  rewrite app_cons, remove_from_here.
  rewrite prefix_other_head by (intros <-; by apply (plain_char _ Hc)).
  by rewrite IH.
Qed.

Lemma remove_suffix_from_plain s :
  plain s = true → remove_from ".json" (s +:+ ".json") 0 = s.
Proof.
  induction s as [|c s IH]; [reflexivity |].
  intros Hp. simpl in Hp. apply andb_true_iff in Hp as [Hc Hs].
  rewrite app_cons, remove_from_here.
  rewrite prefix_other_head by (intros <-; by apply (plain_char _ Hc)).
  by rewrite IH.
Qed.

Lemma remove_leading_prefix t :
  remove_from "subscription_data_" ("subscription_data_" +:+ t) 0
  = remove_from "subscription_data_" t 0.
Proof.
  rewrite !app_cons, app_nil, remove_from_here.
  replace (String.prefix "subscription_data_" _) with true
    by (simpl; by destruct t).
  reflexivity.
Qed.

Lemma length_app (a b : string) :
  String.length (a +:+ b) = (String.length a + String.length b)%nat.
Proof. induction a as [|c a IH]; [done |]. rewrite app_cons. simpl. by rewrite IH. Qed.

Lemma substring_whole (s : string) : substring 0 (String.length s) s = s.
Proof. induction s as [|c s IH]; simpl; [done | by rewrite IH]. Qed.

Lemma substring_app_r (a b : string) :
  substring (String.length a) (String.length b) (a +:+ b) = b.
Proof.
  induction a as [|c a IH]; [apply substring_whole |].
  rewrite app_cons. simpl. exact IH.
Qed.

Lemma endswith_app (a b : string) : endswith (a +:+ b) b = true.
Proof.
  unfold endswith. rewrite length_app.
  rewrite (proj2 (Nat.leb_le _ _)) by lia.
  replace (String.length a + String.length b - String.length b)%nat
    with (String.length a) by lia.
  rewrite substring_app_r. simpl. apply String.eqb_refl.
Qed.

Lemma startswith_path y : startswith (get_data_file_path y) "subscription_data_" = true.
Proof.
  unfold startswith, get_data_file_path. rewrite !app_cons, app_nil. simpl.
  by destruct (str y +:+ ".json").
Qed.

Lemma endswith_path y : endswith (get_data_file_path y) ".json" = true.
Proof.
  unfold get_data_file_path. rewrite <- app_assoc. apply endswith_app.
Qed.

(** The file of a year is read back as that year. *)
Lemma year_of_data_file y : year_of_filename (get_data_file_path y) = Some y.
Proof.
  unfold year_of_filename. rewrite startswith_path, endswith_path. simpl.
  unfold remove, get_data_file_path.
  rewrite remove_leading_prefix, remove_prefix_from_plain by apply str_plain.
  rewrite remove_suffix_from_plain by apply str_plain.
  apply int_str.
Qed.

End FileNames.

Example year_of_plain_name : year_of_filename "subscription_data_2024.json" = Some 2024.
Proof. reflexivity. Qed.
Example year_of_padded_name : year_of_filename "subscription_data_02_024.json" = Some 2024.
Proof. reflexivity. Qed.
Example year_of_other_name : year_of_filename "subscription_data_old.json" = None.
Proof. reflexivity. Qed.
Example year_of_unrelated_name : year_of_filename "notes.txt" = None.
Proof. reflexivity. Qed.
Example year_of_spaced_name : year_of_filename "subscription_data_ 2024.json" = Some 2024.
Proof. reflexivity. Qed.
Example year_of_separator_name :
  year_of_filename ("subscription_data_" +:+ String "031" "2024.json") = None.
Proof. reflexivity. Qed.

(** ** Backup and restore round trip *)

Lemma load_data_readable year w :
  readable (files w) →
  ∃ r w', load_data year w = Returns (YDict r) w' ∧ files w' = files w.
Proof.
  intros Hread.
  destruct (load_data_cases year w)
    as [(c & u & Hl & _) | [(v & Hl & Hfile) | [Hl Hfile]]].
  - eexists _, _. split; [exact Hl | done].
  - destruct (Hread _ _ Hfile) as [[=] | [r [= ->]]].
    eexists _, _. split; [exact Hl | done].
  - by destruct (Hread _ _ Hfile) as [[=] | [r [=]]].
Qed.

Lemma load_data_fields_stable year w w' r r' wa wb :
  files w = files w' →
  load_data year w = Returns (YDict r) wa →
  load_data year w' = Returns (YDict r') wb →
  fields r = fields r'.
Proof.
  intros Hfs Hl Hl'.
  destruct (load_data_cases year w)
    as [(c & u & H1 & Hf) | [(v & H1 & Hf) | [H1 Hf]]];
    destruct (load_data_cases year w')
      as [(c' & u' & H2 & Hf') | [(v' & H2 & Hf') | [H2 Hf']]];
    rewrite H1 in Hl; rewrite H2 in Hl'; rewrite Hfs in Hf;
    try (destruct Hf as [Hf | Hf]); try (destruct Hf' as [Hf' | Hf']);
    rewrite Hf in Hf'; try discriminate;
    inversion Hl; inversion Hl'; subst; try reflexivity.
  by inversion Hf'.
Qed.

Lemma odict_set_elem {V} k (v : V) d k' v' :
  (k', v') ∈ odict_set k v d → (k', v') = (k, v) ∨ (k', v') ∈ d.
Proof.
  induction d as [|[k0 v0] d IH]; simpl.
  - intros ->%list_elem_of_singleton. by left.
  - destruct (String.eqb k0 k).
    + intros [-> | Hin]%elem_of_cons; [by left | right; by apply list_elem_of_further].
    + intros [-> | Hin]%elem_of_cons; [right; apply list_elem_of_here |].
      destruct (IH Hin) as [-> | Hd]; [by left | right; by apply list_elem_of_further].
Qed.

Lemma odict_set_key {V} k (v : V) d : (k, v) ∈ odict_set k v d.
Proof.
  induction d as [|[k0 v0] d IH]; simpl; [apply list_elem_of_here |].
  destruct (String.eqb k0 k); [apply list_elem_of_here | by apply list_elem_of_further].
Qed.

Lemma odict_set_keeps {V} k (v : V) d k' v' :
  (k', v') ∈ d → ∃ v'', (k', v'') ∈ odict_set k v d.
Proof.
  induction d as [|[k0 v0] d IH]; simpl; [by intros ?%elem_of_nil |].
  intros [[= -> ->] | Hin]%elem_of_cons.
  - destruct (String.eqb_spec k0 k) as [-> | _]; eexists; apply list_elem_of_here.
  - destruct (String.eqb k0 k).
    + eexists. apply list_elem_of_further, Hin.
    + destruct (IH Hin) as [v'' Hv]. eexists. apply list_elem_of_further, Hv.
Qed.

Lemma backup_loop fs available :
  readable fs →
  ∀ acc w, files w = fs →
  ∃ entries w',
    for_each available
      (λ entries year,
         data <- load_data year ;; ret (odict_set (PyStr.str year) data entries))
      acc w
    = Returns entries w'
    ∧ files w' = fs
    ∧ (∀ k d, (k, d) ∈ entries →
         (k, d) ∈ acc
         ∨ ∃ y r wa wb, y ∈ available ∧ k = PyStr.str y ∧ d = YDict r
                        ∧ files wa = fs ∧ load_data y wa = Returns (YDict r) wb)
    ∧ (∀ y, y ∈ available → ∃ d, (PyStr.str y, d) ∈ entries)
    ∧ (∀ k d, (k, d) ∈ acc → ∃ d', (k, d') ∈ entries).
Proof.
  intros Hread. induction available as [|y ys IH]; intros acc w Hfs.
  - exists acc, w. split; [done |]. split; [done |].
    split; [by left |]. split; [by intros y ?%elem_of_nil | eauto].
  - rewrite for_each_cons. unfold bind at 1.
    destruct (load_data_readable y w) as (r & w1 & Hload & Hfs1); [by rewrite Hfs |].
    rewrite Hload. unfold ret at 1.
    destruct (IH (odict_set (PyStr.str y) (YDict r) acc) w1) as
      (entries & w' & Hrun & Hfs' & Hfrom & Hall & Hkeep); [congruence |].
    exists entries, w'. split; [exact Hrun |]. split; [exact Hfs' |].
    split; [| split].
    + intros k d Hin. destruct (Hfrom k d Hin) as [Hacc | (y0 & r0 & wa & wb & Hy0 & Hrest)].
      * apply odict_set_elem in Hacc as [[= -> ->] | Hacc]; [| by left].
        right. exists y, r, w, w1. split; [apply list_elem_of_here | done].
      * right. exists y0, r0, wa, wb. split; [by apply list_elem_of_further | done].
    + intros y0 [-> | Hy0]%elem_of_cons; [| by apply Hall].
      apply (Hkeep _ (YDict r)), odict_set_key.
    + intros k d Hin. destruct (odict_set_keeps (PyStr.str y) (YDict r) acc k d Hin) as [d' Hd'].
      by apply (Hkeep k d').
Qed.

Lemma create_full_backup_run w :
  readable (files w) →
  ∃ entries w1,
    create_full_backup w =
      Returns (Dumped (BDict {| backup_timestamp := Some (clock w (tick w));
                                years := Some (YearsDict entries) |})) w1
    ∧ (∀ k d, (k, d) ∈ entries →
         ∃ y r wa wb, k = PyStr.str y ∧ d = YDict r
                      ∧ files wa = files w ∧ load_data y wa = Returns (YDict r) wb)
    ∧ (∀ y, is_Some (files w !! get_data_file_path y) → ∃ d, (PyStr.str y, d) ∈ entries).
Proof.
  intros Hread.
  set (available := sorted_ints (omap year_of_filename (elements (dom (files w))))).
  destruct (backup_loop (files w) available Hread []
              {| files := files w; clock := clock w; tick := S (tick w) |} eq_refl)
    as (entries & w1 & Hrun & _ & Hfrom & Hall & _).
  exists entries, w1. split; [| split].
  - unfold create_full_backup.
    erewrite bind_returns by reflexivity.
    erewrite bind_returns by apply get_available_years_run.
    erewrite bind_returns by exact Hrun.
    reflexivity.
  - intros k d Hin. destruct (Hfrom k d Hin) as [Hnil | (y & r & wa & wb & _ & Hrest)].
    + by apply elem_of_nil in Hnil.
    + by exists y, r, wa, wb.
  - intros y Hfile. apply Hall. unfold available.
    rewrite sorted_ints_perm. apply list_elem_of_omap.
    exists (get_data_file_path y). split.
    + apply elem_of_elements, elem_of_dom, Hfile.
    + apply FileNames.year_of_data_file.
Qed.

Lemma fields_eq r r' :
  fields r' = fields r →
  members r' = members r ∧ payments r' = payments r
  ∧ payment_history r' = payment_history r ∧ settings r' = settings r.
Proof. unfold fields. intros [= -> -> -> ->]. done. Qed.

(** C1 fails for a store that holds a file [load_data] does not turn into
    a dictionary.  With a JSON array as the file of 2023, the backup holds
    the array under ["2023"]; the restore into an empty directory stops
    there with the [TypeError] of [save_data], so the record of 2024, Alice
    with January paid, is not written and 2024 loads as the default record.
    With a file that is not UTF-8 no backup is made at all:
    [create_full_backup] raises. *)
Lemma round_trip_loses_year_next_to_array :
  (∃ backup w1 w2 r' wb,
     create_full_backup array_world = Returns backup w1
     ∧ restore_from_backup example_exn_text backup empty_world
       = Returns (false,
                  "Error during restore: list indices must be integers or slices, not str")
                 w2
     ∧ load_data 2024 array_world = Returns (YDict alice_paid_record) array_world
     ∧ members alice_paid_record = Some ["Alice"]
     ∧ load_data 2024 w2 = Returns (YDict r') wb
     ∧ members r' = Some []
     ∧ payments r' = Some ∅
     ∧ payment_history r' = Some [])
  ∧ ∃ w1, create_full_backup undecodable_world = Raises UnicodeDecodeError w1.
Proof.
  split.
  - eexists _, _, _, _, _.
    split; [vm_compute; reflexivity |].
    split; [vm_compute; reflexivity |].
    split; [vm_compute; reflexivity |].
    split; [reflexivity |].
    split; [vm_compute; reflexivity |].
    split; [reflexivity |]. split; reflexivity.
  - eexists. vm_compute. reflexivity.
Qed.

(** C1, amended: for a data directory whose files [load_data] can read,
    each a text that is not JSON or holds a JSON object, the text
    [create_full_backup] returns, restored by [restore_from_backup] into an
    empty directory, gives a directory in which every year loads with the
    same members, payments, payment history and settings as in the original
    one. *)
Theorem backup_restore_round_trip exn_text w fresh :
  readable (files w) →
  files fresh = ∅ →
  ∃ backup w1 result w2,
    create_full_backup w = Returns backup w1
    ∧ restore_from_backup exn_text backup fresh = Returns result w2
    ∧ ∀ y, ∃ r wa r' wb,
        load_data y w = Returns (YDict r) wa
        ∧ load_data y w2 = Returns (YDict r') wb
        ∧ members r' = members r
        ∧ payments r' = payments r
        ∧ payment_history r' = payment_history r
        ∧ settings r' = settings r.
Proof.
  intros Hread Hfresh.
  destruct (create_full_backup_run w Hread) as (entries & w1 & Hbackup & Hfrom & Hall).
  assert (Hok : Forall entry_ok entries).
  { apply Forall_forall. intros [k d] Hin.
    destruct (Hfrom k d Hin) as (y & r & _ & _ & _ & -> & _). right. by exists r. }
  eexists _, w1, _, (restored_world entries fresh).
  split; [exact Hbackup |].
  split; [by apply restore_from_backup_entries |].
  intros y.
  destruct (load_data_readable y w Hread) as (r & wa & Hload & _).
  pose proof (restored_world_file entries fresh y) as Hfile.
  destruct (last_record y entries) as [r'|] eqn:Hlast.
  - destruct Hfile as [stamp Hfile].
    destruct (last_record_some y entries r' Hlast) as (k & Hin & Hk).
    destruct (Hfrom k _ Hin) as (y0 & r0 & wb & wc & -> & [= <-] & Hfs & Hload0).
    rewrite PyStrFacts.int_str in Hk. injection Hk as ->.
    exists r, wa, (set_updated_at (Some stamp) r'), (restored_world entries fresh).
    split; [exact Hload |]. split; [by apply load_data_dumped |].
    apply (fields_eq r (set_updated_at (Some stamp) r')).
    change (fields (set_updated_at (Some stamp) r')) with (fields r').
    by apply (load_data_fields_stable y wb w r' r wc wa).
  - rewrite Hfresh, lookup_empty in Hfile.
    eexists r, wa, _, _. split; [exact Hload |].
    split; [by apply load_data_missing |].
    apply fields_eq.
    destruct (load_data_cases y w) as [(c & u & Hl & _) | [(v & Hl & Hf) | [Hl _]]];
      rewrite Hl in Hload; inversion Hload; subst; [reflexivity |].
    destruct (Hall y) as [d Hd]; [by rewrite Hf |].
    destruct (Hfrom _ _ Hd) as (y0 & r0 & _ & _ & _ & -> & _).
    exfalso. apply (last_record_none y entries _ r0 Hlast Hd), PyStrFacts.int_str.
Qed.

Lemma backup_restore_round_trip_witness :
  ∃ backup w1 result w2 r' wb,
    create_full_backup alice_paid_world = Returns backup w1
    ∧ restore_from_backup example_exn_text backup empty_world = Returns result w2
    ∧ load_data 2024 w2 = Returns (YDict r') wb
    ∧ members r' = Some ["Alice"]
    ∧ payments r' = Some {["Alice" := {["Jan" := true]}]}.
Proof.
  assert (Hread : readable (files alice_paid_world)).
  { intros p f Hf. unfold alice_paid_world in Hf. cbn [files] in Hf.
    apply lookup_singleton_Some in Hf as [_ <-]. right. by eexists. }
  destruct (backup_restore_round_trip example_exn_text alice_paid_world empty_world
              Hread eq_refl)
    as (backup & w1 & result & w2 & Hbackup & Hrestore & Hyears).
  destruct (Hyears 2024) as (r & wa & r' & wb & Hload & Hload' & Hm & Hp & _).
  assert (Hl0 : load_data 2024 alice_paid_world
                = Returns (YDict alice_paid_record) alice_paid_world)
    by (vm_compute; reflexivity).
  assert (Hr : r = alice_paid_record) by congruence.
  exists backup, w1, result, w2, r', wb.
  split; [exact Hbackup |].
  split; [exact Hrestore |].
  split; [exact Hload' |].
  split; [rewrite Hm, Hr; reflexivity | rewrite Hp, Hr; reflexivity].
Defined.

(** ** Every method keeps the directory readable

    The hypothesis of the round trip is an invariant of the data manager: a
    file is only ever written by [save_data], and [save_data] writes
    dictionaries. *)

Create HintDb keeps.

Lemma keeps_ret {A} (a : A) : keeps_readable (ret a).
Proof. by intros w Hw. Qed.

Lemma keeps_raise {A} e : keeps_readable (@raise A e).
Proof. by intros w Hw. Qed.

Lemma keeps_bind {A B} (m : M A) (k : A → M B) :
  keeps_readable m → (∀ a, keeps_readable (k a)) → keeps_readable (bind m k).
Proof.
  intros Hm Hk w Hw. unfold bind. specialize (Hm w Hw).
  destruct (m w) as [a w'|e w']; [by apply Hk | done].
Qed.

Lemma keeps_handle {A} (clauses : list (list exn * (exn → M A))) e :
  Forall (λ c, ∀ e, keeps_readable (c.2 e)) clauses → keeps_readable (handle clauses e).
Proof.
  induction 1 as [|[classes h] clauses Hh _ IH]; simpl; [apply keeps_raise |].
  destruct (existsb (isinstance e) classes); [apply Hh | exact IH].
Qed.

Lemma keeps_try_except {A} (m : M A) clauses :
  keeps_readable m →
  Forall (λ c, ∀ e, keeps_readable (c.2 e)) clauses →
  keeps_readable (try_except m clauses).
Proof.
  intros Hm Hc w Hw. unfold try_except. specialize (Hm w Hw).
  destruct (m w) as [a w'|e w']; [done | by apply keeps_handle].
Qed.

Lemma keeps_for_each {A B} (l : list B) (body : A → B → M A) acc :
  (∀ acc x, keeps_readable (body acc x)) → keeps_readable (for_each l body acc).
Proof.
  intros Hbody. revert acc. induction l as [|x l IH]; intros acc; simpl.
  - apply keeps_ret.
  - apply keeps_bind; [apply Hbody | exact IH].
Qed.

Lemma keeps_now : keeps_readable now.
Proof. by intros w Hw. Qed.

Lemma keeps_path_exists path : keeps_readable (path_exists path).
Proof. by intros w Hw. Qed.

Lemma keeps_listdir : keeps_readable listdir.
Proof. by intros w Hw. Qed.

Lemma keeps_json_loads {A} (t : text A) : keeps_readable (json_loads t).
Proof. destruct t; [apply keeps_raise | apply keeps_ret]. Qed.

Lemma keeps_read_json path : keeps_readable (read_json path).
Proof.
  intros w Hw. unfold read_json.
  destruct (files w !! path) as [[|t]|]; [done | | done].
  by apply keeps_json_loads.
Qed.

Lemma keeps_subscript {A} (field : YearRecord → option A) data :
  keeps_readable (subscript field data).
Proof.
  destruct data as [r|v]; simpl; [| apply keeps_raise].
  destruct (field r); [apply keeps_ret | apply keeps_raise].
Qed.

Lemma keeps_dict_get {A} (field : YearRecord → option A) dflt data :
  keeps_readable (dict_get field dflt data).
Proof. destruct data; [apply keeps_ret | apply keeps_raise]. Qed.

Lemma keeps_setitem set data : keeps_readable (setitem set data).
Proof. destruct data; [apply keeps_ret | apply keeps_raise]. Qed.

Lemma keeps_json_contains key v : keeps_readable (json_contains key v).
Proof. destruct v; simpl; first [apply keeps_ret | apply keeps_raise]. Qed.

Lemma keeps_has_key {A} key (field : YearRecord → option A) data :
  keeps_readable (has_key key field data).
Proof. destruct data; [apply keeps_ret | apply keeps_json_contains]. Qed.

Lemma keeps_py_int s : keeps_readable (py_int s).
Proof. unfold py_int. destruct (PyStr.int s); [apply keeps_ret | apply keeps_raise]. Qed.

Lemma keeps_truediv x y : keeps_readable (truediv x y).
Proof.
  unfold truediv. destruct (PrimFloat.eqb y 0); [apply keeps_raise | apply keeps_ret].
Qed.

Lemma readable_empty : readable ∅.
Proof. intros p f Hf. by rewrite lookup_empty in Hf. Qed.

Lemma readable_saved year r w : readable (files w) → readable (files (saved year r w)).
Proof.
  intros Hw p f. simpl. destruct (decide (get_data_file_path year = p)) as [<- | Hne].
  - rewrite lookup_insert_eq. intros [= <-]. right. by eexists.
  - rewrite lookup_insert_ne by done. apply Hw.
Qed.

Lemma keeps_save_data year data : keeps_readable (save_data year data).
Proof.
  intros w Hw. destruct data as [r|v].
  - rewrite save_data_dict. by apply readable_saved.
  - rewrite save_data_other. exact Hw.
Qed.

Lemma keeps_load_data year : keeps_readable (load_data year).
Proof.
  intros w Hw.
  destruct (load_data_cases year w) as [(c & u & Hl & _) | [(v & Hl & _) | [Hl _]]];
    rewrite Hl; exact Hw.
Qed.

#[global] Hint Resolve keeps_ret keeps_raise keeps_now keeps_path_exists keeps_listdir
  keeps_json_loads keeps_read_json keeps_subscript keeps_dict_get keeps_setitem
  keeps_json_contains keeps_has_key keeps_py_int keeps_truediv keeps_save_data
  keeps_load_data : keeps.

Ltac keeps_step :=
  match goal with
  | |- keeps_readable (bind _ _) => apply keeps_bind; [| intros ?]
  | |- keeps_readable (try_except _ _) =>
      apply keeps_try_except; [| repeat (apply List.Forall_cons; [intros ?; simpl |]);
                                 try apply List.Forall_nil]
  | |- keeps_readable (for_each _ _ _) => apply keeps_for_each; intros ? ?
  | |- keeps_readable (if ?b then _ else _) => destruct b
  | |- keeps_readable (match ?x with _ => _ end) => destruct x
  | |- keeps_readable _ => solve [auto with keeps]
  end.

Ltac keeps := repeat keeps_step.

Lemma keeps_get_available_years : keeps_readable get_available_years.
Proof. unfold get_available_years. keeps. Qed.

#[global] Hint Resolve keeps_get_available_years : keeps.

(** Each method of the data manager keeps the directory readable. *)
Theorem methods_keep_readable exn_text :
  (∀ y, keeps_readable (load_data y))
  ∧ (∀ y d, keeps_readable (save_data y d))
  ∧ keeps_readable get_available_years
  ∧ (∀ s t, keeps_readable (copy_members_from_year s t))
  ∧ (∀ y n, keeps_readable (add_member y n))
  ∧ (∀ y n, keeps_readable (remove_member y n))
  ∧ (∀ y n mo paid, keeps_readable (update_payment y n mo paid))
  ∧ (∀ y price slots, keeps_readable (update_settings y price slots))
  ∧ (∀ y n, keeps_readable (get_member_payments y n))
  ∧ (∀ y n months paid, keeps_readable (bulk_update_payments y n months paid))
  ∧ (∀ y n limit, keeps_readable (get_payment_history y n limit))
  ∧ (∀ y, keeps_readable (get_payment_summary y))
  ∧ keeps_readable create_full_backup
  ∧ (∀ t, keeps_readable (restore_from_backup exn_text t)).
Proof.
  repeat split; intros.
  - apply keeps_load_data.
  - apply keeps_save_data.
  - apply keeps_get_available_years.
  - unfold copy_members_from_year. keeps.
  - unfold add_member. keeps.
  - unfold remove_member. keeps.
  - unfold update_payment. keeps.
  - unfold update_settings. keeps.
  - unfold get_member_payments. keeps.
  - unfold bulk_update_payments. keeps.
  - unfold get_payment_history. keeps.
  - unfold get_payment_summary. keeps.
  - unfold create_full_backup. keeps.
  - unfold restore_from_backup, restore_entry, has_years, subscript_years, items. keeps.
Qed.

(** * Further properties of the data manager *)

(** ** Saving, loading and creating a year *)

(** [save_data] followed by [load_data] of the same year returns the saved
    dictionary with ["updated_at"] set to the time of the save; the files of
    the other years are left as they were. *)
Theorem save_then_load year r w :
  ∃ w',
    save_data year (YDict r) w = Returns tt w'
    ∧ load_data year w' = Returns (YDict (set_updated_at (Some (clock w (tick w))) r)) w'
    ∧ ∀ other, other ≠ year →
        files w' !! get_data_file_path other = files w !! get_data_file_path other.
Proof.
  exists (saved year r w). split; [apply save_data_dict |].
  split; [apply load_data_saved |].
  intros other Hne. simpl. rewrite lookup_insert_ne; [done |].
  intros Heq%get_data_file_path_inj. congruence.
Qed.

(** For a year whose file is missing, or is text that is not JSON,
    [load_data] returns the default record and leaves the directory as it
    is: the file is neither created nor repaired. *)
Theorem load_data_default_leaves_directory year w :
  files w !! get_data_file_path year = None
  ∨ files w !! get_data_file_path year = Some (Utf8 Garbled) →
  ∃ created updated w',
    load_data year w =
      Returns (YDict {| year := Some year;
                        members := Some [];
                        payments := Some ∅;
                        payment_history := Some [];
                        settings := Some {| total_price := Some 100%float;
                                            max_slots := Some 10 |};
                        created_at := Some created;
                        updated_at := Some updated |}) w'
    ∧ files w' = files w.
Proof.
  intros [Hfile | Hfile]; eexists _, _, _;
    (split; [first [by apply load_data_missing | by apply load_data_garbled] | done]).
Qed.

Lemma load_data_default_leaves_directory_witness :
  ∃ created updated w',
    load_data 2030 alice_world =
      Returns (YDict (default_record 2030 created updated)) w'
    ∧ files w' !! get_data_file_path 2030 = None.
Proof.
  destruct (load_data_default_leaves_directory 2030 alice_world)
    as (created & updated & w' & Hload & Hfiles).
  - left. vm_compute. reflexivity.
  - exists created, updated, w'. split; [exact Hload |].
    rewrite Hfiles. vm_compute. reflexivity.
Defined.

(** [save_data] is [save_data_in_place] with the dictionary dropped. *)
Lemma save_data_in_place_save_data year data w :
  save_data year data w = bind (save_data_in_place year data) (λ _, ret tt) w.
Proof. by destruct data. Qed.

Lemma save_data_in_place_dict year r w :
  save_data_in_place year (YDict r) w =
    Returns (YDict (set_updated_at (Some (clock w (tick w))) r)) (saved year r w).
Proof. reflexivity. Qed.

Lemma insert_sorted_head n m l :
  (m ≤ n)%Z → HdRel Z.le m l → HdRel Z.le m (insert_sorted n l).
Proof.
  intros Hmn Hl. destruct l as [|k l]; simpl; [by constructor |].
  destruct (n <=? k)%Z; constructor; [done |]. by inversion Hl.
Qed.

Lemma insert_sorted_sorted n l : Sorted Z.le l → Sorted Z.le (insert_sorted n l).
Proof.
  induction 1 as [|m l Hsorted IH Hhd]; simpl; [by repeat constructor |].
  destruct (Z.leb_spec n m) as [Hle | Hlt].
  - constructor; [by constructor |]. by constructor.
  - constructor; [exact IH |]. apply insert_sorted_head; [lia | exact Hhd].
Qed.

Lemma sorted_ints_sorted l : Sorted Z.le (sorted_ints l).
Proof.
  induction l as [|n l IH]; [constructor |].
  unfold sorted_ints in *. simpl. by apply insert_sorted_sorted.
Qed.

(** [get_available_years] changes nothing and returns an ascending list.
    Every year that has a data file is in it, and every year in it is read
    off the name of some file of the directory. *)
Theorem get_available_years_listing w :
  ∃ listed,
    get_available_years w = Returns listed w
    ∧ Sorted Z.le listed
    ∧ (∀ y, is_Some (files w !! get_data_file_path y) → y ∈ listed)
    ∧ (∀ y, y ∈ listed →
         ∃ name, is_Some (files w !! name)
                 ∧ PyStr.startswith name "subscription_data_" = true
                 ∧ PyStr.endswith name ".json" = true
                 ∧ PyStr.int (PyStr.remove (PyStr.remove name "subscription_data_") ".json")
                   = Some y).
Proof.
  eexists. split; [apply get_available_years_run |].
  split; [apply sorted_ints_sorted |]. split.
  - intros y Hfile. rewrite sorted_ints_perm. apply list_elem_of_omap.
    exists (get_data_file_path y). split.
    + by apply elem_of_elements, elem_of_dom.
    + apply FileNames.year_of_data_file.
  - intros y Hy. rewrite sorted_ints_perm in Hy.
    apply list_elem_of_omap in Hy as (name & Hname & Hyear).
    exists name. split; [by apply elem_of_dom, elem_of_elements |].
    unfold year_of_filename in Hyear.
    destruct (PyStr.startswith name "subscription_data_") eqn:Hs; [| done].
    destruct (PyStr.endswith name ".json") eqn:He; [| done].
    done.
Qed.

(** [create_year_data] saves what [load_data] returns, with ["updated_at"]
    stamped: the default record for a year without a file, the existing
    record, not a fresh one, for a year that has one.  It returns the
    dictionary it stored, and the year is listed afterwards. *)
Theorem create_year_data_effect year w r w1 :
  load_data year w = Returns (YDict r) w1 →
  ∃ stamp w2 listed,
    create_year_data year w = Returns (YDict (set_updated_at (Some stamp) r)) w2
    ∧ load_data year w2 = Returns (YDict (set_updated_at (Some stamp) r)) w2
    ∧ get_available_years w2 = Returns listed w2
    ∧ year ∈ listed.
Proof.
  intros Hload. exists (clock w1 (tick w1)), (saved year r w1).
  eexists. split; [| split; [apply load_data_saved | split]].
  - unfold create_year_data. erewrite bind_returns by exact Hload.
    erewrite bind_returns by apply save_data_in_place_dict. reflexivity.
  - apply get_available_years_run.
  - rewrite sorted_ints_perm. apply list_elem_of_omap.
    exists (get_data_file_path year). split; [| apply FileNames.year_of_data_file].
    apply elem_of_elements, elem_of_dom. simpl. rewrite lookup_insert_eq. eauto.
Qed.

Lemma create_year_data_effect_witness :
  ∃ stamp w2 listed,
    create_year_data 2024 alice_paid_world
    = Returns (YDict (set_updated_at (Some stamp) alice_paid_record)) w2
    ∧ get_available_years w2 = Returns listed w2
    ∧ 2024 ∈ listed.
Proof.
  destruct (create_year_data_effect 2024 alice_paid_world alice_paid_record alice_paid_world)
    as (stamp & w2 & listed & Hrun & _ & Hlist & Hin).
  - vm_compute. reflexivity.
  - exists stamp, w2, listed. auto.
Defined.

(** ** Members *)

Lemma load_data_again year w r w1 :
  load_data year w = Returns (YDict r) w1 →
  ∃ r' w2, load_data year w1 = Returns (YDict r') w2 ∧ fields r' = fields r.
Proof.
  intros Hload.
  destruct (load_data_cases year w) as [(c & u & Hl & Hf) | [(v & Hl & Hf) | [Hl _]]];
    rewrite Hl in Hload; inversion Hload; subst.
  - destruct Hf as [Hf | Hf]; eexists _, _;
      (split; [first [by apply load_data_missing | by apply load_data_garbled] | done]).
  - eexists _, _. split; [exact Hl | done].
Qed.

Lemma remove_first_elem name m ms :
  m ≠ name → (m ∈ remove_first name ms ↔ m ∈ ms).
Proof.
  intros Hne. induction ms as [|x ms IH]; simpl; [done |].
  destruct (String.eqb_spec x name) as [-> | Hx].
  - rewrite elem_of_cons. intuition congruence.
  - rewrite !elem_of_cons, IH. done.
Qed.

Lemma remove_first_subset name m ms : m ∈ remove_first name ms → m ∈ ms.
Proof.
  induction ms as [|x ms IH]; simpl; [done |].
  destruct (String.eqb_spec x name) as [-> | Hx]; rewrite !elem_of_cons; intuition.
Qed.

Lemma remove_first_gone name ms : NoDup ms → name ∉ remove_first name ms.
Proof.
  induction 1 as [|x ms Hx Hnd IH]; simpl; [by intros ?%elem_of_nil |].
  destruct (String.eqb_spec x name) as [-> | Hne]; [done |].
  rewrite elem_of_cons. intuition congruence.
Qed.

Lemma remove_first_NoDup name ms : NoDup ms → NoDup (remove_first name ms).
Proof.
  induction 1 as [|x ms Hx Hnd IH]; simpl; [constructor |].
  destruct (String.eqb_spec x name) as [-> | Hne]; [done |].
  constructor; [| exact IH]. intros Hin. by apply Hx, (remove_first_subset name).
Qed.

Lemma remove_first_sublist name ms : remove_first name ms `sublist_of` ms.
Proof.
  induction ms as [|x ms IH]; simpl; [done |].
  destruct (String.eqb x name); [by apply sublist_cons | by apply sublist_skip].
Qed.

(** [add_member] keeps the members free of duplicates and keeps a payments
    entry for every member.  A new name goes to the end of the list with an
    empty payments entry, whatever flags were stored under that name before;
    the other payments entries, the history and the settings are kept. *)
Theorem add_member_keeps_invariants year name w r w1 ms ps :
  load_data year w = Returns (YDict r) w1 →
  members r = Some ms →
  payments r = Some ps →
  NoDup ms →
  (∀ m, m ∈ ms → m ∈ dom ps) →
  ∃ w2 r2 w3 ms2 ps2,
    add_member year name w = Returns tt w2
    ∧ load_data year w2 = Returns (YDict r2) w3
    ∧ members r2 = Some ms2
    ∧ payments r2 = Some ps2
    ∧ ms2 = (if bool_decide (name ∈ ms) then ms else ms ++ [name])
    ∧ NoDup ms2
    ∧ name ∈ ms2
    ∧ (∀ m, m ∈ ms2 → m ∈ dom ps2)
    ∧ (name ∉ ms → ps2 !! name = Some ∅)
    ∧ (∀ m, m ≠ name → ps2 !! m = ps !! m)
    ∧ payment_history r2 = payment_history r
    ∧ settings r2 = settings r.
Proof.
  intros Hload Hms Hps Hnd Hinv.
  pose proof (add_member_run year name w r w1 ms ps Hload Hms Hps) as Hrun.
  case_bool_decide as Hin.
  - destruct (load_data_again year w r w1 Hload) as (r' & w3 & Hload' & Hfields).
    apply fields_eq in Hfields as (Hm & Hp & Hh & Hs).
    exists w1, r', w3, ms, ps.
    split; [exact Hrun |]. split; [exact Hload' |].
    split; [by rewrite Hm |]. split; [by rewrite Hp |].
    split; [done |]. split; [done |]. split; [done |]. split; [done |].
    split; [done |]. split; [done |]. by rewrite Hh, Hs.
  - eexists _, _, _, (ms ++ [name]), (<[name := ∅]> ps).
    split; [exact Hrun |]. split; [apply load_data_saved |].
    split; [reflexivity |]. split; [reflexivity |]. split; [done |].
    split.
    { apply NoDup_app. split; [done |]. split; [| apply NoDup_singleton].
      intros m Hm ->%list_elem_of_singleton. done. }
    split; [apply elem_of_app; right; by apply list_elem_of_singleton |].
    split.
    { intros m [Hm | ->%list_elem_of_singleton]%elem_of_app; rewrite dom_insert_L.
      - apply elem_of_union_r. by apply Hinv.
      - by apply elem_of_union_l, elem_of_singleton. }
    split; [intros _; apply lookup_insert_eq |].
    split; [intros m Hne; by rewrite lookup_insert_ne | done].
Qed.

Lemma add_member_keeps_invariants_witness :
  ∃ w2 r2 w3,
    add_member 2024 "Bob" alice_paid_world = Returns tt w2
    ∧ load_data 2024 w2 = Returns (YDict r2) w3
    ∧ members r2 = Some ["Alice"; "Bob"].
Proof.
  destruct (add_member_keeps_invariants 2024 "Bob" alice_paid_world alice_paid_record
              alice_paid_world ["Alice"] {["Alice" := {["Jan" := true]}]})
    as (w2 & r2 & w3 & ms2 & ps2 & Hrun & Hload & Hms & _ & Heq & _).
  - vm_compute. reflexivity.
  - reflexivity.
  - reflexivity.
  - apply NoDup_singleton.
  - intros m ->%list_elem_of_singleton. rewrite dom_singleton_L. by apply elem_of_singleton.
  - exists w2, r2, w3. split; [exact Hrun |]. split; [exact Hload |].
    rewrite Hms, Heq. reflexivity.
Defined.

(** [remove_member] of a member takes the name out of the list, keeping the
    order of the others, deletes the member's payments entry, and leaves the
    history and the settings alone.  With a duplicate-free list the name is
    no member afterwards. *)
Theorem remove_member_effect year name w r w1 ms ps :
  load_data year w = Returns (YDict r) w1 →
  members r = Some ms →
  payments r = Some ps →
  name ∈ ms →
  ∃ w2 r2 ms2,
    remove_member year name w = Returns tt w2
    ∧ load_data year w2 = Returns (YDict r2) w2
    ∧ members r2 = Some ms2
    ∧ ms2 `sublist_of` ms
    ∧ length ms = S (length ms2)
    ∧ (∀ m, m ≠ name → (m ∈ ms2 ↔ m ∈ ms))
    ∧ (NoDup ms → (name ∉ ms2) ∧ NoDup ms2)
    ∧ payments r2 = Some (delete name ps)
    ∧ payment_history r2 = payment_history r
    ∧ settings r2 = settings r.
Proof.
  intros Hload Hms Hps Hin.
  pose proof (remove_member_run year name w r w1 ms ps Hload Hms Hps) as Hrun.
  rewrite bool_decide_eq_true_2 in Hrun by done.
  eexists _, _, (remove_first name ms).
  split; [exact Hrun |]. split; [apply load_data_saved |].
  split; [reflexivity |]. split; [apply remove_first_sublist |].
  split.
  { clear -Hin. induction ms as [|x ms IH]; [by apply elem_of_nil in Hin |].
    simpl. destruct (String.eqb_spec x name) as [-> | Hne]; [done |].
    apply elem_of_cons in Hin as [-> | Hin]; [done |]. simpl. by rewrite (IH Hin). }
  split; [intros m Hne; by apply remove_first_elem |].
  split; [intros Hnd; split; [by apply remove_first_gone | by apply remove_first_NoDup] |].
  done.
Qed.

Lemma remove_member_effect_witness :
  ∃ w2 r2,
    remove_member 2024 "Alice" alice_paid_world = Returns tt w2
    ∧ load_data 2024 w2 = Returns (YDict r2) w2
    ∧ members r2 = Some []
    ∧ payments r2 = Some ∅
    ∧ payment_history r2 = Some [change_entry "t3" "Alice" "Jan" false true].
Proof.
  destruct (remove_member_effect 2024 "Alice" alice_paid_world alice_paid_record
              alice_paid_world ["Alice"] {["Alice" := {["Jan" := true]}]})
    as (w2 & r2 & ms2 & Hrun & Hload & Hms & _ & Hlen & _ & _ & Hps & Hh & _).
  - vm_compute. reflexivity.
  - reflexivity.
  - reflexivity.
  - by apply list_elem_of_singleton.
  - exists w2, r2. split; [exact Hrun |]. split; [exact Hload |].
    split; [| split; [rewrite Hps; by rewrite delete_singleton_eq | exact Hh]].
    rewrite Hms. destruct ms2; [done | discriminate].
Defined.

(** Adding a name that is already a member, and removing one that is not,
    return without saving: no file changes, ["updated_at"] included. *)
Theorem membership_no_ops year name w r w1 ms :
  load_data year w = Returns (YDict r) w1 →
  members r = Some ms →
  (name ∈ ms → add_member year name w = Returns tt w1)
  ∧ (name ∉ ms → remove_member year name w = Returns tt w1)
  ∧ files w1 = files w.
Proof.
  intros Hload Hms. split; [| split].
  - intros Hin. unfold add_member. erewrite bind_returns by exact Hload.
    unfold bind, subscript. rewrite Hms. unfold ret. by rewrite bool_decide_eq_true_2.
  - intros Hout. unfold remove_member. erewrite bind_returns by exact Hload.
    unfold bind, subscript. rewrite Hms. unfold ret. by rewrite bool_decide_eq_false_2.
  - by apply (load_data_files year w (YDict r)).
Qed.

Lemma membership_no_ops_witness :
  add_member 2024 "Alice" alice_paid_world = Returns tt alice_paid_world
  ∧ remove_member 2024 "Bob" alice_paid_world = Returns tt alice_paid_world.
Proof.
  destruct (membership_no_ops 2024 "Alice" alice_paid_world alice_paid_record
              alice_paid_world ["Alice"]) as (Hadd & _ & _);
    [vm_compute; reflexivity | reflexivity |].
  destruct (membership_no_ops 2024 "Bob" alice_paid_world alice_paid_record
              alice_paid_world ["Alice"]) as (_ & Hrem & _);
    [vm_compute; reflexivity | reflexivity |].
  split.
  - apply Hadd. by apply list_elem_of_singleton.
  - apply Hrem. intros Hin%list_elem_of_singleton. discriminate.
Defined.

(** ** Payment flags *)

Lemma with_flag_other_member name mo paid (ps : gmap string (gmap string bool)) other :
  other ≠ name → with_flag name mo paid ps !! other = ps !! other.
Proof. intros Hne. unfold with_flag. by rewrite lookup_insert_ne. Qed.

Lemma with_flag_member name mo paid (ps : gmap string (gmap string bool)) :
  with_flag name mo paid ps !! name = Some (<[mo := paid]> (default ∅ (ps !! name))).
Proof. unfold with_flag. by rewrite lookup_insert_eq. Qed.

Lemma stored_flag_with_flag r r2 name mo paid ps n' mo' :
  payments r = Some ps →
  payments r2 = Some (with_flag name mo paid ps) →
  (n', mo') ≠ (name, mo) →
  stored_flag r2 n' mo' = stored_flag r n' mo'.
Proof.
  intros Hps Hps2 Hne. unfold stored_flag. rewrite Hps, Hps2. simpl.
  destruct (decide (n' = name)) as [-> | Hn].
  - rewrite with_flag_member. simpl.
    rewrite lookup_insert_ne by congruence.
    destruct (ps !! name); simpl; [done | by rewrite lookup_empty].
  - by rewrite with_flag_other_member.
Qed.

(** [update_payment] touches one flag: the flags of every other member and
    month, the members list and the settings are as before. *)
Theorem update_payment_frame year name mo paid w r w1 :
  load_data year w = Returns (YDict r) w1 →
  is_Some (payments r) →
  ∃ w2 r2,
    update_payment year name mo paid w = Returns tt w2
    ∧ load_data year w2 = Returns (YDict r2) w2
    ∧ (∀ n' mo', (n', mo') ≠ (name, mo) → stored_flag r2 n' mo' = stored_flag r n' mo')
    ∧ members r2 = members r
    ∧ settings r2 = settings r.
Proof.
  intros Hload [ps Hps].
  eexists _, _. split; [exact (update_payment_run _ _ _ _ _ _ _ _ Hload Hps) |].
  split; [apply load_data_saved |].
  split; [| unfold paid_record; case_bool_decide; done].
  intros n' mo' Hne.
  apply (stored_flag_with_flag r _ name mo paid ps); [done | | done].
  reflexivity.
Qed.

Lemma update_payment_frame_witness :
  ∃ w2 r2,
    update_payment 2024 "Alice" "Feb" true alice_paid_world = Returns tt w2
    ∧ load_data 2024 w2 = Returns (YDict r2) w2
    ∧ stored_flag r2 "Alice" "Jan" = Some true
    ∧ members r2 = Some ["Alice"].
Proof.
  destruct (update_payment_frame 2024 "Alice" "Feb" true alice_paid_world
              alice_paid_record alice_paid_world)
    as (w2 & r2 & Hrun & Hload & Hframe & Hms & _).
  - vm_compute. reflexivity.
  - simpl. eauto.
  - exists w2, r2. split; [exact Hrun |]. split; [exact Hload |].
    split; [| exact Hms]. rewrite Hframe by discriminate. reflexivity.
Defined.

Lemma get_member_payments_run year name w r w1 :
  load_data year w = Returns (YDict r) w1 →
  get_member_payments year name w =
    Returns (default ∅ (default ∅ (payments r) !! name)) w1.
Proof.
  intros Hload. unfold get_member_payments. erewrite bind_returns by exact Hload.
  reflexivity.
Qed.

(** What [update_payment] writes, [get_member_payments] reads back: the
    member's flags as they were, with the month set to the new value.  A
    member without a payments entry has the empty mapping to start from. *)
Theorem get_member_payments_after_update year name mo paid w r w1 ps :
  load_data year w = Returns (YDict r) w1 →
  payments r = Some ps →
  ∃ w2 before,
    get_member_payments year name w = Returns before w1
    ∧ before = default ∅ (ps !! name)
    ∧ update_payment year name mo paid w = Returns tt w2
    ∧ get_member_payments year name w2 = Returns (<[mo := paid]> before) w2.
Proof.
  intros Hload Hps. eexists _, (default ∅ (ps !! name)).
  split; [rewrite (get_member_payments_run _ _ _ _ _ Hload); by rewrite Hps |].
  split; [done |].
  split; [exact (update_payment_run _ _ _ _ _ _ _ _ Hload Hps) |].
  rewrite (get_member_payments_run year name _ _ _ (load_data_saved _ _ _)).
  f_equal.
  change (payments (set_updated_at _ (paid_record name mo paid _ ps r)))
    with (Some (with_flag name mo paid ps)).
  simpl. by rewrite with_flag_member.
Qed.

Lemma get_member_payments_after_update_witness :
  ∃ w2,
    update_payment 2024 "Alice" "Feb" true alice_paid_world = Returns tt w2
    ∧ get_member_payments 2024 "Alice" w2
      = Returns (<["Feb" := true]> {["Jan" := true]}) w2.
Proof.
  destruct (get_member_payments_after_update 2024 "Alice" "Feb" true alice_paid_world
              alice_paid_record alice_paid_world {["Alice" := {["Jan" := true]}]})
    as (w2 & before & _ & Hbefore & Hrun & Hget).
  - vm_compute. reflexivity.
  - reflexivity.
  - exists w2. split; [exact Hrun |]. rewrite Hget, Hbefore. reflexivity.
Defined.

Lemma foldl_with_flag_other name paid months (ps : gmap string (gmap string bool)) other :
  other ≠ name →
  foldl (λ ps mo, with_flag name mo paid ps) ps months !! other = ps !! other.
Proof.
  intros Hne. revert ps. induction months as [|mo months IH]; intros ps; simpl; [done |].
  by rewrite IH, with_flag_other_member.
Qed.

Lemma foldl_with_flag_member name paid months (ps : gmap string (gmap string bool)) mp :
  ps !! name = Some mp →
  foldl (λ ps mo, with_flag name mo paid ps) ps months !! name
  = Some (foldl (λ mp mo, <[mo := paid]> mp) mp months).
Proof.
  revert ps mp. induction months as [|mo months IH]; intros ps mp Hmp; simpl; [done |].
  rewrite (IH _ (<[mo := paid]> mp)); [done |].
  by rewrite with_flag_member, Hmp.
Qed.

Lemma foldl_insert_flag paid months (mp : gmap string bool) mo :
  foldl (λ mp mo, <[mo := paid]> mp) mp months !! mo
  = if bool_decide (mo ∈ months) then Some paid else mp !! mo.
Proof.
  revert mp. induction months as [|x months IH]; intros mp; simpl; [done |].
  rewrite IH. destruct (decide (mo = x)) as [-> | Hne].
  - rewrite (bool_decide_eq_true_2 (x ∈ x :: months)) by apply list_elem_of_here.
    rewrite lookup_insert_eq. by case_bool_decide.
  - rewrite lookup_insert_ne by done.
    case_bool_decide as Hin.
    + by rewrite bool_decide_eq_true_2 by (by apply list_elem_of_further).
    + rewrite bool_decide_eq_false_2; [done |].
      intros [? | ?]%elem_of_cons; done.
Qed.

Lemma bulk_flags_lookup name months paid (ps : gmap string (gmap string bool)) :
  bulk_flags name months paid ps !! name
  = Some (foldl (λ mp mo, <[mo := paid]> mp) (default ∅ (ps !! name)) months).
Proof.
  unfold bulk_flags. apply foldl_with_flag_member.
  case_bool_decide as Hin.
  - apply elem_of_dom in Hin as [mp Hmp]. by rewrite Hmp.
  - apply not_elem_of_dom in Hin. by rewrite lookup_insert_eq, Hin.
Qed.

Lemma bulk_flags_other name months paid (ps : gmap string (gmap string bool)) other :
  other ≠ name → bulk_flags name months paid ps !! other = ps !! other.
Proof.
  intros Hne. unfold bulk_flags. rewrite foldl_with_flag_other by done.
  case_bool_decide; [done | by rewrite lookup_insert_ne].
Qed.

(** [bulk_update_payments] sets the flags of the listed months of the one
    member and no other flag; members, history and settings are kept. *)
Theorem bulk_update_payments_effect year name months paid w r w1 :
  load_data year w = Returns (YDict r) w1 →
  is_Some (payments r) →
  ∃ w2 r2,
    bulk_update_payments year name months paid w = Returns tt w2
    ∧ load_data year w2 = Returns (YDict r2) w2
    ∧ (∀ mo, mo ∈ months → stored_flag r2 name mo = Some paid)
    ∧ (∀ mo, mo ∉ months → stored_flag r2 name mo = stored_flag r name mo)
    ∧ (∀ other mo, other ≠ name → stored_flag r2 other mo = stored_flag r other mo)
    ∧ members r2 = members r
    ∧ payment_history r2 = payment_history r
    ∧ settings r2 = settings r.
Proof.
  intros Hload [ps Hps].
  eexists _, _. split; [exact (bulk_update_payments_run _ _ _ _ _ _ _ _ Hload Hps) |].
  split; [apply load_data_saved |].
  assert (Hflag : ∀ n' mo,
             stored_flag (set_updated_at (Some (clock w1 (tick w1)))
                            (set_payments (Some (bulk_flags name months paid ps)) r)) n' mo
             = bulk_flags name months paid ps !! n' ≫= (.!! mo)) by reflexivity.
  split; [| split; [| split; [| done]]].
  - intros mo Hin. rewrite Hflag, bulk_flags_lookup. simpl.
    rewrite foldl_insert_flag. by rewrite bool_decide_eq_true_2.
  - intros mo Hout. rewrite Hflag, bulk_flags_lookup. simpl.
    rewrite foldl_insert_flag, bool_decide_eq_false_2 by done.
    unfold stored_flag. rewrite Hps. simpl.
    destruct (ps !! name); simpl; [done | by rewrite lookup_empty].
  - intros other mo Hne. rewrite Hflag, bulk_flags_other by done.
    unfold stored_flag. by rewrite Hps.
Qed.

Lemma bulk_update_payments_effect_witness :
  ∃ w2 r2,
    bulk_update_payments 2024 "Alice" ["Nov"; "Dec"] true alice_paid_world = Returns tt w2
    ∧ load_data 2024 w2 = Returns (YDict r2) w2
    ∧ stored_flag r2 "Alice" "Nov" = Some true
    ∧ stored_flag r2 "Alice" "Jan" = Some true
    ∧ stored_flag r2 "Alice" "Feb" = None.
Proof.
  destruct (bulk_update_payments_effect 2024 "Alice" ["Nov"; "Dec"] true alice_paid_world
              alice_paid_record alice_paid_world)
    as (w2 & r2 & Hrun & Hload & Hin & Hout & _).
  - vm_compute. reflexivity.
  - simpl. eauto.
  - exists w2, r2. split; [exact Hrun |]. split; [exact Hload |].
    split; [apply Hin, list_elem_of_here |].
    split; rewrite Hout; try reflexivity;
      intros [[=] | [[=] | []%elem_of_nil]%elem_of_cons]%elem_of_cons.
Defined.

(** ** Settings and missing keys *)

(** [update_settings] replaces both settings and nothing else. *)
Theorem update_settings_effect year price slots w r w1 :
  load_data year w = Returns (YDict r) w1 →
  is_Some (settings r) →
  ∃ w2 r2,
    update_settings year price slots w = Returns tt w2
    ∧ load_data year w2 = Returns (YDict r2) w2
    ∧ settings r2 = Some {| total_price := Some price; max_slots := Some slots |}
    ∧ members r2 = members r
    ∧ payments r2 = payments r
    ∧ payment_history r2 = payment_history r.
Proof.
  intros Hload [s Hs].
  exists (saved year (set_settings (Some {| total_price := Some price;
                                            max_slots := Some slots |}) r) w1).
  eexists. split; [| split; [apply load_data_saved | done]].
  unfold update_settings. erewrite bind_returns by exact Hload.
  unfold bind, subscript. rewrite Hs. reflexivity.
Qed.

Lemma update_settings_effect_witness :
  ∃ w2 r2,
    update_settings 2024 120%float 6 alice_paid_world = Returns tt w2
    ∧ load_data 2024 w2 = Returns (YDict r2) w2
    ∧ settings r2 = Some {| total_price := Some 120%float; max_slots := Some 6 |}
    ∧ members r2 = Some ["Alice"].
Proof.
  destruct (update_settings_effect 2024 120%float 6 alice_paid_world alice_paid_record
              alice_paid_world)
    as (w2 & r2 & Hrun & Hload & Hs & Hms & _).
  - vm_compute. reflexivity.
  - simpl. eauto.
  - exists w2, r2. auto.
Defined.

(** The operations that subscript the loaded dictionary raise [KeyError]
    when the key is not there, and have written nothing by then: the members
    operations need ["members"], the payment operations ["payments"],
    [update_settings] needs ["settings"]. *)
Theorem missing_key_raises year name mo months paid price slots w r w1 :
  load_data year w = Returns (YDict r) w1 →
  (members r = None →
     add_member year name w = Raises KeyError w1
     ∧ remove_member year name w = Raises KeyError w1)
  ∧ (payments r = None →
       update_payment year name mo paid w = Raises KeyError w1
       ∧ bulk_update_payments year name months paid w = Raises KeyError w1)
  ∧ (settings r = None → update_settings year price slots w = Raises KeyError w1)
  ∧ files w1 = files w.
Proof.
  intros Hload. split; [| split; [| split]].
  - intros Hnone. split.
    + unfold add_member. erewrite bind_returns by exact Hload.
      unfold bind, subscript. by rewrite Hnone.
    + unfold remove_member. erewrite bind_returns by exact Hload.
      unfold bind, subscript. by rewrite Hnone.
  - intros Hnone. split.
    + unfold update_payment. erewrite bind_returns by exact Hload.
      unfold bind, subscript. by rewrite Hnone.
    + unfold bulk_update_payments. erewrite bind_returns by exact Hload.
      unfold bind, subscript. by rewrite Hnone.
  - intros Hnone. unfold update_settings. erewrite bind_returns by exact Hload.
    unfold bind, subscript. by rewrite Hnone.
  - by apply (load_data_files year w (YDict r)).
Qed.

Lemma missing_key_raises_witness :
  add_member 2024 "Alice" bare_world = Raises KeyError bare_world
  ∧ update_payment 2024 "Alice" "Jan" true bare_world = Raises KeyError bare_world
  ∧ update_settings 2024 120%float 6 bare_world = Raises KeyError bare_world.
Proof.
  destruct (missing_key_raises 2024 "Alice" "Jan" ["Jan"] true 120%float 6
              bare_world bare_record bare_world)
    as (Hms & Hps & Hs & _).
  - vm_compute. reflexivity.
  - split; [apply Hms; reflexivity |].
    split; [apply Hps; reflexivity | apply Hs; reflexivity].
Defined.

(** ** Reading the history: limit, order, filter *)

Lemma Sorted_take {A} (R : A → A → Prop) n (l : list A) :
  Sorted R l → Sorted R (take n l).
Proof.
  intros Hl. revert n. induction Hl as [|x l Hl IH Hhd]; intros [|n]; simpl;
    try constructor; [apply IH |].
  destruct Hhd as [|y l' Hxy]; [destruct n; constructor |].
  destruct n; simpl; by constructor.
Qed.

Lemma slice_to_take {A} n (l : list A) :
  ∃ k, slice_to n l = take k l
       ∧ k = (if (0 <=? n)%Z then Z.to_nat n else length l - Z.to_nat (- n))%nat.
Proof. unfold slice_to. destruct (0 <=? n)%Z; eexists; done. Qed.

(** A limit cuts the history after sorting: the limited result is a prefix
    of the unlimited one.  A positive limit keeps that many entries, or all
    if there are fewer; zero keeps all; a negative limit [-k] drops the last
    [k] entries, the oldest ones. *)
Theorem get_payment_history_limit year name n w r w1 :
  load_data year w = Returns (YDict r) w1 →
  ∃ full limited,
    get_payment_history year name None w = Returns full w1
    ∧ get_payment_history year name (Some n) w = Returns limited w1
    ∧ limited `prefix_of` full
    ∧ length limited =
        (if (n =? 0)%Z then length full
         else if (0 <? n)%Z then Z.to_nat n `min` length full
         else length full - Z.to_nat (- n))%nat.
Proof.
  intros Hload.
  rewrite !(get_payment_history_run _ _ _ _ _ _ Hload). simpl.
  set (full := sorted_desc (selected name (history_of r))).
  eexists full, _. split; [reflexivity |]. split; [reflexivity |].
  destruct (Z.eqb_spec n 0) as [-> | Hn]; simpl; [done |].
  unfold slice_to. destruct (Z.leb_spec 0 n) as [Hpos | Hneg].
  - rewrite (proj2 (Z.ltb_lt 0 n)) by lia.
    split; [apply prefix_take | apply length_take].
  - rewrite (proj2 (Z.ltb_ge 0 n)) by lia.
    split; [apply prefix_take |]. rewrite length_take. lia.
Qed.

Lemma get_payment_history_limit_witness :
  ∃ full limited,
    get_payment_history 2024 None None alice_paid_world = Returns full alice_paid_world
    ∧ get_payment_history 2024 None (Some (-1)) alice_paid_world
      = Returns limited alice_paid_world
    ∧ length full = 1%nat
    ∧ length limited = 0%nat.
Proof.
  destruct (get_payment_history_limit 2024 None (-1) alice_paid_world alice_paid_record
              alice_paid_world)
    as (full & limited & Hfull & Hlim & _ & Hlen).
  - vm_compute. reflexivity.
  - assert (Hone : length full = 1%nat).
    { assert (Hrun : get_payment_history 2024 None None alice_paid_world
                     = Returns [change_entry "t3" "Alice" "Jan" false true] alice_paid_world)
        by (vm_compute; reflexivity).
      rewrite Hrun in Hfull. by injection Hfull as <-. }
    exists full, limited. split; [exact Hfull |]. split; [exact Hlim |].
    split; [exact Hone |]. rewrite Hlen, Hone. reflexivity.
Defined.

(** The history comes newest first, whatever the limit, and holds stored
    entries only.  With a member filter every entry returned is the
    member's; without a limit, all of the member's entries are returned.  The
    empty string as filter is no filter. *)
Theorem get_payment_history_order_and_filter year name limit w r w1 :
  load_data year w = Returns (YDict r) w1 →
  ∃ l,
    get_payment_history year name limit w = Returns l w1
    ∧ Sorted not_before l
    ∧ (∀ h, h ∈ l → h ∈ history_of r ∧ (truthy_str name = true → member h = name))
    ∧ (truthy_int limit = false →
       ∀ h, h ∈ history_of r → (truthy_str name = true → member h = name) → h ∈ l)
    ∧ (name = Some "" → truthy_int limit = false → l ≡ₚ history_of r).
Proof.
  intros Hload. rewrite (get_payment_history_run _ _ _ _ _ _ Hload).
  set (full := sorted_desc (selected name (history_of r))).
  assert (Hfull : ∀ h, h ∈ full ↔
                       h ∈ history_of r ∧ (truthy_str name = true → member h = name)).
  { intros h. unfold full. rewrite sorted_desc_perm. apply selected_elem. }
  eexists. split; [reflexivity |].
  destruct (truthy_int limit) eqn:Hlimit.
  - destruct (slice_to_take (default 0 limit) full) as (k & -> & _).
    split; [apply Sorted_take, sorted_desc_sorted |].
    split; [| split; [discriminate | discriminate]].
    intros h Hin. apply Hfull. by apply (subseteq_take k full).
  - split; [apply sorted_desc_sorted |].
    split; [intros h; apply Hfull |].
    split; [intros _ h Hin Hmem; by apply Hfull |].
    intros -> _. unfold full. by rewrite sorted_desc_perm.
Qed.

Lemma get_payment_history_order_and_filter_witness :
  ∃ l,
    get_payment_history 2024 (Some "Bob") None alice_paid_world = Returns l alice_paid_world
    ∧ l = [].
Proof.
  destruct (get_payment_history_order_and_filter 2024 (Some "Bob") None alice_paid_world
              alice_paid_record alice_paid_world)
    as (l & Hrun & _ & Hin & _).
  - vm_compute. reflexivity.
  - exists l. split; [exact Hrun |].
    destruct l as [|h l]; [done |].
    destruct (Hin h (list_elem_of_here _ _)) as [Hh Hm].
    apply list_elem_of_singleton in Hh as ->.
    specialize (Hm eq_refl). discriminate.
Defined.

Lemma ltb_irrefl (a : string) : String.ltb a a = false.
Proof.
  unfold String.ltb. pose proof (String.compare_antisym a a) as Hanti.
  destruct (String.compare a a); simpl in Hanti; congruence.
Qed.

Lemma insert_desc_with_key k h l :
  with_key k (insert_desc h l) = with_key k (h :: l).
Proof.
  induction l as [|h' l IH]; [done |].
  simpl insert_desc. destruct (String.ltb (sort_key h) (sort_key h')) eqn:Hlt; [| done].
  unfold with_key in *. simpl in *. rewrite IH.
  destruct (String.eqb_spec (sort_key h') k) as [Hk' | Hk'];
    destruct (String.eqb_spec (sort_key h) k) as [Hk | Hk]; try done.
  rewrite Hk', <- Hk, ltb_irrefl in Hlt. discriminate.
Qed.

Lemma sorted_desc_with_key k l : with_key k (sorted_desc l) = with_key k l.
Proof.
  induction l as [|h l IH]; [done |].
  unfold sorted_desc in *. simpl. rewrite insert_desc_with_key.
  unfold with_key in *. simpl. by rewrite IH.
Qed.

(** Sorting the history is stable: the entries that carry the same
    timestamp come out in the order in which they are stored. *)
Theorem get_payment_history_stable year name w r w1 k :
  load_data year w = Returns (YDict r) w1 →
  ∃ l,
    get_payment_history year name None w = Returns l w1
    ∧ with_key k l = with_key k (selected name (history_of r)).
Proof.
  intros Hload. rewrite (get_payment_history_run _ _ _ _ _ _ Hload).
  eexists. split; [reflexivity |]. apply sorted_desc_with_key.
Qed.

Lemma get_payment_history_stable_witness :
  ∃ l,
    get_payment_history 2024 None None alice_paid_world = Returns l alice_paid_world
    ∧ with_key "t3" l = [change_entry "t3" "Alice" "Jan" false true].
Proof.
  destruct (get_payment_history_stable 2024 None alice_paid_world alice_paid_record
              alice_paid_world "t3")
    as (l & Hrun & Hkey).
  - vm_compute. reflexivity.
  - exists l. split; [exact Hrun |]. rewrite Hkey. reflexivity.
Defined.

(** ** The methods that only read *)

Create HintDb reads.

Lemma leaves_ret {A} (a : A) : leaves_files (ret a).
Proof. by intros w. Qed.

Lemma leaves_raise {A} e : leaves_files (@raise A e).
Proof. by intros w. Qed.

Lemma leaves_bind {A B} (m : M A) (k : A → M B) :
  leaves_files m → (∀ a, leaves_files (k a)) → leaves_files (bind m k).
Proof.
  intros Hm Hk w. unfold bind. specialize (Hm w).
  destruct (m w) as [a w'|e w']; [| done].
  specialize (Hk a w'). destruct (k a w'); congruence.
Qed.

Lemma leaves_handle {A} (clauses : list (list exn * (exn → M A))) e :
  Forall (λ c, ∀ e, leaves_files (c.2 e)) clauses → leaves_files (handle clauses e).
Proof.
  induction 1 as [|[classes h] clauses Hh _ IH]; simpl; [apply leaves_raise |].
  destruct (existsb (isinstance e) classes); [apply Hh | exact IH].
Qed.

Lemma leaves_try_except {A} (m : M A) clauses :
  leaves_files m →
  Forall (λ c, ∀ e, leaves_files (c.2 e)) clauses →
  leaves_files (try_except m clauses).
Proof.
  intros Hm Hc w. unfold try_except. specialize (Hm w).
  destruct (m w) as [a w'|e w']; [done |].
  pose proof (leaves_handle clauses e Hc w') as Hh.
  destruct (handle clauses e w'); congruence.
Qed.

Lemma leaves_for_each {A B} (l : list B) (body : A → B → M A) acc :
  (∀ acc x, leaves_files (body acc x)) → leaves_files (for_each l body acc).
Proof.
  intros Hbody. revert acc. induction l as [|x l IH]; intros acc; simpl.
  - apply leaves_ret.
  - apply leaves_bind; [apply Hbody | exact IH].
Qed.

Lemma leaves_now : leaves_files now.
Proof. by intros w. Qed.

Lemma leaves_listdir : leaves_files listdir.
Proof. by intros w. Qed.

Lemma leaves_dict_get {A} (field : YearRecord → option A) dflt data :
  leaves_files (dict_get field dflt data).
Proof. destruct data; [apply leaves_ret | apply leaves_raise]. Qed.

Lemma leaves_py_int s : leaves_files (py_int s).
Proof. unfold py_int. destruct (PyStr.int s); [apply leaves_ret | apply leaves_raise]. Qed.

Lemma leaves_truediv x y : leaves_files (truediv x y).
Proof.
  unfold truediv. destruct (PrimFloat.eqb y 0); [apply leaves_raise | apply leaves_ret].
Qed.

Lemma leaves_load_data year : leaves_files (load_data year).
Proof.
  intros w.
  destruct (load_data_cases year w) as [(c & u & Hl & _) | [(v & Hl & _) | [Hl _]]];
    by rewrite Hl.
Qed.

#[global] Hint Resolve leaves_ret leaves_raise leaves_now leaves_listdir leaves_dict_get
  leaves_py_int leaves_truediv leaves_load_data : reads.

Ltac reads_step :=
  match goal with
  | |- leaves_files (bind _ _) => apply leaves_bind; [| intros ?]
  | |- leaves_files (try_except _ _) =>
      apply leaves_try_except; [| repeat (apply List.Forall_cons; [intros ?; simpl |]);
                                  try apply List.Forall_nil]
  | |- leaves_files (for_each _ _ _) => apply leaves_for_each; intros ? ?
  | |- leaves_files (if ?b then _ else _) => destruct b
  | |- leaves_files (match ?x with _ => _ end) => destruct x
  | |- leaves_files _ => solve [auto with reads]
  end.

Ltac reads := repeat reads_step.

Lemma leaves_get_available_years : leaves_files get_available_years.
Proof. unfold get_available_years. reads. Qed.

#[global] Hint Resolve leaves_get_available_years : reads.

(** The reading methods never change a file, whether they return or raise;
    in particular reading a year that has no file does not create one. *)
Theorem readers_leave_files :
  (∀ y, leaves_files (load_data y))
  ∧ leaves_files get_available_years
  ∧ (∀ y n, leaves_files (get_member_payments y n))
  ∧ (∀ y n limit, leaves_files (get_payment_history y n limit))
  ∧ (∀ y, leaves_files (get_payment_summary y))
  ∧ leaves_files create_full_backup.
Proof.
  repeat split; intros.
  - apply leaves_load_data.
  - apply leaves_get_available_years.
  - unfold get_member_payments. reads.
  - unfold get_payment_history. reads.
  - unfold get_payment_summary. reads.
  - unfold create_full_backup. reads.
Qed.

(** ** What the summary depends on *)

Lemma months_paid_ext (mp mp' : gmap string bool) :
  (∀ mo, mo ∈ month_codes → default false (mp !! mo) = default false (mp' !! mo)) →
  months_paid mp = months_paid mp'.
Proof.
  intros Hext. unfold months_paid. do 2 f_equal.
  apply List.filter_ext_in. intros mo Hin. apply Hext. by apply list_elem_of_In.
Qed.

Lemma stored_flag_read r m mo :
  default false (stored_flag r m mo)
  = default false (default ∅ (default ∅ (payments r) !! m) !! mo).
Proof.
  unfold stored_flag. destruct (payments r) as [ps|]; simpl.
  - destruct (ps !! m); simpl; [done | by rewrite lookup_empty].
  - by rewrite !lookup_empty.
Qed.

Lemma total_paid_ext pps ms (ps ps' : gmap string (gmap string bool)) acc :
  (∀ m, m ∈ ms →
        months_paid (default ∅ (ps !! m)) = months_paid (default ∅ (ps' !! m))) →
  foldl (λ paid name,
           NFloat (to_float paid
                   + float_of_int (months_paid (default ∅ (ps !! name))) * pps)%float)
        acc ms
  = foldl (λ paid name,
             NFloat (to_float paid
                     + float_of_int (months_paid (default ∅ (ps' !! name))) * pps)%float)
          acc ms.
Proof.
  revert acc. induction ms as [|m ms IH]; intros acc Hext; simpl; [done |].
  rewrite (Hext m) by apply list_elem_of_here.
  apply IH. intros m' Hin. apply Hext. by apply list_elem_of_further.
Qed.

(** The summary is a function of the members list, the settings, and the
    flags of the members for the twelve month codes: payments stored for
    names that are not members, or under other month keys, do not change
    any figure. *)
Theorem get_payment_summary_reads_member_flags year w r w1 year' w' r' w1' :
  load_data year w = Returns (YDict r) w1 →
  load_data year' w' = Returns (YDict r') w1' →
  default [] (members r') = default [] (members r) →
  default default_settings (settings r') = default default_settings (settings r) →
  (∀ m mo, m ∈ default [] (members r) → mo ∈ month_codes →
           default false (stored_flag r' m mo) = default false (stored_flag r m mo)) →
  result_of (get_payment_summary year' w') = result_of (get_payment_summary year w).
Proof.
  intros Hload Hload' Hms Hs Hflags.
  unfold get_payment_summary.
  erewrite (bind_returns (load_data year)) by exact Hload.
  erewrite (bind_returns (load_data year')) by exact Hload'.
  unfold bind, dict_get, ret. step. rewrite Hms, Hs.
  destruct (default [] (members r)) as [|m ms] eqn:Hmembers; [reflexivity |].
  destruct (total_price (default default_settings (settings r))) as [price|];
    [| reflexivity].
  unfold truediv.
  destruct (PrimFloat.eqb (float_of_int (Z.of_nat (length (m :: ms)))) 0); [reflexivity |].
  unfold ret. step.
  rewrite (total_paid_ext _ (m :: ms) (default ∅ (payments r')) (default ∅ (payments r))).
  - destruct (PrimFloat.ltb 0 _); [| reflexivity].
    destruct (PrimFloat.eqb _ 0); reflexivity.
  - intros m' Hin. apply months_paid_ext. intros mo Hmo.
    rewrite <- !stored_flag_read. by apply Hflags.
Qed.

Lemma get_payment_summary_reads_member_flags_witness :
  result_of (get_payment_summary 2024 scenario_world_with_strays)
  = result_of (get_payment_summary 2024 scenario_world).
Proof.
  apply (get_payment_summary_reads_member_flags 2024 scenario_world scenario_record
           scenario_world 2024 scenario_world_with_strays scenario_record_with_strays
           scenario_world_with_strays).
  - vm_compute. reflexivity.
  - vm_compute. reflexivity.
  - reflexivity.
  - reflexivity.
  - intros m mo Hm Hmo. simpl in Hm.
    apply elem_of_cons in Hm as [-> | Hm];
      [| apply list_elem_of_singleton in Hm as ->];
      repeat (apply elem_of_cons in Hmo as [-> | Hmo]; [vm_compute; reflexivity |]);
      by apply elem_of_nil in Hmo.
Defined.

(** ** Copying from a year without data, and the years after a restore *)

(** Copying the members of a year that has no file gives the target the
    members of the default record, none: the target's members and payments
    are emptied, its history and settings kept. *)
Theorem copy_members_from_missing_year source_year target_year w rt w2 :
  files w !! get_data_file_path source_year = None →
  load_data target_year (advance 2 w) = Returns (YDict rt) w2 →
  ∃ w3 r3,
    copy_members_from_year source_year target_year w = Returns tt w3
    ∧ load_data target_year w3 = Returns (YDict r3) w3
    ∧ members r3 = Some []
    ∧ payments r3 = Some ∅
    ∧ payment_history r3 = payment_history rt
    ∧ settings r3 = settings rt.
Proof.
  intros Hnone Htgt.
  pose proof (copy_members_from_year_run source_year target_year w _ _ rt w2
                (load_data_missing source_year w Hnone) Htgt) as Hrun.
  eexists _, _. split; [exact Hrun |]. split; [apply load_data_saved | done].
Qed.

Lemma copy_members_from_missing_year_witness :
  ∃ w3 r3,
    copy_members_from_year 2023 2024 alice_paid_world = Returns tt w3
    ∧ load_data 2024 w3 = Returns (YDict r3) w3
    ∧ members r3 = Some []
    ∧ payments r3 = Some ∅.
Proof.
  destruct (copy_members_from_missing_year 2023 2024 alice_paid_world alice_paid_record
              (advance 2 alice_paid_world))
    as (w3 & r3 & Hrun & Hload & Hms & Hps & _).
  - vm_compute. reflexivity.
  - vm_compute. reflexivity.
  - exists w3, r3. auto.
Defined.

Lemma last_record_of_key y entries :
  Forall entry_ok entries → y ∈ year_keys entries → is_Some (last_record y entries).
Proof.
  induction 1 as [|[k d] entries Hok _ IH]; unfold year_keys; simpl.
  - by intros ?%elem_of_nil.
  - destruct (PyStr.int k) as [y'|] eqn:Hk; simpl.
    + intros [-> | Hin]%elem_of_cons.
      * destruct (last_record y' entries); [eauto |].
        destruct Hok as [Hnone | [r Hr]]; simpl in *; [congruence |]. subst d.
        rewrite bool_decide_eq_true_2 by done. eauto.
      * destruct (IH Hin) as [r Hr]. rewrite Hr. eauto.
    + intros Hin. destruct (IH Hin) as [r Hr]. rewrite Hr. eauto.
Qed.

(** After a restore in which every entry with a year key holds a
    dictionary, each restored year is listed by [get_available_years] and
    loads as a dictionary. *)
Theorem restored_years_are_listed exn_text b entries w :
  years b = Some (YearsDict entries) →
  Forall entry_ok entries →
  ∃ result w' listed,
    restore_from_backup exn_text (Dumped (BDict b)) w = Returns result w'
    ∧ get_available_years w' = Returns listed w'
    ∧ ∀ y, y ∈ year_keys entries →
        y ∈ listed ∧ ∃ r, load_data y w' = Returns (YDict r) w'.
Proof.
  intros Hys Hok.
  eexists _, (restored_world entries w), _.
  split; [exact (restore_from_backup_entries exn_text b entries w Hys Hok) |].
  split; [apply get_available_years_run |].
  intros y Hy. destruct (last_record_of_key y entries Hok Hy) as [r Hr].
  pose proof (restored_world_file entries w y) as Hfile. rewrite Hr in Hfile.
  destruct Hfile as [stamp Hfile]. split.
  - rewrite sorted_ints_perm. apply list_elem_of_omap.
    exists (get_data_file_path y). split; [| apply FileNames.year_of_data_file].
    apply elem_of_elements, elem_of_dom. rewrite Hfile. eauto.
  - eexists. by apply load_data_dumped.
Qed.

Lemma restored_years_are_listed_witness :
  ∃ result w' listed,
    restore_from_backup example_exn_text
      (Dumped (BDict {| backup_timestamp := None; years := Some (YearsDict mixed_entries) |}))
      empty_world
    = Returns result w'
    ∧ get_available_years w' = Returns listed w'
    ∧ 2023 ∈ listed
    ∧ 2024 ∈ listed.
Proof.
  destruct (restored_years_are_listed example_exn_text
              {| backup_timestamp := None; years := Some (YearsDict mixed_entries) |}
              mixed_entries empty_world eq_refl)
    as (result & w' & listed & Hrun & Hlist & Hall).
  - apply List.Forall_cons; [right; eexists; reflexivity |].
    apply List.Forall_cons; [left; vm_compute; reflexivity |].
    apply List.Forall_cons; [right; eexists; reflexivity |].
    apply List.Forall_nil.
  - assert (Hkeys : year_keys mixed_entries = [2023; 2024]) by (vm_compute; reflexivity).
    rewrite Hkeys in Hall.
    exists result, w', listed. split; [exact Hrun |]. split; [exact Hlist |].
    split; [apply Hall, list_elem_of_here |].
    apply Hall, list_elem_of_further, list_elem_of_here.
Defined.

(** * Properties of the utilities *)

(** ** Month names and numbers *)

(** [get_month_name] and [get_month_number] invert each other on the months
    1 to 12 and the twelve codes; any other number is read as ["Jan"] and
    any other name as month 1. *)
Theorem month_name_number_round_trip :
  (∀ n, 1 ≤ n ≤ 12 → Utils.get_month_number (Utils.get_month_name n) = n)
  ∧ (∀ s, s ∈ month_codes → Utils.get_month_name (Utils.get_month_number s) = s)
  ∧ (∀ n, ¬ (1 ≤ n ≤ 12) → Utils.get_month_name n = "Jan")
  ∧ (∀ s, s ∉ month_codes → Utils.get_month_number s = 1).
Proof.
  split; [| split; [| split]].
  - intros n Hn.
    assert (Hcases : n = 1 ∨ n = 2 ∨ n = 3 ∨ n = 4 ∨ n = 5 ∨ n = 6 ∨ n = 7 ∨ n = 8
                     ∨ n = 9 ∨ n = 10 ∨ n = 11 ∨ n = 12) by lia.
    repeat (destruct Hcases as [-> | Hcases]; [vm_compute; reflexivity |]).
    subst n. vm_compute. reflexivity.
  - intros s Hs.
    repeat (apply elem_of_cons in Hs as [-> | Hs]; [vm_compute; reflexivity |]).
    by apply elem_of_nil in Hs.
  - intros n Hn. unfold Utils.get_month_name.
    destruct (Z.leb_spec 1 n); destruct (Z.leb_spec n 12); simpl; try reflexivity. lia.
  - intros s Hs. unfold Utils.get_month_number, Utils.month_numbers.
    rewrite (not_elem_of_list_to_map_1 _ s); [reflexivity |]. exact Hs.
Qed.

Lemma month_name_number_round_trip_witness :
  Utils.get_month_number (Utils.get_month_name 9) = 9
  ∧ Utils.get_month_name (Utils.get_month_number "Sep") = "Sep"
  ∧ Utils.get_month_name 13 = "Jan"
  ∧ Utils.get_month_number "September" = 1.
Proof.
  destruct month_name_number_round_trip as (Hn & Hs & Hout & Hunknown).
  split; [apply Hn; lia |].
  split; [apply Hs; do 8 apply list_elem_of_further; apply list_elem_of_here |].
  split; [apply Hout; lia |].
  apply Hunknown. intros Hin.
  repeat (apply elem_of_cons in Hin as [Heq | Hin]; [discriminate Heq |]).
  by apply elem_of_nil in Hin.
Defined.

(** ** The months of a bulk payment *)

Lemma month_codes_NoDup : NoDup month_codes.
Proof.
  unfold month_codes.
  repeat (apply NoDup_cons; split;
          [intros Hin;
           repeat (apply elem_of_cons in Hin as [Heq | Hin]; [discriminate Heq |]);
           by apply elem_of_nil in Hin |]).
  apply NoDup_nil_2.
Qed.

Lemma month_codes_nth i : (i < 12)%nat → month_codes !! i = Some (nth i month_codes "").
Proof.
  intros Hi. do 12 (destruct i as [|i]; [reflexivity |]). lia.
Qed.

Lemma month_codes_nth_inj i j :
  (i < 12)%nat → (j < 12)%nat → nth i month_codes "" = nth j month_codes "" → i = j.
Proof.
  intros Hi Hj Heq.
  apply (NoDup_lookup month_codes i j (nth i month_codes "") month_codes_NoDup).
  - by apply month_codes_nth.
  - rewrite Heq. by apply month_codes_nth.
Qed.

Lemma list_index_bound x l i : Utils.list_index x l = Some i → (i < length l)%nat.
Proof.
  revert i. induction l as [|y l IH]; intros i; simpl; [done |].
  destruct (String.eqb y x).
  - intros [= <-]. lia.
  - destruct (Utils.list_index x l) as [j|]; simpl; [| done].
    intros [= <-]. specialize (IH j eq_refl). lia.
Qed.

Lemma list_index_none x l : x ∉ l → Utils.list_index x l = None.
Proof.
  induction l as [|y l IH]; intros Hout; simpl; [done |].
  destruct (String.eqb_spec y x) as [-> | Hne].
  - exfalso. apply Hout, list_elem_of_here.
  - rewrite IH; [done |]. intros Hin. by apply Hout, list_elem_of_further.
Qed.

Lemma bulk_months_eq start_month num_months :
  Utils.calculate_bulk_payment_months start_month num_months
  = (λ i, nth ((default 0%nat (Utils.list_index start_month month_codes) + i) mod 12)
              month_codes "")
    <$> seq 0 (Z.to_nat num_months).
Proof.
  unfold Utils.calculate_bulk_payment_months.
  by destruct (Utils.list_index start_month month_codes).
Qed.

Lemma wrapped_inj (s i j : nat) :
  (i < 12)%nat → (j < 12)%nat → ((s + i) mod 12 = (s + j) mod 12)%nat → i = j.
Proof.
  intros Hi Hj Heq.
  rewrite (Nat.Div0.add_mod s i), (Nat.Div0.add_mod s j) in Heq.
  rewrite (Nat.mod_small i), (Nat.mod_small j) in Heq by done.
  pose proof (Nat.mod_upper_bound s 12 ltac:(lia)) as Hs.
  set (s' := (s mod 12)%nat) in *.
  destruct (Nat.ltb_spec (s' + i) 12) as [Hsi | Hsi];
    destruct (Nat.ltb_spec (s' + j) 12) as [Hsj | Hsj].
  - rewrite !Nat.mod_small in Heq by done. lia.
  - rewrite (Nat.mod_small (s' + i)) in Heq by done.
    replace (s' + j)%nat with ((s' + j - 12) + 1 * 12)%nat in Heq by lia.
    rewrite Nat.Div0.mod_add, Nat.mod_small in Heq by lia. lia.
  - rewrite (Nat.mod_small (s' + j)) in Heq by done.
    replace (s' + i)%nat with ((s' + i - 12) + 1 * 12)%nat in Heq by lia.
    rewrite Nat.Div0.mod_add, Nat.mod_small in Heq by lia. lia.
  - replace (s' + i)%nat with ((s' + i - 12) + 1 * 12)%nat in Heq by lia.
    replace (s' + j)%nat with ((s' + j - 12) + 1 * 12)%nat in Heq by lia.
    rewrite !Nat.Div0.mod_add, !Nat.mod_small in Heq by lia. lia.
Qed.

Lemma bulk_months_NoDup start_month num_months :
  num_months ≤ 12 → NoDup (Utils.calculate_bulk_payment_months start_month num_months).
Proof.
  intros Hle. rewrite bulk_months_eq. apply NoDup_fmap_2_strong; [| apply NoDup_seq].
  intros i j Hi%elem_of_seq Hj%elem_of_seq Heq.
  apply month_codes_nth_inj in Heq; [| apply Nat.mod_upper_bound; lia ..].
  apply (wrapped_inj _ i j) in Heq; [done | lia ..].
Qed.

(** [calculate_bulk_payment_months] lists [num_months] months: the [i]-th is
    the code [i] places after the starting month, wrapping after December.
    Every listed month is a month code, up to twelve months are listed
    without repetition, a start that is no month code counts as ["Jan"], and
    a number of months that is not positive gives the empty list. *)
Theorem calculate_bulk_payment_months_listing start_month num_months :
  let l := Utils.calculate_bulk_payment_months start_month num_months in
  let start_idx := default 0%nat (Utils.list_index start_month month_codes) in
  length l = Z.to_nat num_months
  ∧ (∀ i, (i < Z.to_nat num_months)%nat →
          l !! i = month_codes !! ((start_idx + i) mod 12)%nat)
  ∧ (∀ m, m ∈ l → m ∈ month_codes)
  ∧ (num_months ≤ 12 → NoDup l)
  ∧ (start_month ∉ month_codes → l = Utils.calculate_bulk_payment_months "Jan" num_months)
  ∧ (num_months ≤ 0 → l = []).
Proof.
  intros l start_idx.
  assert (Hl : l = (λ i, nth ((start_idx + i) mod 12) month_codes "")
                   <$> seq 0 (Z.to_nat num_months)) by apply bulk_months_eq.
  assert (Hmod : ∀ k, (k mod 12 < 12)%nat) by (intros k; apply Nat.mod_upper_bound; lia).
  split; [| split; [| split; [| split; [| split]]]].
  - by rewrite Hl, length_fmap, length_seq.
  - intros i Hi. rewrite Hl, list_lookup_fmap, lookup_seq_lt by done. simpl.
    symmetry. apply month_codes_nth, Hmod.
  - intros m. rewrite Hl. intros (i & -> & _)%list_elem_of_fmap.
    eapply list_elem_of_lookup_2, month_codes_nth, Hmod.
  - apply bulk_months_NoDup.
  - intros Hout. subst l. unfold Utils.calculate_bulk_payment_months.
    by rewrite (list_index_none _ _ Hout).
  - intros Hle. rewrite Hl. by replace (Z.to_nat num_months) with 0%nat by lia.
Qed.

Lemma calculate_bulk_payment_months_listing_witness :
  Utils.calculate_bulk_payment_months "Nov" 3 = ["Nov"; "Dec"; "Jan"]
  ∧ NoDup (Utils.calculate_bulk_payment_months "Nov" 3)
  ∧ Utils.calculate_bulk_payment_months "November" 3 = ["Jan"; "Feb"; "Mar"]
  ∧ Utils.calculate_bulk_payment_months "Nov" (-1) = [].
Proof.
  destruct (calculate_bulk_payment_months_listing "Nov" 3) as (_ & _ & _ & Hnodup & _).
  destruct (calculate_bulk_payment_months_listing "November" 3) as (_ & _ & _ & _ & Hjan & _).
  destruct (calculate_bulk_payment_months_listing "Nov" (-1)) as (_ & _ & _ & _ & _ & Hnil).
  split; [reflexivity |].
  split; [apply Hnodup; lia |].
  split.
  - rewrite Hjan; [reflexivity |]. intros Hin.
    repeat (apply elem_of_cons in Hin as [Heq | Hin]; [discriminate Heq |]).
    by apply elem_of_nil in Hin.
  - apply Hnil. lia.
Defined.

(** ** The summary of one member *)

Lemma filter_length_none {A} (f : A → bool) (l : list A) :
  length (List.filter f l) = 0%nat ↔ ∀ x, x ∈ l → f x = false.
Proof.
  induction l as [|y l IH]; simpl.
  - split; [intros _ x Hin; by apply elem_of_nil in Hin | done].
  - destruct (f y) eqn:Hy; simpl.
    + split; [done |]. intros Hall. specialize (Hall y (list_elem_of_here _ _)). congruence.
    + rewrite IH. split.
      * intros Hall x [-> | Hin]%elem_of_cons; auto.
      * intros Hall x Hin. by apply Hall, list_elem_of_further.
Qed.

Lemma filter_length_all {A} (f : A → bool) (l : list A) :
  length (List.filter f l) = length l ↔ ∀ x, x ∈ l → f x = true.
Proof.
  induction l as [|y l IH]; simpl.
  - split; [intros _ x Hin; by apply elem_of_nil in Hin | done].
  - pose proof (List.filter_length_le f l) as Hle.
    destruct (f y) eqn:Hy; simpl.
    + split.
      * intros Hlen x [-> | Hin]%elem_of_cons; [done |]. apply IH; [lia | done].
      * intros Hall. f_equal. apply IH. intros x Hin. by apply Hall, list_elem_of_further.
    + split; [lia |]. intros Hall. specialize (Hall y (list_elem_of_here _ _)). congruence.
Qed.

Lemma payment_rate_of_count (c : nat) :
  (c ≤ 12)%nat →
  let rate := if (0 <? Z.of_nat c)%Z
              then NFloat (float_of_int (Z.of_nat c) / float_of_int 12 * 100)%float
              else NInt 0 in
  (rate = NInt 0 ↔ c = 0%nat) ∧ (rate = NFloat 100 ↔ c = 12%nat).
Proof.
  intros Hc.
  do 13 (destruct c as [|c];
         [split; (split; intros H;
                  [vm_compute in H; try discriminate H; try reflexivity;
                   injection H as H;
                   apply (f_equal (λ f, PrimFloat.eqb f 100)) in H;
                   vm_compute in H; discriminate H
                  | try discriminate H; vm_compute; reflexivity]) |]).
  lia.
Qed.

(** [calculate_member_summary] counts between 0 and 12 paid months, the
    same count as the summary of the year uses, and the unpaid months are
    the rest of the twelve.  The rate is the integer 0 exactly when no month
    code is flagged paid and 100.0 exactly when all twelve are; flags under
    other keys do not enter the summary. *)
Theorem calculate_member_summary_counts (member_payments other_payments : gmap string bool)
    (price_per_slot : float) :
  let s := Utils.calculate_member_summary member_payments price_per_slot in
  0 ≤ Utils.months_paid s ≤ 12
  ∧ Utils.months_paid s + Utils.months_unpaid s = 12
  ∧ Utils.months_paid s = months_paid member_payments
  ∧ (Utils.payment_rate s = NInt 0
     ↔ ∀ mo, mo ∈ month_codes → default false (member_payments !! mo) = false)
  ∧ (Utils.payment_rate s = NFloat 100
     ↔ ∀ mo, mo ∈ month_codes → member_payments !! mo = Some true)
  ∧ ((∀ mo, mo ∈ month_codes →
        default false (member_payments !! mo) = default false (other_payments !! mo)) →
     Utils.calculate_member_summary other_payments price_per_slot = s).
Proof.
  intros s.
  pose proof (List.filter_length_le (λ m, default false (member_payments !! m)) month_codes)
    as Hle.
  change (length month_codes) with 12%nat in Hle.
  destruct (payment_rate_of_count _ Hle) as [Hzero Hfull].
  set (c := length (List.filter (λ m, default false (member_payments !! m)) month_codes))
    in *.
  assert (Hpaid : Utils.months_paid s = Z.of_nat c) by reflexivity.
  assert (Hunpaid : Utils.months_unpaid s = 12 - Z.of_nat c) by reflexivity.
  split; [| split; [| split; [| split; [| split]]]].
  - rewrite Hpaid. lia.
  - rewrite Hpaid, Hunpaid. lia.
  - reflexivity.
  - etransitivity; [exact Hzero |]. apply filter_length_none.
  - etransitivity; [exact Hfull |].
    etransitivity; [exact (filter_length_all _ month_codes) |].
    split; intros Hall mo Hin; specialize (Hall mo Hin).
    + destruct (member_payments !! mo) as [[|]|]; done.
    + by rewrite Hall.
  - intros Hext. subst s. unfold Utils.calculate_member_summary.
    replace (List.filter (λ m, default false (other_payments !! m)) month_codes)
      with (List.filter (λ m, default false (member_payments !! m)) month_codes);
      [reflexivity |].
    apply List.filter_ext_in. intros mo Hin. apply Hext. by apply list_elem_of_In.
Qed.

Lemma calculate_member_summary_counts_witness :
  let paid : gmap string bool := {[ "Jan" := true; "Feb" := true; "Mar" := true ]} in
  let s := Utils.calculate_member_summary paid 50 in
  Utils.months_paid s = 3
  ∧ Utils.months_unpaid s = 9
  ∧ Utils.payment_rate s = NFloat 25
  ∧ Utils.calculate_member_summary (<["Total" := true]> paid) 50 = s.
Proof.
  intros paid s.
  destruct (calculate_member_summary_counts paid (<["Total" := true]> paid) 50)
    as (_ & Hsum & Hcount & _ & _ & Hext).
  unfold s.
  assert (Hthree : months_paid paid = 3) by reflexivity.
  split; [by rewrite Hcount |].
  split; [rewrite Hcount, Hthree in Hsum; lia |].
  split; [vm_compute; reflexivity |].
  apply Hext. intros mo Hin.
  repeat (apply elem_of_cons in Hin as [-> | Hin]; [vm_compute; reflexivity |]).
  by apply elem_of_nil in Hin.
Defined.

(** * The bulk registration of the payments tab *)

Lemma for_each_fmap {A B C} (f : C → B) (l : list C) (body : A → B → M A) :
  ∀ acc w, for_each (f <$> l) body acc w = for_each l (λ a x, body a (f x)) acc w.
Proof.
  induction l as [|x l IH]; intros acc w; [reflexivity |].
  rewrite fmap_cons, !for_each_cons. destruct (body acc (f x) w); [apply IH | reflexivity].
Qed.

Lemma list_index_some x l : x ∈ l → is_Some (Utils.list_index x l).
Proof.
  induction l as [|y l IH]; [by intros ?%elem_of_nil |].
  intros Hin. simpl. destruct (String.eqb_spec y x) as [-> | Hne]; [by eexists |].
  apply elem_of_cons in Hin as [-> | Hin]; [done |].
  destruct (IH Hin) as [i ->]. by eexists.
Qed.

(** The handler's loop is [update_payment] over the months that
    [calculate_bulk_payment_months] lists. *)
Lemma register_bulk_payment_by_month year name n start_month w :
  start_month ∈ month_codes →
  register_bulk_payment year name n start_month w
  = bulk_by_update_payment year name
      (Utils.calculate_bulk_payment_months start_month n) true w.
Proof.
  intros [i Hi]%list_index_some.
  unfold register_bulk_payment, bulk_by_update_payment.
  rewrite bulk_months_eq, Hi. simpl default.
  rewrite (bind_returns _ _ w i w) by reflexivity.
  by rewrite for_each_fmap.
Qed.

Lemma changes_NoDup name paid months :
  NoDup months →
  ∀ ps : gmap string (gmap string bool),
    changes name paid months ps
    = length (List.filter
                (λ mo, bool_decide (default false (default ∅ (ps !! name) !! mo) ≠ paid))
                months).
Proof.
  induction 1 as [|mo months Hout _ IH]; intros ps; [reflexivity |].
  cbn [changes List.filter]. rewrite IH.
  rewrite (List.filter_ext_in
             (λ mo', bool_decide
                       (default false (default ∅ (with_flag name mo paid ps !! name) !! mo')
                        ≠ paid))
             (λ mo', bool_decide (default false (default ∅ (ps !! name) !! mo') ≠ paid))).
  - by case_bool_decide.
  - intros mo' Hin%list_elem_of_In. rewrite with_flag_member. simpl.
    rewrite lookup_insert_ne; [done |]. by intros ->.
Qed.

(** The bulk registration of the payments tab, for a starting month among
    the month codes and 1 to 12 months, on a year whose dictionary has a
    payments mapping: the flags of the listed months of the member become
    paid, no other flag changes, and the history grows by one entry for each
    listed month that was not paid before.  A starting month that is no
    month code raises [ValueError] before anything is read or written. *)
Theorem register_bulk_payment_effect year name n start_month w r w1 :
  load_data year w = Returns (YDict r) w1 →
  is_Some (payments r) →
  1 ≤ n ≤ 12 →
  let months := Utils.calculate_bulk_payment_months start_month n in
  (start_month ∈ month_codes →
   ∃ w2 r2,
     register_bulk_payment year name n start_month w = Returns tt w2
     ∧ load_data year w2 = Returns (YDict r2) w2
     ∧ (∀ mo, mo ∈ months → stored_flag r2 name mo = Some true)
     ∧ (∀ mo, mo ∉ months → stored_flag r2 name mo = stored_flag r name mo)
     ∧ (∀ other mo, other ≠ name → stored_flag r2 other mo = stored_flag r other mo)
     ∧ length (history_of r2)
       = (length (history_of r)
          + length (List.filter (λ mo, negb (default false (stored_flag r name mo)))
                                months))%nat)
  ∧ (start_month ∉ month_codes →
     register_bulk_payment year name n start_month w = Raises ValueError w).
Proof.
  intros Hload [ps Hps] Hn months. split.
  - intros Hstart.
    pose proof (bulk_months_NoDup start_month n ltac:(lia)) as Hnodup.
    rewrite register_bulk_payment_by_month by done. fold months in Hnodup |- *.
    destruct months as [|mo rest] eqn:Hmonths.
    { exfalso. subst months. rewrite bulk_months_eq in Hmonths.
      apply (f_equal length) in Hmonths. rewrite length_fmap, length_seq in Hmonths.
      simpl in Hmonths. lia. }
    destruct (bulk_by_update_payment_run year name true rest mo w r w1 ps Hload Hps)
      as (w2 & r2 & Hrun & Hload2 & Hps2 & Hlen).
    rewrite <- bulk_flags_month_by_month in Hps2.
    assert (Hflag : ∀ n' mo',
               stored_flag r2 n' mo'
               = bulk_flags name (mo :: rest) true ps !! n' ≫= (.!! mo'))
      by (intros n' mo'; unfold stored_flag; by rewrite Hps2).
    exists w2, r2. split; [exact Hrun |]. split; [exact Hload2 |].
    split; [| split; [| split]].
    + intros mo' Hin. rewrite Hflag, bulk_flags_lookup. cbn [mbind option_bind].
      rewrite foldl_insert_flag. by rewrite bool_decide_eq_true_2.
    + intros mo' Hout. rewrite Hflag, bulk_flags_lookup. cbn [mbind option_bind].
      rewrite foldl_insert_flag, bool_decide_eq_false_2 by done.
      unfold stored_flag. rewrite Hps. simpl.
      destruct (ps !! name); simpl; [done | by rewrite lookup_empty].
    + intros other mo' Hne. rewrite Hflag, bulk_flags_other by done.
      unfold stored_flag. by rewrite Hps.
    + rewrite Hlen, (changes_NoDup name true (mo :: rest) Hnodup ps). do 2 f_equal.
      apply List.filter_ext. intros mo'.
      rewrite (stored_flag_default r name mo' ps Hps).
      by destruct (default false (default ∅ (ps !! name) !! mo')).
  - intros Hout. unfold register_bulk_payment.
    by rewrite (list_index_none _ _ Hout).
Qed.

Lemma register_bulk_payment_effect_witness :
  ∃ w2 r2,
    register_bulk_payment 2024 "Alice" 3 "Dec" alice_paid_world = Returns tt w2
    ∧ load_data 2024 w2 = Returns (YDict r2) w2
    ∧ stored_flag r2 "Alice" "Feb" = Some true
    ∧ stored_flag r2 "Alice" "Mar" = None
    ∧ length (history_of r2) = 3%nat.
Proof.
  destruct (register_bulk_payment_effect 2024 "Alice" 3 "Dec" alice_paid_world
              alice_paid_record alice_paid_world) as [Hrun _].
  - vm_compute. reflexivity.
  - simpl. eauto.
  - lia.
  - destruct Hrun as (w2 & r2 & Hrun & Hload & Hin & Hout & _ & Hlen).
    { do 11 apply list_elem_of_further. apply list_elem_of_here. }
    exists w2, r2. split; [exact Hrun |]. split; [exact Hload |].
    split; [apply Hin; do 2 apply list_elem_of_further; apply list_elem_of_here |].
    split; [| exact Hlen].
    rewrite Hout; [reflexivity |]. intros Hmar.
    repeat (apply elem_of_cons in Hmar as [Heq | Hmar]; [discriminate Heq |]).
    by apply elem_of_nil in Hmar.
Defined.

(** * The summary of a year whose settings lack the price *)

(** With at least one member, [get_payment_summary] subscripts the settings
    for ["total_price"]: settings that are stored without that key make it
    raise [KeyError], the default price being used only when the record has
    no settings at all. *)
Theorem summary_needs_total_price year w r w1 m ms s :
  load_data year w = Returns (YDict r) w1 →
  members r = Some (m :: ms) →
  settings r = Some s →
  total_price s = None →
  get_payment_summary year w = Raises KeyError w1.
Proof.
  intros Hload Hms Hs Hprice.
  unfold get_payment_summary, bind. rewrite Hload. step.
  unfold dict_get, ret. step. rewrite Hms, Hs.
  cbv beta iota delta [from_option id]. by rewrite Hprice.
Qed.

Lemma summary_needs_total_price_witness :
  get_payment_summary 2024 unpriced_world = Raises KeyError unpriced_world.
Proof.
  apply (summary_needs_total_price 2024 unpriced_world unpriced_record unpriced_world
           "Alice" [] {| total_price := None; max_slots := Some 10 |}).
  - vm_compute. reflexivity.
  - reflexivity.
  - reflexivity.
  - reflexivity.
Defined.
